(** * TODO-API: a shallow embedding of the ownership-scoped CRUD core

    The embedding follows the layout of the Python package:
    - [pystr]       : the [str] methods the validators call;
    - [schemas]     : app/models/schemas.py (pydantic models and validators);
    - [exceptions]  : app/exceptions/custom_exceptions.py and the other
                      exceptions the code meets;
    - [database]    : the PostgreSQL tables behind the asyncpg connection,
                      with the SQL statements the code issues;
    - [crud_todos]  : app/crud/todos.py;
    - [security]    : app/core/security.py, with python-jose's tokens;
    - [user]        : app/models/user.py;
    - [crud_users]  : app/crud/users.py;
    - [routes_auth] : app/routes/auth.py;
    - [pyfloat]     : true division and [round] on binary64 floats;
    - [routes_todos]: app/routes/todos.py;
    - [core_auth]   : app/core/auth.py;
    - [retry]       : app/utils/retry.py;
    - [migrate]     : app/database/migrate.py.

    Python [int] is [Z].  A [str] is a [string] whose characters are read as
    the code points U+0000..U+00FF.  A [float] is a primitive binary64
    float.  An exception is a value of [exn]; code that awaits the
    connection runs in the monad [database.db], which threads the tables
    and the list of statements sent so far.  Requests run one after the
    other, and the connection itself does not fail. *)

From Stdlib Require Import ZArith List String Ascii Bool Lia Sorting.Sorted.
From Stdlib Require Import Floats.PrimFloat Floats.SpecFloat Floats.FloatOps.
From Stdlib Require Import Numbers.Cyclic.Int63.Uint63.
Import ListNotations.

Local Open Scope string_scope.
Local Open Scope Z_scope.

(** ** Python string methods *)

Module pystr.

Definition ord (c : ascii) : N := N_of_ascii c.

(** [str.isspace] on one character: the code points below 256 that
    Python classes as whitespace. *)
Definition is_space (c : ascii) : bool :=
  let n := ord c in
  ((9 <=? n) && (n <=? 13) || (28 <=? n) && (n <=? 32)
   || (n =? 133) || (n =? 160))%N.

(** [str.lower] on one character. *)
Definition lower_char (c : ascii) : ascii :=
  let n := ord c in
  if ((65 <=? n) && (n <=? 90)
      || (192 <=? n) && (n <=? 222) && negb (n =? 215))%N
  then ascii_of_N (n + 32) else c.

Fixpoint lower (s : string) : string :=
  match s with
  | EmptyString => EmptyString
  | String c r => String (lower_char c) (lower r)
  end.

Fixpoint all_space (s : string) : bool :=
  match s with
  | EmptyString => true
  | String c r => is_space c && all_space r
  end.

(** [bool(s)]: a string is truthy when it is not empty. *)
Definition truthy (s : string) : bool :=
  match s with EmptyString => false | String _ _ => true end.

(** [s.isspace()]: at least one character, and all of them whitespace. *)
Definition isspace (s : string) : bool := truthy s && all_space s.

Fixpoint lstrip (s : string) : string :=
  match s with
  | EmptyString => EmptyString
  | String c r => if is_space c then lstrip r else s
  end.

Fixpoint rstrip (s : string) : string :=
  match s with
  | EmptyString => EmptyString
  | String c r =>
      let r' := rstrip r in
      if is_space c && negb (truthy r') then EmptyString else String c r'
  end.

(** [s.strip()] *)
Definition strip (s : string) : string := rstrip (lstrip s).

(** [s.startswith(p)] *)
Fixpoint startswith (p s : string) : bool :=
  match p, s with
  | EmptyString, _ => true
  | String _ _, EmptyString => false
  | String a p', String b s' => Ascii.eqb a b && startswith p' s'
  end.

(** [sub in s] *)
Fixpoint contains (sub s : string) : bool :=
  startswith sub s
  || match s with
     | EmptyString => false
     | String _ r => contains sub r
     end.

(** [len(s)] *)
Definition len (s : string) : Z := Z.of_nat (String.length s).

End pystr.

(** ** app/models/schemas.py *)

Module schemas.
Import pystr.

(** What pydantic reports for one field. *)
Inductive field_error : Type :=
| string_too_short (min_length : Z)
| string_too_long (max_length : Z)
| value_error (msg : string)
| greater_than_equal (ge : Z)
| less_than_equal (le : Z).

(** A [ValidationError] lists the failing fields. *)
Definition ValidationError : Type := list (string * field_error).

Definition checked (A : Type) : Type := (field_error + A)%type.

(** [Field(min_length=.., max_length=..)] on a [str]: the length
    constraints are checked on the value as received, before the
    [field_validator] of the field runs. *)
Definition Field (min_length : option Z) (max_length : option Z)
           (v : string) : checked string :=
  match min_length with
  | Some lo => if len v <? lo then inl (string_too_short lo) else
      match max_length with
      | Some hi => if hi <? len v then inl (string_too_long hi) else inr v
      | None => inr v
      end
  | None =>
      match max_length with
      | Some hi => if hi <? len v then inl (string_too_long hi) else inr v
      | None => inr v
      end
  end.

Definition and_then {A B : Type} (c : checked A) (f : A -> checked B)
  : checked B :=
  match c with inl e => inl e | inr a => f a end.

(** Errors of two fields are collected, not short-circuited. *)
Definition collect2 {A B C : Type} (na nb : string)
           (a : checked A) (b : checked B) (k : A -> B -> C)
  : ValidationError + C :=
  match a, b with
  | inr x, inr y => inr (k x y)
  | inl e, inr _ => inl [(na, e)]
  | inr _, inl e => inl [(nb, e)]
  | inl e1, inl e2 => inl [(na, e1); (nb, e2)]
  end.

Module TodoCreate.
Record t : Type := mk { title : string; description : option string }.

Definition validate_title (v : string) : checked string :=
  if negb (truthy v) || isspace v then
    inl (value_error "Title cannot be empty or just whitespace")
  else
    let v := strip v in
    if contains "<" v || contains ">" v then
      inl (value_error "Title cannot contain HTML tags")
    else inr v.

Definition validate_description (v : option string)
  : checked (option string) :=
  match v with
  | Some v =>
      let v := strip v in
      if negb (truthy v) then inr None
      else if contains "<script" (lower v)
              || contains "</script>" (lower v) then
        inl (value_error "Description cannot contain script tags")
      else inr (Some v)
  | None => inr None
  end.

Definition field_title (v : string) : checked string :=
  and_then (Field (Some 1) (Some 200) v) validate_title.

Definition field_description (v : option string)
  : checked (option string) :=
  match v with
  | Some s =>
      and_then (Field None (Some 1000) s)
               (fun s => validate_description (Some s))
  | None => inr None
  end.

(** [TodoCreate(title=.., description=..)] *)
Definition new (title : string) (description : option string)
  : ValidationError + t :=
  collect2 "title" "description"
           (field_title title) (field_description description) mk.
End TodoCreate.

Module TodoPatch.
Record t : Type :=
  mk { title : option string;
       description : option string;
       completed : option bool }.

Definition validate_title (v : option string) : checked (option string) :=
  match v with
  | Some v =>
      if negb (truthy v) || isspace v then
        inl (value_error "Title cannot be empty or just whitespace")
      else
        let v := strip v in
        if contains "<" v || contains ">" v then
          inl (value_error "Title cannot contain HTML tags")
        else inr (Some v)
  | None => inr None
  end.

Definition validate_description (v : option string)
  : checked (option string) :=
  match v with
  | Some v =>
      let v := strip v in
      if negb (truthy v) then inr None
      else if contains "<script" (lower v)
              || contains "</script>" (lower v) then
        inl (value_error "Description cannot contain script tags")
      else inr (Some v)
  | None => inr None
  end.

Definition field_title (v : option string) : checked (option string) :=
  match v with
  | Some s =>
      and_then (Field (Some 1) (Some 200) s)
               (fun s => validate_title (Some s))
  | None => inr None
  end.

Definition field_description (v : option string)
  : checked (option string) :=
  match v with
  | Some s =>
      and_then (Field None (Some 1000) s)
               (fun s => validate_description (Some s))
  | None => inr None
  end.

(** [TodoPatch(title=.., description=.., completed=..)]; a field left
    out of the request body is [None]. *)
Definition new (title description : option string)
           (completed : option bool) : ValidationError + t :=
  collect2 "title" "description"
           (field_title title) (field_description description)
           (fun t d => mk t d completed).
End TodoPatch.

Module TodoPut.
Record t : Type :=
  mk { title : string; description : option string; completed : bool }.

Definition validate_title (v : string) : checked string :=
  if negb (truthy v) || isspace v then
    inl (value_error "Title cannot be empty or just whitespace")
  else
    let v := strip v in
    if contains "<" v || contains ">" v then
      inl (value_error "Title cannot contain HTML tags")
    else inr v.

Definition validate_description (v : option string)
  : checked (option string) :=
  match v with
  | Some v =>
      let v := strip v in
      if negb (truthy v) then inr None
      else if contains "<script" (lower v)
              || contains "</script>" (lower v) then
        inl (value_error "Description cannot contain script tags")
      else inr (Some v)
  | None => inr None
  end.

Definition field_title (v : string) : checked string :=
  and_then (Field (Some 1) (Some 200) v) validate_title.

Definition field_description (v : option string)
  : checked (option string) :=
  match v with
  | Some s =>
      and_then (Field None (Some 1000) s)
               (fun s => validate_description (Some s))
  | None => inr None
  end.

(** [TodoPut(title=.., description=.., completed=..)]; [completed]
    left out of the body takes its default [False]. *)
Definition new (title : string) (description : option string)
           (completed : option bool) : ValidationError + t :=
  collect2 "title" "description"
           (field_title title) (field_description description)
           (fun t d => mk t d (match completed with
                               | Some b => b
                               | None => false
                               end)).
End TodoPut.

Module TodoResponse.
Record t : Type :=
  mk { id : Z;
       title : string;
       description : option string;
       completed : bool;
       created_at : Z;
       user_id : option Z }.
End TodoResponse.

Module TodosWithPagination.
Record t : Type :=
  mk { todos : list TodoResponse.t;
       total_count : Z;
       page : Z;
       page_size : Z;
       total_pages : Z }.
End TodosWithPagination.

Module TodoStats.
Record t : Type :=
  mk { total_todos : Z;
       completed_todos : Z;
       pending_todos : Z;
       completion_rate : float }.
End TodoStats.

End schemas.

(** ** app/exceptions/custom_exceptions.py and the exceptions met on the way *)

Module exceptions.

Inductive exn : Type :=
| TodoNotFoundError (todo_id : Z)
| DatabaseError (message : string) (cause : exn)
    (** [DatabaseError(f"<message>{str(e)}")]: the prefix and the
        exception that was caught *)
| UserAlreadyExistsError (field value : string)
| RequestValidationError (errors : schemas.ValidationError)
| HTTPException (status_code : Z) (detail : string)
| JWTError
| TypeError
| ZeroDivisionError
| PostgresError (message : string).

(** [isinstance(e, TodoNotFoundError)] *)
Definition is_TodoNotFoundError (e : exn) : bool :=
  match e with TodoNotFoundError _ => true | _ => false end.

(** [isinstance(e, UserAlreadyExistsError)] *)
Definition is_UserAlreadyExistsError (e : exn) : bool :=
  match e with UserAlreadyExistsError _ _ => true | _ => false end.

(** [isinstance(e, JWTError)] *)
Definition is_JWTError (e : exn) : bool :=
  match e with JWTError => true | _ => false end.

End exceptions.

(** ** The database behind the connection pool *)

Module database.
Import exceptions.

(** A row of [todos]. *)
Module Todo.
Record row : Type :=
  mk { id : Z;
       title : string;
       description : option string;
       completed : bool;
       created_at : Z;
       user_id : option Z }.
End Todo.

(** A row of [users]. *)
Module User.
Record row : Type :=
  mk { id : Z;
       username : string;
       email : string;
       hashed_password : string;
       is_active : bool;
       created_at : Z }.
End User.

Inductive verb : Type := SELECT | INSERT | UPDATE | DELETE.

(** What a connection can reach: the two tables in scan order, their id
    sequences, the server clock, and the statements received so far
    (oldest first). *)
Record conn : Type :=
  mkconn { todos : list Todo.row;
           users : list User.row;
           todos_id_seq : Z;
           users_id_seq : Z;
           clock : Z;
           statements : list (verb * string) }.

(** Code that awaits the connection: it may raise, and the tables keep
    whatever was written before the exception (autocommit). *)
Definition db (A : Type) : Type := conn -> (exn + A) * conn.

Definition ret {A : Type} (a : A) : db A := fun c => (inr a, c).

Definition bind {A B : Type} (m : db A) (k : A -> db B) : db B :=
  fun c =>
    match m c with
    | (inr a, c') => k a c'
    | (inl e, c') => (inl e, c')
    end.

Definition raise {A : Type} (e : exn) : db A := fun c => (inl e, c).

(** [try: body / except Exception as e: handler(e)] *)
Definition try_except {A : Type} (body : db A) (handler : exn -> db A)
  : db A :=
  fun c =>
    match body c with
    | (inr a, c') => (inr a, c')
    | (inl e, c') => handler e c'
    end.

Definition sent (v : verb) (table : string) : db unit :=
  fun c =>
    (inr tt,
     mkconn (todos c) (users c) (todos_id_seq c) (users_id_seq c)
            (clock c) (statements c ++ [(v, table)])%list).

Definition read {A : Type} (f : conn -> A) : db A := fun c => (inr (f c), c).

Definition set_todos (l : list Todo.row) : db unit :=
  fun c =>
    (inr tt,
     mkconn l (users c) (todos_id_seq c) (users_id_seq c)
            (clock c) (statements c)).

Definition set_users (l : list User.row) : db unit :=
  fun c =>
    (inr tt,
     mkconn (todos c) l (todos_id_seq c) (users_id_seq c)
            (clock c) (statements c)).

Definition next_todo_id : db Z :=
  fun c =>
    (inr (todos_id_seq c),
     mkconn (todos c) (users c) (todos_id_seq c + 1) (users_id_seq c)
            (clock c) (statements c)).

Definition next_user_id : db Z :=
  fun c =>
    (inr (users_id_seq c),
     mkconn (todos c) (users c) (todos_id_seq c) (users_id_seq c + 1)
            (clock c) (statements c)).

Declare Scope db_scope.
Delimit Scope db_scope with db.
Notation "x <- m ;; k" := (bind m (fun x => k))
  (at level 100, m at next level, right associativity) : db_scope.
Notation "m ;;; k" := (bind m (fun _ => k))
  (at level 100, right associativity) : db_scope.
Local Open Scope db_scope.

(** *** SQL: pattern matching *)

(** [s LIKE p]: [%] stands for any run of characters, [_] for any one
    character, and a backslash makes the next character literal.  (A
    pattern that ends in a lone backslash is an error in PostgreSQL; the
    patterns built by [list_todos] end in [%].) *)
Fixpoint like (p : string) : string -> bool :=
  match p with
  | EmptyString => fun s => negb (pystr.truthy s)
  | String c p' =>
      if Ascii.eqb c "%" then
        fix any (s : string) : bool :=
          like p' s
          || match s with
             | EmptyString => false
             | String _ s' => any s'
             end
      else if Ascii.eqb c "_" then
        fun s =>
          match s with
          | EmptyString => false
          | String _ s' => like p' s'
          end
      else if Ascii.eqb c "\" then
        match p' with
        | EmptyString => fun _ => false
        | String e p'' =>
            fun s =>
              match s with
              | EmptyString => false
              | String d s' => Ascii.eqb e d && like p'' s'
              end
        end
      else
        fun s =>
          match s with
          | EmptyString => false
          | String d s' => Ascii.eqb c d && like p' s'
          end
  end.

(** [s ILIKE p] *)
Definition ilike (s p : string) : bool :=
  like (pystr.lower p) (pystr.lower s).

(** *** SQL: the WHERE clauses and SET lists the code assembles *)

(** [user_id = $n]; a NULL owner equals nothing. *)
Definition user_id_eq (u : Z) (r : Todo.row) : bool :=
  match Todo.user_id r with
  | Some v => v =? u
  | None => false
  end.

Inductive condition : Type :=
| completed_eq (b : bool)
    (** [completed = $n] *)
| title_or_description_ilike (pattern : string)
    (** [(title ILIKE $n OR description ILIKE $n)] *).

Definition holds (cnd : condition) (r : Todo.row) : bool :=
  match cnd with
  | completed_eq b => Bool.eqb (Todo.completed r) b
  | title_or_description_ilike p =>
      ilike (Todo.title r) p
      || match Todo.description r with
         | Some d => ilike d p
         | None => false
         end
  end.

(** [WHERE user_id = $1 AND c1 AND c2 ...] *)
Definition where_user_and (u : Z) (conditions : list condition)
           (r : Todo.row) : bool :=
  user_id_eq u r && forallb (fun cnd => holds cnd r) conditions.

(** [WHERE id = $1 AND user_id = $2] *)
Definition where_id_and_user (i u : Z) (r : Todo.row) : bool :=
  (Todo.id r =? i) && user_id_eq u r.

Inductive assignment : Type :=
| set_title (v : string)
| set_description (v : option string)
| set_completed (v : bool).

Definition assign (r : Todo.row) (a : assignment) : Todo.row :=
  match a with
  | set_title v =>
      Todo.mk (Todo.id r) v (Todo.description r) (Todo.completed r)
              (Todo.created_at r) (Todo.user_id r)
  | set_description v =>
      Todo.mk (Todo.id r) (Todo.title r) v (Todo.completed r)
              (Todo.created_at r) (Todo.user_id r)
  | set_completed v =>
      Todo.mk (Todo.id r) (Todo.title r) (Todo.description r) v
              (Todo.created_at r) (Todo.user_id r)
  end.

(** [SET a1, a2, ...] on one row *)
Definition assign_all (sets : list assignment) (r : Todo.row) : Todo.row :=
  fold_left assign sets r.

(** [ORDER BY created_at DESC]; rows with the same timestamp keep their
    scan order. *)
Fixpoint insert_desc (r : Todo.row) (l : list Todo.row) : list Todo.row :=
  match l with
  | [] => [r]
  | x :: l' =>
      if Todo.created_at x <=? Todo.created_at r then r :: l
      else x :: insert_desc r l'
  end.

Definition order_by_created_at_desc (l : list Todo.row) : list Todo.row :=
  fold_right insert_desc [] l.

(** *** The statements *)

(** [conn.fetchrow('SELECT * FROM todos WHERE id = $1 AND user_id = $2')] *)
Definition fetchrow_todo_by_id_and_user (todo_id user_id : Z)
  : db (option Todo.row) :=
  sent SELECT "todos" ;;;
  rows <- read todos ;;
  ret (find (where_id_and_user todo_id user_id) rows).

(** [conn.fetchrow('SELECT * FROM todos WHERE id = $1')] *)
Definition fetchrow_todo_by_id (todo_id : Z) : db (option Todo.row) :=
  sent SELECT "todos" ;;;
  rows <- read todos ;;
  ret (find (fun r => Todo.id r =? todo_id) rows).

(** [conn.fetchval("SELECT COUNT( * ) FROM todos WHERE user_id = $1 ...")] *)
Definition fetchval_count (user_id : Z) (conditions : list condition)
  : db Z :=
  sent SELECT "todos" ;;;
  rows <- read todos ;;
  ret (Z.of_nat (List.length (filter (where_user_and user_id conditions) rows))).

(** [conn.fetch("SELECT * FROM todos WHERE user_id = $1 ... ORDER BY
    created_at DESC LIMIT $n OFFSET $m")] *)
Definition fetch_page (user_id : Z) (conditions : list condition)
           (limit offset : Z) : db (list Todo.row) :=
  sent SELECT "todos" ;;;
  if limit <? 0 then raise (PostgresError "LIMIT must not be negative")
  else if offset <? 0 then raise (PostgresError "OFFSET must not be negative")
  else
    rows <- read todos ;;
    ret (firstn (Z.to_nat limit)
           (skipn (Z.to_nat offset)
              (order_by_created_at_desc
                 (filter (where_user_and user_id conditions) rows)))).

(** [INSERT INTO todos (title, description, user_id) VALUES ($1, $2, $3)
    RETURNING ...]: the id comes from the sequence, [completed] defaults
    to FALSE and [created_at] to the current timestamp. *)
Definition insert_todo_returning (title : string)
           (description : option string) (user_id : Z)
  : db (option Todo.row) :=
  sent INSERT "todos" ;;;
  i <- next_todo_id ;;
  now <- read clock ;;
  rows <- read todos ;;
  let r := Todo.mk i title description false now (Some user_id) in
  set_todos (rows ++ [r])%list ;;;
  ret (Some r).

(** [UPDATE todos SET ... WHERE id = $n AND user_id = $m RETURNING ...],
    read with [fetchrow]: every matching row is updated and the first
    updated row, if any, comes back. *)
Definition update_todo_returning (sets : list assignment)
           (todo_id user_id : Z) : db (option Todo.row) :=
  sent UPDATE "todos" ;;;
  rows <- read todos ;;
  let rows' :=
    map (fun r => if where_id_and_user todo_id user_id r
                  then assign_all sets r else r) rows in
  set_todos rows' ;;;
  ret (find (where_id_and_user todo_id user_id) rows').

(** [conn.execute('DELETE FROM todos WHERE id = $1 AND user_id = $2')]:
    the status ["DELETE n"], as the number [n]. *)
Definition execute_delete_todo (todo_id user_id : Z) : db Z :=
  sent DELETE "todos" ;;;
  rows <- read todos ;;
  set_todos (filter (fun r => negb (where_id_and_user todo_id user_id r)) rows) ;;;
  ret (Z.of_nat (List.length (filter (where_id_and_user todo_id user_id) rows))).

(** The aggregate row of [get_todo_stats]. *)
Record stats_row : Type :=
  mkstats { total_todos : Z; completed_todos : Z; pending_todos : Z }.

(** [SELECT COUNT( * ), COUNT(CASE WHEN completed = true THEN 1 END),
    COUNT(CASE WHEN completed = false THEN 1 END) FROM todos
    WHERE user_id = $1] *)
Definition fetchrow_stats (user_id : Z) : db stats_row :=
  sent SELECT "todos" ;;;
  rows <- read todos ;;
  let mine := filter (user_id_eq user_id) rows in
  ret (mkstats
         (Z.of_nat (List.length mine))
         (Z.of_nat (List.length (filter (fun r => Bool.eqb (Todo.completed r) true) mine)))
         (Z.of_nat (List.length (filter (fun r => Bool.eqb (Todo.completed r) false) mine)))).

(** [SELECT username, email FROM users WHERE username = $1 OR email = $2],
    read with [fetchrow]: the first matching row in scan order. *)
Definition fetchrow_user_by_username_or_email (username email : string)
  : db (option (string * string)) :=
  sent SELECT "users" ;;;
  rows <- read users ;;
  ret (option_map (fun r => (User.username r, User.email r))
         (find (fun r => String.eqb (User.username r) username
                         || String.eqb (User.email r) email) rows)).

(** [SELECT * FROM users WHERE username = $1 AND is_active = TRUE] *)
Definition fetchrow_active_user_by_username (username : string)
  : db (option User.row) :=
  sent SELECT "users" ;;;
  rows <- read users ;;
  ret (find (fun r => String.eqb (User.username r) username
                      && Bool.eqb (User.is_active r) true) rows).

(** [SELECT id, username, email, is_active, created_at FROM users
    WHERE id = $1 AND is_active = TRUE] *)
Definition fetchrow_active_user_by_id (user_id : Z) : db (option User.row) :=
  sent SELECT "users" ;;;
  rows <- read users ;;
  ret (find (fun r => (User.id r =? user_id)
                      && Bool.eqb (User.is_active r) true) rows).

(** Modelled from the spec: the [users] table of the migration scripts,
    which are not among the sources.  The spec gives the columns
    [users(id, username unique, email unique, hashed_password, is_active,
    created_at)]; a new row gets its id from the sequence, its timestamp
    from the clock, and is active.

    [INSERT INTO users (username, email, hashed_password)
    VALUES ($1, $2, $3) RETURNING id, username, email, is_active,
    created_at] *)
Definition insert_user_returning (username email hashed_password : string)
  : db (option User.row) :=
  sent INSERT "users" ;;;
  i <- next_user_id ;;
  now <- read clock ;;
  rows <- read users ;;
  let r := User.mk i username email hashed_password true now in
  set_users (rows ++ [r])%list ;;;
  ret (Some r).

End database.

(** ** app/crud/todos.py *)

Module crud_todos.
Import exceptions database schemas.
Local Open Scope db_scope.

(** [TodoResponse( **row )]; unpacking [None] is a [TypeError]. *)
Definition TodoResponse_of (row : option Todo.row) : db TodoResponse.t :=
  match row with
  | Some r =>
      ret (TodoResponse.mk (Todo.id r) (Todo.title r) (Todo.description r)
             (Todo.completed r) (Todo.created_at r) (Todo.user_id r))
  | None => raise TypeError
  end.

(** [[TodoResponse( **row ) for row in rows]] *)
Fixpoint TodoResponse_each (rows : list Todo.row) : db (list TodoResponse.t) :=
  match rows with
  | [] => ret []
  | row :: rows' =>
      t <- TodoResponse_of (Some row) ;;
      ts <- TodoResponse_each rows' ;;
      ret (t :: ts)
  end.

Definition get_todo_or_raise (todo_id : Z) (user_id : option Z)
  : db Todo.row :=
  try_except
    (row <- match user_id with
            | Some user_id => fetchrow_todo_by_id_and_user todo_id user_id
            | None => fetchrow_todo_by_id todo_id
            end ;;
     match row with
     | None => raise (TodoNotFoundError todo_id)
     | Some row => ret row
     end)
    (fun e =>
       if is_TodoNotFoundError e then raise e
       else raise (DatabaseError "Failed to fetch TODO: " e)).

(** [x or 0] on a Python integer *)
Definition or_0 (x : Z) : Z := if x =? 0 then 0 else x.

(** [a // b] on Python integers *)
Definition floordiv (a b : Z) : db Z :=
  if b =? 0 then raise ZeroDivisionError else ret (a / b).

Definition list_todos (user_id : Z) (completed : option bool)
           (search : option string) (page page_size : Z)
  : db TodosWithPagination.t :=
  try_except
    (let conditions : list condition := [] in
     let conditions :=
       match completed with
       | Some completed => (conditions ++ [completed_eq completed])%list
       | None => conditions
       end in
     let conditions :=
       match search with
       | Some search =>
           (conditions ++ [title_or_description_ilike ("%" ++ search ++ "%")])%list
       | None => conditions
       end in
     total_count <- fetchval_count user_id conditions ;;
     let total_count := or_0 total_count in
     let offset := (page - 1) * page_size in
     total_pages <- floordiv (total_count + page_size - 1) page_size ;;
     rows <- fetch_page user_id conditions page_size offset ;;
     todos <- TodoResponse_each rows ;;
     ret (TodosWithPagination.mk todos total_count page page_size total_pages))
    (fun e => raise (DatabaseError "Failed to list todos: " e)).

Definition get_todo (todo_id user_id : Z) : db TodoResponse.t :=
  row <- get_todo_or_raise todo_id (Some user_id) ;;
  TodoResponse_of (Some row).

Definition create_todo (todo : TodoCreate.t) (user_id : Z)
  : db TodoResponse.t :=
  try_except
    (row <- insert_todo_returning (TodoCreate.title todo)
              (TodoCreate.description todo) user_id ;;
     TodoResponse_of row)
    (fun e => raise (DatabaseError "Failed to create todo: " e)).

Definition replace_todo (todo_id : Z) (data : TodoPut.t) (user_id : Z)
  : db TodoResponse.t :=
  try_except
    (get_todo_or_raise todo_id (Some user_id) ;;;
     updated_row <- update_todo_returning
                      [set_title (TodoPut.title data);
                       set_description (TodoPut.description data);
                       set_completed (TodoPut.completed data)]
                      todo_id user_id ;;
     TodoResponse_of updated_row)
    (fun e =>
       if is_TodoNotFoundError e then raise e
       else raise (DatabaseError "Failed to update todo: " e)).

Definition update_todo (todo_id : Z) (patch : TodoPatch.t) (user_id : Z)
  : db TodoResponse.t :=
  try_except
    (existing <- get_todo_or_raise todo_id (Some user_id) ;;
     let update_fields : list assignment := [] in
     let update_fields :=
       match TodoPatch.title patch with
       | Some title => (update_fields ++ [set_title title])%list
       | None => update_fields
       end in
     let update_fields :=
       match TodoPatch.description patch with
       | Some description =>
           (update_fields ++ [set_description (Some description)])%list
       | None => update_fields
       end in
     let update_fields :=
       match TodoPatch.completed patch with
       | Some completed => (update_fields ++ [set_completed completed])%list
       | None => update_fields
       end in
     match update_fields with
     | [] => TodoResponse_of (Some existing)
     | _ :: _ =>
         updated_row <- update_todo_returning update_fields todo_id user_id ;;
         TodoResponse_of updated_row
     end)
    (fun e =>
       if is_TodoNotFoundError e then raise e
       else raise (DatabaseError "Failed to update todo: " e)).

(** The reply [{"message": f"TODO {todo_id} deleted successfully"}],
    kept as the id it names. *)
Inductive deleted : Type := deleted_successfully (todo_id : Z).

Definition delete_todo (todo_id user_id : Z) : db deleted :=
  try_except
    (get_todo_or_raise todo_id (Some user_id) ;;;
     result <- execute_delete_todo todo_id user_id ;;
     if result =? 0 then raise (TodoNotFoundError todo_id)
     else ret (deleted_successfully todo_id))
    (fun e =>
       if is_TodoNotFoundError e then raise e
       else raise (DatabaseError "Failed to delete TODO: " e)).

End crud_todos.

(** ** app/core/security.py *)

Module security.
Import exceptions.

(** passlib's [CryptContext]: the two methods the code calls. *)
Record CryptContext : Type :=
  { hash : string -> string;
    verify : string -> string -> bool }.

Definition SECRET_KEY : string := "your-secret-key-change-in-production".
Definition ALGORITHM : string := "HS256".
Definition ACCESS_TOKEN_EXPIRE_MINUTES : Z := 30.

(** [timedelta(minutes=m)], in seconds.  Clock readings are whole
    seconds, the resolution of the [exp] claim of a token. *)
Definition timedelta_minutes (m : Z) : Z := m * 60.

(** A claim value: a string, or an instant. *)
Inductive value : Type :=
| Str (s : string)
| Instant (t : Z).

(** A Python [dict] with string keys, in insertion order. *)
Definition dict : Type := list (string * value).

Fixpoint get (d : dict) (k : string) : option value :=
  match d with
  | [] => None
  | (k', v) :: d' => if String.eqb k' k then Some v else get d' k
  end.

(** [d.update({k: v})] *)
Fixpoint update (d : dict) (k : string) (v : value) : dict :=
  match d with
  | [] => [(k, v)]
  | (k', v') :: d' =>
      if String.eqb k' k then (k', v) :: d' else (k', v') :: update d' k v
  end.

(** A bearer token as python-jose sees it: either text that does not
    parse, or claims signed with some key under some algorithm. *)
Inductive token : Type :=
| malformed (text : string)
| signed (claims : dict) (key algorithm : string).

(** [jwt.encode(claims, key, algorithm=..)] *)
Definition jwt_encode (claims : dict) (key algorithm : string) : token :=
  signed claims key algorithm.

(** [jwt.decode(token, key, algorithms=[..])] at clock reading [now]:
    the signature must be the key's, the algorithm an accepted one, and
    an [exp] claim must not lie in the past. *)
Definition jwt_decode (tok : token) (key : string)
           (algorithms : list string) (now : Z) : exn + dict :=
  match tok with
  | malformed _ => inl JWTError
  | signed claims k alg =>
      if negb (String.eqb k key) then inl JWTError
      else if negb (existsb (String.eqb alg) algorithms) then inl JWTError
      else match get claims "exp" with
           | Some (Instant exp) => if exp <? now then inl JWTError else inr claims
           | Some (Str _) => inl JWTError
           | None => inr claims
           end
  end.

(** [bool(expires_delta)] for [Union[timedelta, None]]: [None] and the
    zero duration are falsy. *)
Definition truthy_delta (expires_delta : option Z) : bool :=
  match expires_delta with
  | Some d => negb (d =? 0)
  | None => false
  end.

(** [create_access_token(data, expires_delta)] when [datetime.utcnow()]
    reads [utcnow]. *)
Definition create_access_token (utcnow : Z) (data : dict)
           (expires_delta : option Z) : token :=
  let to_encode := data in
  let expire :=
    if truthy_delta expires_delta then
      utcnow + match expires_delta with Some d => d | None => 0 end
    else utcnow + timedelta_minutes 15 in
  let to_encode := update to_encode "exp" (Instant expire) in
  jwt_encode to_encode SECRET_KEY ALGORITHM.

Definition unauthorized : exn :=
  HTTPException 401 "Invalid authentication credentials".

(** [verify_token(token)] at clock reading [now]. *)
Definition verify_token (now : Z) (tok : token) : exn + dict :=
  match jwt_decode tok SECRET_KEY [ALGORITHM] now with
  | inr payload =>
      match get payload "sub" with
      | None => inl unauthorized
      | Some _ => inr payload
      end
  | inl e => if is_JWTError e then inl unauthorized else inl e
  end.

Section Passwords.
Variable pwd_context : CryptContext.

Definition verify_password (plain_password hashed_password : string)
  : bool :=
  verify pwd_context plain_password hashed_password.

Definition get_password_hash (password : string) : string :=
  hash pwd_context password.
End Passwords.

End security.

(** ** app/models/user.py *)

Module user.

(** Modelled from the spec: app/models/user.py is not among the sources.
    The registration body carries a username, an email and a password
    (section 6 of the spec), which are the three attributes [create_user]
    reads. *)
Module UserCreate.
Record t : Type :=
  mk { username : string; email : string; password : string }.
End UserCreate.

(** Modelled from the spec: app/models/user.py is not among the sources.
    The login body carries a username and a password. *)
Module UserLogin.
Record t : Type := mk { username : string; password : string }.
End UserLogin.

(** Modelled from the spec: app/models/user.py is not among the sources.
    A user as returned to callers: the five keyword arguments the code
    builds it from, never the password hash. *)
Module UserResponse.
Record t : Type :=
  mk { id : Z;
       username : string;
       email : string;
       is_active : bool;
       created_at : Z }.
End UserResponse.

End user.

(** ** app/crud/users.py *)

Module crud_users.
Import exceptions database user.
Local Open Scope db_scope.

Section Passwords.
Variable pwd_context : security.CryptContext.

(** [UserResponse( **row )] *)
Definition UserResponse_of (row : option User.row) : db UserResponse.t :=
  match row with
  | Some r =>
      ret (UserResponse.mk (User.id r) (User.username r) (User.email r)
             (User.is_active r) (User.created_at r))
  | None => raise TypeError
  end.

Definition create_user (user : UserCreate.t) : db UserResponse.t :=
  try_except
    (existing_user <- fetchrow_user_by_username_or_email
                        (UserCreate.username user) (UserCreate.email user) ;;
     match existing_user with
     | Some (existing_username, _) =>
         if String.eqb existing_username (UserCreate.username user) then
           raise (UserAlreadyExistsError "username" (UserCreate.username user))
         else
           raise (UserAlreadyExistsError "email" (UserCreate.email user))
     | None =>
         let hashed_password :=
           security.get_password_hash pwd_context (UserCreate.password user) in
         row <- insert_user_returning (UserCreate.username user)
                  (UserCreate.email user) hashed_password ;;
         UserResponse_of row
     end)
    (fun e =>
       if is_UserAlreadyExistsError e then raise e
       else raise (DatabaseError "Failed to create user: " e)).

Definition get_user_by_username (username : string)
  : db (option User.row) :=
  try_except
    (row <- fetchrow_active_user_by_username username ;;
     ret row)
    (fun e => raise (DatabaseError "Failed to fetch user: " e)).

Definition authenticate_user (username password : string)
  : db (option UserResponse.t) :=
  user_data <- get_user_by_username username ;;
  match user_data with
  | None => ret None
  | Some user_data =>
      if negb (security.verify_password pwd_context password
                 (User.hashed_password user_data)) then ret None
      else
        ret (Some (UserResponse.mk (User.id user_data)
                     (User.username user_data) (User.email user_data)
                     (User.is_active user_data) (User.created_at user_data)))
  end.
Definition get_user_by_id (user_id : Z) : db (option UserResponse.t) :=
  try_except
    (row <- fetchrow_active_user_by_id user_id ;;
     match row with
     | Some _ => r <- UserResponse_of row ;; ret (Some r)
     | None => ret None
     end)
    (fun e => raise (DatabaseError "Failed to fetch user: " e)).
End Passwords.

End crud_users.

(** ** app/routes/auth.py *)

Module routes_auth.
Import exceptions database user.
Local Open Scope db_scope.

(** The body of a successful login. *)
Record Token : Type :=
  mkToken { access_token : security.token; token_type : string }.

Section Passwords.
Variable pwd_context : security.CryptContext.

Definition register_user (user : UserCreate.t) : db UserResponse.t :=
  try_except
    (crud_users.create_user pwd_context user)
    (fun e =>
       match e with
       | UserAlreadyExistsError field _ =>
           raise (HTTPException 409
                    ("User with this " ++ field ++ " already exists"))
       | _ => raise e
       end).

(** [login_user(user_credentials)] when [datetime.utcnow()] reads
    [utcnow]. *)
Definition login_user (utcnow : Z) (user_credentials : UserLogin.t)
  : db Token :=
  user <- crud_users.authenticate_user pwd_context
            (UserLogin.username user_credentials)
            (UserLogin.password user_credentials) ;;
  match user with
  | None => raise (HTTPException 401 "Incorrect username or password")
  | Some user =>
      let access_token_expires :=
        security.timedelta_minutes security.ACCESS_TOKEN_EXPIRE_MINUTES in
      let access_token :=
        security.create_access_token utcnow
          [("sub", security.Str (UserResponse.username user))]
          (Some access_token_expires) in
      ret (mkToken access_token "bearer")
  end.
End Passwords.

End routes_auth.

(** ** Python floats: true division and [round] *)

Module pyfloat.
Import exceptions.

(** [float(z)] for an integer below 2^53 in magnitude, where the
    conversion is exact. *)
Definition of_int (z : Z) : float :=
  match z with
  | Z0 => PrimFloat.zero
  | Zpos _ => PrimFloat.of_uint63 (Uint63.of_Z z)
  | Zneg p => PrimFloat.opp (PrimFloat.of_uint63 (Uint63.of_Z (Zpos p)))
  end.

(** [a / b] on integers *)
Definition truediv (a b : Z) : exn + float :=
  if b =? 0 then inl ZeroDivisionError
  else inr (PrimFloat.div (of_int a) (of_int b)).

(** [num / den] rounded to the nearest integer, ties to even
    ([den] positive). *)
Definition div_half_even (num den : Z) : Z :=
  let q := num / den in
  let r := num mod den in
  if 2 * r <? den then q
  else if den <? 2 * r then q + 1
  else if Z.even q then q else q + 1.

(** The integer nearest to [x * 10^ndigits], from the exact binary
    value of [x], ties to even. *)
Definition scaled (x : float) (ndigits : Z) : option Z :=
  match Prim2SF x with
  | S754_zero _ => Some 0
  | S754_finite s m e =>
      let num := Zpos m * 10 ^ ndigits in
      let n := if 0 <=? e then num * 2 ^ e
               else div_half_even num (2 ^ (- e)) in
      Some (if s then - n else n)
  | S754_infinity _ => None
  | S754_nan => None
  end.

(** [round(x, ndigits)] on a float, for small [ndigits >= 0]: the
    double nearest to the correctly rounded decimal. *)
Definition round (x : float) (ndigits : Z) : float :=
  match scaled x ndigits with
  | Some n => PrimFloat.div (of_int n) (of_int (10 ^ ndigits))
  | None => x
  end.

End pyfloat.

(** ** app/routes/todos.py *)

Module routes_todos.
Import exceptions database schemas user.
Local Open Scope db_scope.

Definition lift {A : Type} (r : exn + A) : db A :=
  match r with inl e => raise e | inr a => ret a end.

(** [Query(default, ge=.., le=..)] on an integer parameter of the request;
    a parameter left out takes the default, which is not checked. *)
Definition Query (default : Z) (ge : option Z) (le : option Z)
           (v : option Z) : checked Z :=
  match v with
  | None => inr default
  | Some v =>
      match ge with
      | Some lo => if v <? lo then inl (greater_than_equal lo) else
          match le with
          | Some hi => if hi <? v then inl (less_than_equal hi) else inr v
          | None => inr v
          end
      | None =>
          match le with
          | Some hi => if hi <? v then inl (less_than_equal hi) else inr v
          | None => inr v
          end
      end
  end.

Definition get_todos (completed : option bool) (search : option string)
           (page page_size : option Z) (current_user : UserResponse.t)
  : db TodosWithPagination.t :=
  match collect2 "page" "page_size"
          (Query 1 (Some 1) None page)
          (Query 10 (Some 1) (Some 100) page_size) pair with
  | inl errors => raise (RequestValidationError errors)
  | inr (page, page_size) =>
      crud_todos.list_todos (UserResponse.id current_user) completed search
        page page_size
  end.

Definition get_todo_stats (current_user : UserResponse.t) : db TodoStats.t :=
  stats <- fetchrow_stats (UserResponse.id current_user) ;;
  let total := crud_todos.or_0 (total_todos stats) in
  let completed := crud_todos.or_0 (completed_todos stats) in
  let pending := crud_todos.or_0 (pending_todos stats) in
  completion_rate <-
    (if 0 <? total then
       q <- lift (pyfloat.truediv completed total) ;;
       ret (PrimFloat.mul q (pyfloat.of_int 100))
     else ret (pyfloat.of_int 0)) ;;
  ret (TodoStats.mk total completed pending (pyfloat.round completion_rate 2)).

Definition get_todo (todo_id : Z) (current_user : UserResponse.t)
  : db TodoResponse.t :=
  crud_todos.get_todo todo_id (UserResponse.id current_user).

Definition create_todo (todo : TodoCreate.t) (current_user : UserResponse.t)
  : db TodoResponse.t :=
  crud_todos.create_todo todo (UserResponse.id current_user).

Definition replace_todo (todo_id : Z) (todo_put : TodoPut.t)
           (current_user : UserResponse.t) : db TodoResponse.t :=
  crud_todos.replace_todo todo_id todo_put (UserResponse.id current_user).

Definition update_todo (todo_id : Z) (todo_update : TodoPatch.t)
           (current_user : UserResponse.t) : db TodoResponse.t :=
  crud_todos.update_todo todo_id todo_update (UserResponse.id current_user).

Definition delete_todo (todo_id : Z) (current_user : UserResponse.t)
  : db crud_todos.deleted :=
  crud_todos.delete_todo todo_id (UserResponse.id current_user).

Definition toggle_todo_completion (todo_id : Z)
           (current_user : UserResponse.t) : db TodoResponse.t :=
  current_todo <- crud_todos.get_todo todo_id (UserResponse.id current_user) ;;
  match TodoPatch.new None None
          (Some (negb (TodoResponse.completed current_todo))) with
  | inr patch =>
      crud_todos.update_todo todo_id patch (UserResponse.id current_user)
  | inl errors => raise (RequestValidationError errors)
  end.

End routes_todos.

(** ** app/core/auth.py *)

Module core_auth.
Import exceptions database user.
Local Open Scope db_scope.

(** [get_current_user(credentials)] at clock reading [now];
  [credentials.credentials] is the bearer token.  A subject that is not
  a string is no valid argument for the query of
  [get_user_by_username]. *)
Definition get_current_user (now : Z) (credentials : security.token)
: db UserResponse.t :=
match security.verify_token now credentials with
| inl e => raise e
| inr payload =>
    match security.get payload "sub" with
    | None => raise (HTTPException 401 "Invalid authentication credentials")
    | Some (security.Str username) =>
        user <- crud_users.get_user_by_username username ;;
        match user with
        | None => raise (HTTPException 401 "User not found")
        | Some user =>
            ret (UserResponse.mk (User.id user) (User.username user)
                   (User.email user) (User.is_active user)
                   (User.created_at user))
        end
    | Some (security.Instant _) =>
        raise (DatabaseError "Failed to fetch user: "
                 (PostgresError "invalid input for query argument $1"))
    end
end.

Definition get_active_user (current_user : UserResponse.t)
: db UserResponse.t :=
if negb (UserResponse.is_active current_user) then
  raise (HTTPException 400 "Inactive user")
else ret current_user.

(** [Depends(get_active_user)]: the dependency chain a protected route
  runs before its body. *)
Definition Depends_get_active_user (now : Z) (credentials : security.token)
: db UserResponse.t :=
current_user <- get_current_user now credentials ;;
get_active_user current_user.

End core_auth.

(** ** app/utils/retry.py *)

Module retry.
Import exceptions.

Section WithRetry.
(** The world the coroutine acts on, and what it returns. *)
Variables World A : Type.

(** [asyncio.sleep(delay)] *)
Variable sleep : float -> World -> World.

(** [for attempt in range(attempt, attempt + n)]: the body of
[with_retry].  A loop that runs out falls off the end of the function,
which then returns [None]. *)
Fixpoint attempts (func : World -> (exn + A) * World) (retries : Z)
     (delay : float) (n : nat) (attempt : Z) (w : World)
  : (exn + option A) * World :=
  match n with
  | O => (inr None, w)
  | S n' =>
  match func w with
  | (inr a, w') => (inr (Some a), w')
  | (inl e, w') =>
      if attempt <? retries then
        attempts func retries delay n' (attempt + 1) (sleep delay w')
      else (inl e, w')
  end
  end.

(** [with_retry(func, retries, delay)]; [range(1, retries + 1)] has
[retries] elements, none when [retries] is not positive. *)
Definition with_retry (func : World -> (exn + A) * World) (retries : Z)
       (delay : float) (w : World) : (exn + option A) * World :=
  attempts func retries delay (Z.to_nat retries) 1 w.
End WithRetry.

End retry.

(** ** app/database/migrate.py *)

Module migrate.
Import exceptions.

(** What [MigrationManager] works on: the [migrations] table (its
  filenames in id order, or [None] before the table exists), the rest of
  the database, which the scripts act on, and the files of the
  migrations directory with their text. *)
Record world (D : Type) : Type :=
mkworld { migrations : option (list string);
          data : D;
          migrations_dir : list (string * string) }.
Arguments mkworld {D}.
Arguments migrations {D}.
Arguments data {D}.
Arguments migrations_dir {D}.

Section Manager.
Variable D : Type.

(** [conn.execute(sql_content)] on the rest of the database. *)
Variable execute : string -> D -> exn + D.

Definition mg (A : Type) : Type := world D -> (exn + A) * world D.

Definition ret {A : Type} (a : A) : mg A := fun w => (inr a, w).

Definition bind {A B : Type} (m : mg A) (k : A -> mg B) : mg B :=
  fun w =>
match m w with
| (inr a, w') => k a w'
| (inl e, w') => (inl e, w')
end.

Definition raise {A : Type} (e : exn) : mg A := fun w => (inl e, w).

(** [CREATE TABLE IF NOT EXISTS migrations (...)] *)
Definition create_migrations_table : mg unit :=
  fun w =>
match migrations w with
| Some _ => (inr tt, w)
| None => (inr tt, mkworld (Some []) (data w) (migrations_dir w))
end.

(** [SELECT filename FROM migrations ORDER BY id] *)
Definition get_executed_migrations : mg (list string) :=
  fun w =>
match migrations w with
| Some rows => (inr rows, w)
| None => (inl (PostgresError "relation does not exist"), w)
end.

(** [name.endswith(suffix)] *)
Fixpoint endswith (name suffix : string) : bool :=
  String.eqb name suffix
  || match name with
 | EmptyString => false
 | String _ rest => endswith rest suffix
 end.

(** [sorted(paths)], for paths of one directory: by name. *)
Fixpoint insert_sorted (f : string * string) (l : list (string * string))
  : list (string * string) :=
  match l with
  | [] => [f]
  | g :: l' =>
  if String.leb (fst f) (fst g) then f :: l else g :: insert_sorted f l'
  end.

Definition sorted (l : list (string * string)) : list (string * string) :=
  fold_right insert_sorted [] l.

(** [sorted(self.migrations_dir.glob("*.sql"))] *)
Definition glob_sql (w : world D) : list (string * string) :=
  sorted (filter (fun f => endswith (fst f) ".sql") (migrations_dir w)).

(** [name in executed] *)
Definition name_in (name : string) (executed : list string) : bool :=
  existsb (String.eqb name) executed.

Definition get_pending_migrations : mg (list (string * string)) :=
  bind get_executed_migrations (fun executed =>
  fun w =>
let all_migrations := glob_sql w in
(inr (filter (fun migration_file =>
                negb (name_in (fst migration_file) executed))
             all_migrations), w)).

(** [INSERT INTO migrations (filename) VALUES ($1)]; [filename] is
UNIQUE. *)
Definition insert_migration (filename : string) : mg unit :=
  fun w =>
match migrations w with
| None => (inl (PostgresError "relation does not exist"), w)
| Some rows =>
    if name_in filename rows then
      (inl (PostgresError "duplicate key value violates unique constraint"), w)
    else
      (inr tt, mkworld (Some (rows ++ [filename])%list) (data w)
                       (migrations_dir w))
end.

Definition run_migration (migration_file : string * string) : mg unit :=
  let sql_content := snd migration_file in
  bind (fun w =>
      match execute sql_content (data w) with
      | inl e => (inl e, w)
      | inr d => (inr tt, mkworld (migrations w) d (migrations_dir w))
      end)
   (fun _ => insert_migration (fst migration_file)).

(** [for migration_file in pending_migrations: await run_migration(..)] *)
Fixpoint run_each (pending_migrations : list (string * string)) : mg unit :=
  match pending_migrations with
  | [] => ret tt
  | migration_file :: rest =>
  bind (run_migration migration_file) (fun _ => run_each rest)
  end.

(** [MigrationManager.migrate()]; the handler prints and raises again. *)
Definition migrate : mg unit :=
  bind create_migrations_table (fun _ =>
  bind get_pending_migrations (fun pending_migrations =>
  match pending_migrations with
  | [] => ret tt
  | _ :: _ => run_each pending_migrations
  end)).

(** [MigrationManager.status()]: the two lists it prints. *)
Definition status : mg (list string * list string) :=
  bind create_migrations_table (fun _ =>
  bind get_executed_migrations (fun executed =>
  bind get_pending_migrations (fun pending =>
  ret (executed, map fst pending)))).
End Manager.

End migrate.

(** * Vocabulary of the properties *)

Import exceptions database schemas user.

(** [seen v t c]: the connection [c] after it received one more statement
    that changed no table. *)
Definition seen (v : verb) (table : string) (c : conn) : conn :=
  mkconn (todos c) (users c) (todos_id_seq c) (users_id_seq c) (clock c)
         (statements c ++ [(v, table)]).

(** [with_todos l c]: the connection [c] with the rows of [todos] replaced. *)
Definition with_todos (l : list Todo.row) (c : conn) : conn :=
  mkconn l (users c) (todos_id_seq c) (users_id_seq c) (clock c)
         (statements c).

(** A statement that writes. *)
Definition is_write (s : verb * string) : bool :=
  match fst s with
  | SELECT => false
  | INSERT | UPDATE | DELETE => true
  end.

(** The row a response was built from. *)
Definition response (r : Todo.row) : TodoResponse.t :=
  TodoResponse.mk (Todo.id r) (Todo.title r) (Todo.description r)
                  (Todo.completed r) (Todo.created_at r) (Todo.user_id r).

(** No row of [todos] has id [todo_id] and owner [user_id]. *)
Definition no_match (c : conn) (todo_id user_id : Z) : Prop :=
  forall r, In r (todos c) -> where_id_and_user todo_id user_id r = false.

(** The table [todos] without any row of id [todo_id]. *)
Definition without (todo_id : Z) (c : conn) : conn :=
  with_todos (filter (fun r => negb (Todo.id r =? todo_id)) (todos c)) c.

(** Every row of id [todo_id] belongs to somebody other than [user_id]. *)
Definition owned_by_others (c : conn) (todo_id user_id : Z) : Prop :=
  forall r, In r (todos c) -> Todo.id r = todo_id -> user_id_eq user_id r = false.

(** The primary key of [todos]. *)
Definition todos_pkey (c : conn) : Prop := NoDup (map Todo.id (todos c)).

(** The last character of a pattern is no whitespace. *)
Fixpoint last_solid (p : string) : bool :=
  match p with
  | EmptyString => false
  | String a EmptyString => negb (pystr.is_space a)
  | String _ r => last_solid r
  end.

(** What the validation rules refuse in a title as received. *)
Definition bad_title (v : string) : Prop :=
  pystr.strip v = ""
  \/ pystr.contains "<" v = true
  \/ pystr.contains ">" v = true
  \/ 200 < pystr.len v.

(** What the validation rules refuse in a description as received. *)
Definition bad_description (v : string) : Prop :=
  pystr.contains "<script" (pystr.lower v) = true
  \/ pystr.contains "</script>" (pystr.lower v) = true
  \/ 1000 < pystr.len v.

(** The description kept for a description as received: trimmed, and
    absent when nothing is left. *)
Definition stored_description (v : option string) : option string :=
  match v with
  | Some s => if pystr.truthy (pystr.strip s) then Some (pystr.strip s) else None
  | None => None
  end.

(** A row after a PATCH: a field present in the patch is taken from it,
    any other field is the row's own. *)
Definition patched (patch : TodoPatch.t) (r : Todo.row) : Todo.row :=
  Todo.mk (Todo.id r)
          (match TodoPatch.title patch with
           | Some t => t
           | None => Todo.title r
           end)
          (match TodoPatch.description patch with
           | Some d => Some d
           | None => Todo.description r
           end)
          (match TodoPatch.completed patch with
           | Some b => b
           | None => Todo.completed r
           end)
          (Todo.created_at r) (Todo.user_id r).

(** The patch names no field. *)
Definition no_field (patch : TodoPatch.t) : bool :=
  match TodoPatch.title patch, TodoPatch.description patch,
        TodoPatch.completed patch with
  | None, None, None => true
  | _, _, _ => false
  end.

(** The rows of [todos] after [f] was applied to the rows of id [todo_id]
    and owner [user_id]. *)
Definition update_where (todo_id user_id : Z) (f : Todo.row -> Todo.row)
           (l : list Todo.row) : list Todo.row :=
  map (fun r => if where_id_and_user todo_id user_id r then f r else r) l.

(** A row with its [completed] flag set. *)
Definition with_completed (b : bool) (r : Todo.row) : Todo.row :=
  Todo.mk (Todo.id r) (Todo.title r) (Todo.description r) b
          (Todo.created_at r) (Todo.user_id r).

(** The patch [toggle_todo_completion] builds. *)
Definition completed_patch (b : bool) : TodoPatch.t :=
  TodoPatch.mk None None (Some b).

(** The rows [list_todos] is asked for: those of the owner that pass the
    filters that are present. *)
Definition row_matches (user_id : Z) (completed : option bool)
           (search : option string) (r : Todo.row) : bool :=
  user_id_eq user_id r
  && match completed with
     | Some b => Bool.eqb (Todo.completed r) b
     | None => true
     end
  && match search with
     | Some s =>
         ilike (Todo.title r) ("%" ++ s ++ "%")
         || match Todo.description r with
            | Some d => ilike d ("%" ++ s ++ "%")
            | None => false
            end
     | None => true
     end.

(** The page of a listing: [page_size] rows from offset
    [(page - 1) * page_size] on. *)
Definition page_of (page page_size : Z) (l : list Todo.row) : list Todo.row :=
  firstn (Z.to_nat page_size) (skipn (Z.to_nat ((page - 1) * page_size)) l).

(** [n] is the quotient [a / b] rounded up. *)
Definition is_ceil_div (n a b : Z) : Prop := (n - 1) * b < a <= n * b.

(** The lookup of [get_user_by_username]. *)
Definition active_user (c : conn) (username : string) : option User.row :=
  find (fun r => String.eqb (User.username r) username
                 && Bool.eqb (User.is_active r) true) (users c).

(** Some user already has the requested username. *)
Definition username_taken (c : conn) (user : UserCreate.t) : Prop :=
  exists r, In r (users c) /\ User.username r = UserCreate.username user.

(** Some user already has the requested email. *)
Definition email_taken (c : conn) (user : UserCreate.t) : Prop :=
  exists r, In r (users c) /\ User.email r = UserCreate.email user.

(** The first row, in scan order, that has the requested username or the
    requested email. *)
Definition first_collision (c : conn) (user : UserCreate.t) : option User.row :=
  find (fun r => String.eqb (User.username r) (UserCreate.username user)
                 || String.eqb (User.email r) (UserCreate.email user)) (users c).

(** The uniqueness constraints of [users]. *)
Definition users_unique (c : conn) : Prop :=
  NoDup (map User.username (users c)) /\ NoDup (map User.email (users c)).

(** The [exp] claim of a token. *)
Definition expiry (tok : security.token) : option Z :=
  match tok with
  | security.signed claims _ _ =>
      match security.get claims "exp" with
      | Some (security.Instant t) => Some t
      | _ => None
      end
  | security.malformed _ => None
  end.

(** The [sub] claim of a token. *)
Definition subject (tok : security.token) : option security.value :=
  match tok with
  | security.signed claims _ _ => security.get claims "sub"
  | security.malformed _ => None
  end.

(** The float [completed / total * 100] of [get_todo_stats]. *)
Definition percentage (completed total : Z) : float :=
  PrimFloat.mul (PrimFloat.div (pyfloat.of_int completed) (pyfloat.of_int total))
                (pyfloat.of_int 100).

(** [n] hundredths is a nearest two-decimal value of the exact percentage
    [100 * completed / total]. *)
Definition nearest_hundredths (n completed total : Z) : bool :=
  2 * Z.abs (n * total - 10000 * completed) <=? total.

(** The rounding of [get_todo_stats] lands on nearest hundredths. *)
Definition rounds_well (completed total : Z) : bool :=
  match pyfloat.scaled (percentage completed total) 2 with
  | Some n => nearest_hundredths n completed total
  | None => false
  end.

(** [rounds_well] for every total from 1 to [bound] and every completed
    count up to the total. *)
Definition rounds_well_upto (bound : nat) : bool :=
  forallb (fun t => forallb (fun k => rounds_well (Z.of_nat k) (Z.of_nat t))
                            (seq 0 (S t)))
          (seq 1 bound).

(** Unfolds one layer of the monad. *)
Ltac run := unfold bind, ret, raise, read, sent, try_except, set_todos; simpl.

(** ** Sample data *)

(** Two users. *)
Definition alice : User.row :=
  User.mk 1 "alice" "alice@example.org" "h(pw-a)" true 100.

Definition bob : User.row :=
  User.mk 2 "bob" "bob@example.org" "h(pw-b)" true 101.

(** Bob as the caller of a route. *)
Definition bob_response : UserResponse.t :=
  UserResponse.mk 2 "bob" "bob@example.org" true 101.

(** Two todos of bob, the second with a description. *)
Definition bobs_todo : Todo.row :=
  Todo.mk 7 "water plants" None false 200 (Some 2).

Definition bobs_errand : Todo.row :=
  Todo.mk 8 "buy milk" (Some "two litres") false 210 (Some 2).

Definition c0 : conn := mkconn [bobs_todo] [alice; bob] 8 3 300 [].

Definition c1 : conn :=
  mkconn [bobs_todo; bobs_errand] [alice; bob] 9 3 300 [].

(** Three todos of bob, one of them completed, and one of alice. *)
Definition c3 : conn :=
  mkconn [Todo.mk 1 "a" None true 10 (Some 2);
          Todo.mk 2 "b" None false 11 (Some 2);
          Todo.mk 3 "c" None false 12 (Some 2);
          Todo.mk 4 "d" None true 13 (Some 1)]
         [alice; bob] 5 3 300 [].

(** Twenty-five todos of bob, ids and timestamps [1..25]. *)
Definition c25 : conn :=
  mkconn (map (fun n => Todo.mk (Z.of_nat n) "t" None false (Z.of_nat n) (Some 2))
              (seq 1 25))
         [alice; bob] 26 3 300 [].

(** A registration whose username is bob's and whose email is alice's. *)
Definition mixed_registration : UserCreate.t :=
  UserCreate.mk "bob" "alice@example.org" "secret".

(** A password context for the examples: the hash wraps the password. *)
Definition toy_context : security.CryptContext :=
  {| security.hash := fun p => "h(" ++ p ++ ")";
     security.verify := fun p h => String.eqb ("h(" ++ p ++ ")") h |}.

(** ** Vocabulary of the further properties *)

(** The invariant of [todos]: ids are unique and below the sequence. *)
Definition todos_wf (c : conn) : Prop :=
  NoDup (map Todo.id (todos c))
  /\ Forall (fun r => Todo.id r < todos_id_seq c) (todos c).

(** The rows that do not belong to [user_id]. *)
Definition others (user_id : Z) (l : list Todo.row) : list Todo.row :=
  filter (fun r => negb (user_id_eq user_id r)) l.

(** Everything a connection can reach, apart from the statement log. *)
Definition tables (c : conn)
  : list Todo.row * list User.row * Z * Z * Z :=
  (todos c, users c, todos_id_seq c, users_id_seq c, clock c).

(** The writing statements a connection has received. *)
Definition writes (c : conn) : list (verb * string) :=
  filter is_write (statements c).

(** A row after a PUT: the three mutable fields are the body's. *)
Definition replaced (data : TodoPut.t) (r : Todo.row) : Todo.row :=
  Todo.mk (Todo.id r) (TodoPut.title data) (TodoPut.description data)
          (TodoPut.completed data) (Todo.created_at r) (Todo.user_id r).

(** Responses in the order of [ORDER BY created_at DESC]. *)
Definition newest_first (l : list TodoResponse.t) : Prop :=
  StronglySorted
    (fun a b => TodoResponse.created_at b <= TodoResponse.created_at a) l.

(** The items of one page of a listing; none when the call fails. *)
Definition page_items (c : conn) (user_id : Z) (completed : option bool)
           (search : option string) (page_size page : Z)
  : list TodoResponse.t :=
  match fst (crud_todos.list_todos user_id completed search page page_size c) with
  | inr result => TodosWithPagination.todos result
  | inl _ => []
  end.

(** The page numbers [1 .. n]. *)
Definition pages_upto (n : Z) : list Z := map Z.of_nat (seq 1 (Z.to_nat n)).

(** The row [create_user] inserts for a request. *)
Definition new_user_row (pwd_context : security.CryptContext) (c : conn)
           (user : UserCreate.t) : User.row :=
  User.mk (users_id_seq c) (UserCreate.username user) (UserCreate.email user)
          (security.hash pwd_context (UserCreate.password user))
          true (clock c).

(** A user row as returned to callers. *)
Definition user_response (r : User.row) : UserResponse.t :=
  UserResponse.mk (User.id r) (User.username r) (User.email r)
                  (User.is_active r) (User.created_at r).

(** The user ids are below the id sequence. *)
Definition users_ids_below_seq (c : conn) : Prop :=
  Forall (fun r => User.id r < users_id_seq c) (users c).

(** The world after [k] calls of [func] that all raised, each followed by
    the sleep; [None] if one of them returned. *)
Fixpoint after_failures {World A : Type} (sleep : float -> World -> World)
         (func : World -> (exn + A) * World) (delay : float)
         (k : nat) (w : World) : option World :=
  match k with
  | O => Some w
  | S k' =>
      match func w with
      | (inl _, w') => after_failures sleep func delay k' (sleep delay w')
      | (inr _, _) => None
      end
  end.

(** A coroutine for the examples: the world counts the calls and the
    seconds slept; the first two calls raise, the third returns 42. *)
Definition flaky (w : nat * nat) : (exn + Z) * (nat * nat) :=
  if (fst w <? 2)%nat then (inl (PostgresError "connection refused"), (S (fst w), snd w))
  else (inr 42, (S (fst w), snd w)).

Definition count_sleep (delay : float) (w : nat * nat) : nat * nat :=
  (fst w, S (snd w)).

(** Running scripts in order until one fails: the names of the scripts
    that ran, the database they leave, and the failure, if any. *)
Fixpoint apply_scripts {D : Type} (execute : string -> D -> exn + D)
         (files : list (string * string)) (d : D)
  : list string * D * option exn :=
  match files with
  | [] => ([], d, None)
  | f :: rest =>
      match execute (snd f) d with
      | inl e => ([], d, Some e)
      | inr d' =>
          let '(names, d'', failure) := apply_scripts execute rest d' in
          (fst f :: names, d'', failure)
      end
  end.

(** The rows of [migrations], an absent table counting as empty. *)
Definition executed_of {D : Type} (w : migrate.world D) : list string :=
  match migrate.migrations w with
  | Some rows => rows
  | None => []
  end.

(** The files [migrate] has to run: the scripts of the directory, by
    name, that are not recorded. *)
Definition pending_of {D : Type} (w : migrate.world D)
  : list (string * string) :=
  filter (fun f => negb (migrate.name_in (fst f) (executed_of w)))
         (migrate.glob_sql D w).

(** A database for the examples: the scripts that ran, in order; the
    script ["boom"] fails. *)
Definition run_script (sql : string) (d : list string) : exn + list string :=
  if String.eqb sql "boom" then inl (PostgresError "syntax error")
  else inr (d ++ [sql])%list.

Definition sample_dir : list (string * string) :=
  [("002_todos.sql", "create todos"); ("notes.txt", "ignore me");
   ("001_users.sql", "create users"); ("003_owner.sql", "boom")].

(** * Properties *)

(** ** Ownership: C1 *)

Lemma find_none_iff {A : Type} (p : A -> bool) (l : list A) :
  find p l = None <-> (forall x, In x l -> p x = false).
Proof.
  split.
  - apply find_none.
  - induction l as [|a l IH]; intros H; simpl; [reflexivity|].
    rewrite (H a (or_introl eq_refl)). apply IH.
    intros x Hx. apply H. right. exact Hx.
Qed.

Lemma get_todo_or_raise_run (c : conn) (todo_id user_id : Z) :
  crud_todos.get_todo_or_raise todo_id (Some user_id) c =
  (match find (where_id_and_user todo_id user_id) (todos c) with
   | Some r => inr r
   | None => inl (TodoNotFoundError todo_id)
   end, seen SELECT "todos" c).
Proof.
  unfold crud_todos.get_todo_or_raise, fetchrow_todo_by_id_and_user. run.
  destruct (find _ (todos c)); reflexivity.
Qed.

Section NotFound.
Variables (c : conn) (todo_id user_id : Z).
Hypothesis absent : no_match c todo_id user_id.

Lemma no_match_find : find (where_id_and_user todo_id user_id) (todos c) = None.
Proof. apply find_none_iff. exact absent. Qed.

Lemma get_todo_not_found :
  crud_todos.get_todo todo_id user_id c =
  (inl (TodoNotFoundError todo_id), seen SELECT "todos" c).
Proof.
  unfold crud_todos.get_todo, bind.
  rewrite get_todo_or_raise_run, no_match_find. reflexivity.
Qed.

Lemma update_todo_not_found (patch : TodoPatch.t) :
  crud_todos.update_todo todo_id patch user_id c =
  (inl (TodoNotFoundError todo_id), seen SELECT "todos" c).
Proof.
  unfold crud_todos.update_todo, try_except, bind.
  rewrite get_todo_or_raise_run, no_match_find. reflexivity.
Qed.

Lemma replace_todo_not_found (data : TodoPut.t) :
  crud_todos.replace_todo todo_id data user_id c =
  (inl (TodoNotFoundError todo_id), seen SELECT "todos" c).
Proof.
  unfold crud_todos.replace_todo, try_except, bind.
  rewrite get_todo_or_raise_run, no_match_find. reflexivity.
Qed.

Lemma delete_todo_not_found :
  crud_todos.delete_todo todo_id user_id c =
  (inl (TodoNotFoundError todo_id), seen SELECT "todos" c).
Proof.
  unfold crud_todos.delete_todo, try_except, bind.
  rewrite get_todo_or_raise_run, no_match_find. reflexivity.
Qed.
End NotFound.

Lemma owned_by_others_no_match (c : conn) (todo_id user_id : Z) :
  owned_by_others c todo_id user_id -> no_match c todo_id user_id.
Proof.
  intros H r Hr. unfold where_id_and_user.
  destruct (Z.eqb_spec (Todo.id r) todo_id) as [E|E]; [|reflexivity].
  simpl. apply H; assumption.
Qed.

Lemma without_no_match (c : conn) (todo_id user_id : Z) :
  no_match (without todo_id c) todo_id user_id.
Proof.
  intros r Hr. unfold without, with_todos in Hr. simpl in Hr.
  apply filter_In in Hr. destruct Hr as [_ Hr].
  unfold where_id_and_user.
  destruct (Todo.id r =? todo_id); [discriminate|reflexivity].
Qed.



(** ** Strings *)

Section Strings.
Import pystr.

Lemma is_space_lower_char (c : ascii) : is_space (lower_char c) = is_space c.
Proof.
  destruct c as [[] [] [] [] [] [] [] []]; vm_compute; reflexivity.
Qed.

Lemma truthy_lower (s : string) : truthy (lower s) = truthy s.
Proof. destruct s; reflexivity. Qed.

Lemma lstrip_lower (s : string) : lstrip (lower s) = lower (lstrip s).
Proof.
  induction s as [|c r IH]; simpl; [reflexivity|].
  rewrite is_space_lower_char. destruct (is_space c); [exact IH|reflexivity].
Qed.

Lemma rstrip_lower (s : string) : rstrip (lower s) = lower (rstrip s).
Proof.
  induction s as [|c r IH]; simpl; [reflexivity|].
  rewrite is_space_lower_char, IH, truthy_lower.
  destruct (is_space c && negb (truthy (rstrip r))); reflexivity.
Qed.

Lemma strip_lower (s : string) : strip (lower s) = lower (strip s).
Proof. unfold strip. rewrite lstrip_lower, rstrip_lower. reflexivity. Qed.

Lemma all_space_lstrip (s : string) : all_space s = true -> lstrip s = "".
Proof.
  induction s as [|c r IH]; simpl; [reflexivity|].
  intros H. apply andb_true_iff in H. destruct H as [Hc Hr].
  rewrite Hc. apply IH, Hr.
Qed.

Lemma all_space_strip (s : string) : all_space s = true -> strip s = "".
Proof. intros H. unfold strip. rewrite (all_space_lstrip s H). reflexivity. Qed.

Lemma rstrip_empty (s : string) : rstrip s = "" -> all_space s = true.
Proof.
  induction s as [|c r IH]; simpl; [reflexivity|].
  destruct (is_space c) eqn:Hc; simpl.
  - destruct (rstrip r) eqn:Hr; simpl; [intros _; apply IH; reflexivity|discriminate].
  - discriminate.
Qed.

Lemma lstrip_all_space (s : string) : all_space (lstrip s) = true -> all_space s = true.
Proof.
  induction s as [|c r IH]; simpl; [reflexivity|].
  destruct (is_space c) eqn:Hc; simpl; [exact IH|].
  rewrite Hc. discriminate.
Qed.

Lemma strip_empty (s : string) : strip s = "" -> all_space s = true.
Proof. intros H. apply lstrip_all_space, rstrip_empty, H. Qed.

(** The first and the last character of a pattern are no whitespace. *)
Lemma first_solid_lstrip (a : ascii) (p s : string) :
  is_space a = false ->
  contains (String a p) (lstrip s) = contains (String a p) s.
Proof.
  intros Ha. induction s as [|c r IH]; [reflexivity|].
  simpl lstrip. destruct (is_space c) eqn:Hc; [|reflexivity].
  rewrite IH. simpl.
  destruct (Ascii.eqb_spec a c) as [E|E]; [congruence|reflexivity].
Qed.

Lemma startswith_rstrip (p s : string) :
  last_solid p = true -> startswith p (rstrip s) = startswith p s.
Proof.
  revert s. induction p as [|a p IH]; intros s Hp; [discriminate|].
  destruct s as [|c r]; [reflexivity|].
  simpl rstrip.
  destruct (is_space c && negb (truthy (rstrip r))) eqn:E.
  - apply andb_true_iff in E. destruct E as [Hc Hr].
    simpl. destruct p as [|b p].
    + simpl in Hp. destruct (Ascii.eqb_spec a c) as [E|E]; [|reflexivity].
      subst c. rewrite Hc in Hp. discriminate.
    + rewrite <- (IH r Hp).
      destruct (rstrip r); [|discriminate].
      simpl. rewrite andb_false_r. reflexivity.
  - destruct p as [|b p].
    + simpl. reflexivity.
    + change (Ascii.eqb a c && startswith (String b p) (rstrip r)
              = Ascii.eqb a c && startswith (String b p) r).
      rewrite (IH r Hp). reflexivity.
Qed.

Lemma all_space_rstrip (s : string) : all_space s = true -> rstrip s = "".
Proof.
  induction s as [|c r IH]; simpl; [reflexivity|].
  intros H. apply andb_true_iff in H. destruct H as [Hc Hr].
  rewrite Hc, (IH Hr). reflexivity.
Qed.

Lemma contains_all_space (p s : string) :
  last_solid p = true -> all_space s = true -> contains p s = false.
Proof.
  intros Hp. induction s as [|c r IH]; intros Hs.
  - destruct p; [discriminate|reflexivity].
  - simpl contains.
    rewrite <- (startswith_rstrip p (String c r) Hp).
    rewrite (all_space_rstrip _ Hs).
    simpl in Hs. apply andb_true_iff in Hs. destruct Hs as [_ Hr].
    rewrite (IH Hr). destruct p; [discriminate|reflexivity].
Qed.

Lemma last_solid_rstrip (p s : string) :
  last_solid p = true -> contains p (rstrip s) = contains p s.
Proof.
  intros Hp. induction s as [|c r IH]; [reflexivity|].
  simpl rstrip.
  destruct (is_space c && negb (truthy (rstrip r))) eqn:E.
  - apply andb_true_iff in E. destruct E as [Hc Hr].
    assert (Hs : all_space (String c r) = true).
    { simpl. rewrite Hc. simpl. apply rstrip_empty.
      destruct (rstrip r); [reflexivity|discriminate]. }
    rewrite (contains_all_space p _ Hp Hs).
    destruct p; [discriminate|reflexivity].
  - change (startswith p (String c (rstrip r)) || contains p (rstrip r)
            = startswith p (String c r) || contains p r).
    rewrite IH. f_equal.
    rewrite <- (startswith_rstrip p (String c r) Hp).
    simpl rstrip. rewrite E. reflexivity.
Qed.

(** Stripping keeps every occurrence of a pattern that neither starts nor
    ends with whitespace. *)
Lemma contains_strip (a : ascii) (p s : string) :
  is_space a = false -> last_solid (String a p) = true ->
  contains (String a p) (strip s) = contains (String a p) s.
Proof.
  intros Ha Hp. unfold strip.
  rewrite (last_solid_rstrip _ _ Hp). apply first_solid_lstrip, Ha.
Qed.

End Strings.

(** ** Validation: C7 *)

Section Validation.
Import pystr.

Lemma collect2_inr {A B C : Type} (na nb : string) (a : checked A)
      (b : checked B) (k : A -> B -> C) (r : C) :
  collect2 na nb a b k = inr r ->
  exists x y, a = inr x /\ b = inr y /\ r = k x y.
Proof.
  destruct a as [e|x], b as [e'|y]; simpl; try discriminate.
  intros H. injection H as <-. exists x, y. repeat split.
Qed.

Lemma collect2_inl_left {A B C : Type} (na nb : string) (e : field_error)
      (b : checked B) (k : A -> B -> C) :
  exists errors, collect2 na nb (inl e) b k = inl errors.
Proof. destruct b; simpl; eexists; reflexivity. Qed.

Lemma collect2_inl_right {A B C : Type} (na nb : string) (a : checked A)
      (e : field_error) (k : A -> B -> C) :
  exists errors, collect2 na nb a (inl e) k = inl errors.
Proof. destruct a; simpl; eexists; reflexivity. Qed.

Lemma validate_title_refuses (v : string) :
  strip v = "" \/ contains "<" v = true \/ contains ">" v = true ->
  exists e, TodoCreate.validate_title v = inl e.
Proof.
  intros H. unfold TodoCreate.validate_title.
  destruct (negb (truthy v) || isspace v) eqn:E; [eexists; reflexivity|].
  destruct H as [H|[H|H]].
  - apply strip_empty in H. unfold isspace in E. rewrite H in E.
    destruct v; discriminate.
  - rewrite contains_strip, H by reflexivity. eexists; reflexivity.
  - rewrite (contains_strip ">"%char), H, orb_true_r by reflexivity.
    eexists; reflexivity.
Qed.

Lemma field_title_refuses (v : string) :
  bad_title v -> exists e, TodoCreate.field_title v = inl e.
Proof.
  intros H. unfold TodoCreate.field_title, Field, and_then.
  destruct (len v <? 1); [eexists; reflexivity|].
  destruct (Z.ltb_spec 200 (len v)) as [L|L]; [eexists; reflexivity|].
  apply validate_title_refuses.
  destruct H as [H|[H|[H|H]]]; auto. lia.
Qed.

Lemma field_title_keeps (v w : string) :
  TodoCreate.field_title v = inr w -> w = strip v.
Proof.
  unfold TodoCreate.field_title, Field, and_then, TodoCreate.validate_title.
  destruct (len v <? 1); [discriminate|].
  destruct (200 <? len v); [discriminate|].
  destruct (negb (truthy v) || isspace v); [discriminate|].
  destruct (contains "<" (strip v) || contains ">" (strip v)); [discriminate|].
  intros H. injection H as <-. reflexivity.
Qed.

Lemma validate_description_refuses (v : string) :
  contains "<script" (lower v) = true \/ contains "</script>" (lower v) = true ->
  exists e, TodoCreate.validate_description (Some v) = inl e.
Proof.
  intros H. unfold TodoCreate.validate_description.
  assert (G : contains "<script" (lower (strip v))
              || contains "</script>" (lower (strip v)) = true).
  { rewrite <- strip_lower.
    destruct H as [H|H].
    - rewrite contains_strip, H by reflexivity. reflexivity.
    - rewrite (contains_strip "<"%char "/script>"), H, orb_true_r by reflexivity.
      reflexivity. }
  rewrite G.
  destruct (truthy (strip v)) eqn:T; simpl; [eexists; reflexivity|].
  destruct (strip v); [|discriminate]. discriminate.
Qed.

Lemma field_description_refuses (v : string) :
  bad_description v -> exists e, TodoCreate.field_description (Some v) = inl e.
Proof.
  intros H. unfold TodoCreate.field_description, Field, and_then.
  destruct (Z.ltb_spec 1000 (len v)) as [L|L]; [eexists; reflexivity|].
  apply validate_description_refuses.
  destruct H as [H|[H|H]]; auto. lia.
Qed.

Lemma field_description_keeps (v o : option string) :
  TodoCreate.field_description v = inr o -> o = stored_description v.
Proof.
  destruct v as [s|]; simpl.
  - unfold Field, and_then, TodoCreate.validate_description.
    destruct (1000 <? len s); [discriminate|].
    destruct (truthy (strip s)); simpl.
    + destruct (contains "<script" (lower (strip s))
                || contains "</script>" (lower (strip s))); [discriminate|].
      intros H. injection H as <-. reflexivity.
    + intros H. injection H as <-. reflexivity.
  - intros H. injection H as <-. reflexivity.
Qed.

(** The three models run the same field checks. *)
Lemma TodoPut_field_title : TodoPut.field_title = TodoCreate.field_title.
Proof. reflexivity. Qed.

Lemma TodoPut_field_description :
  TodoPut.field_description = TodoCreate.field_description.
Proof. reflexivity. Qed.

Lemma TodoPatch_field_description :
  TodoPatch.field_description = TodoCreate.field_description.
Proof. reflexivity. Qed.

Lemma TodoPatch_field_title (v : string) :
  TodoPatch.field_title (Some v) =
  match TodoCreate.field_title v with
  | inl e => inl e
  | inr w => inr (Some w)
  end.
Proof.
  unfold TodoPatch.field_title, TodoCreate.field_title, Field, and_then,
    TodoPatch.validate_title, TodoCreate.validate_title.
  destruct (len v <? 1); [reflexivity|].
  destruct (200 <? len v); [reflexivity|].
  destruct (negb (truthy v) || isspace v); [reflexivity|].
  destruct (contains "<" (strip v) || contains ">" (strip v)); reflexivity.
Qed.

End Validation.



(** ** Partial update and toggle: C8, C5, C10 *)

Lemma where_id_and_user_assign (i u : Z) (a : assignment) (r : Todo.row) :
  where_id_and_user i u (assign r a) = where_id_and_user i u r.
Proof. destruct a; reflexivity. Qed.

Lemma where_id_and_user_assign_all (i u : Z) (sets : list assignment) :
  forall r, where_id_and_user i u (assign_all sets r) = where_id_and_user i u r.
Proof.
  unfold assign_all. induction sets as [|a sets IH]; intros r; simpl.
  - reflexivity.
  - rewrite IH. apply where_id_and_user_assign.
Qed.

Lemma find_update (p : Todo.row -> bool) (f : Todo.row -> Todo.row)
      (l : list Todo.row) :
  (forall r, p (f r) = p r) ->
  find p (map (fun r => if p r then f r else r) l) = option_map f (find p l).
Proof.
  intros Hf. induction l as [|x l IH]; simpl; [reflexivity|].
  destruct (p x) eqn:E.
  - rewrite Hf, E. reflexivity.
  - rewrite E. exact IH.
Qed.

Lemma update_todo_returning_run (c : conn) (sets : list assignment)
      (f : Todo.row -> Todo.row) (todo_id user_id : Z) (existing : Todo.row) :
  (forall r, assign_all sets r = f r) ->
  find (where_id_and_user todo_id user_id) (todos c) = Some existing ->
  update_todo_returning sets todo_id user_id c =
  (inr (Some (f existing)),
   with_todos (update_where todo_id user_id f (todos c)) (seen UPDATE "todos" c)).
Proof.
  intros Hf Hfind. unfold update_todo_returning. run.
  assert (E : map (fun r => if where_id_and_user todo_id user_id r
                            then assign_all sets r else r) (todos c)
              = update_where todo_id user_id f (todos c)).
  { apply map_ext. intros r. rewrite Hf. reflexivity. }
  rewrite E. unfold update_where at 1.
  rewrite (find_update (where_id_and_user todo_id user_id)), Hfind.
  - reflexivity.
  - intros r. rewrite <- Hf. apply where_id_and_user_assign_all.
Qed.

Lemma patched_no_field (patch : TodoPatch.t) (r : Todo.row) :
  no_field patch = true -> patched patch r = r.
Proof.
  destruct patch as [[t|] [d|] [b|]]; simpl; intros H; try discriminate.
  destruct r; reflexivity.
Qed.

Lemma update_todo_run (c : conn) (todo_id user_id : Z) (patch : TodoPatch.t)
      (existing : Todo.row) :
  find (where_id_and_user todo_id user_id) (todos c) = Some existing ->
  crud_todos.update_todo todo_id patch user_id c =
  if no_field patch then
    (inr (response existing), seen SELECT "todos" c)
  else
    (inr (response (patched patch existing)),
     with_todos (update_where todo_id user_id (patched patch) (todos c))
                (seen UPDATE "todos" (seen SELECT "todos" c))).
Proof.
  intros Hfind.
  unfold crud_todos.update_todo, try_except, bind.
  rewrite get_todo_or_raise_run, Hfind.
  destruct patch as [[t|] [d|] [b|]];
    cbn [TodoPatch.title TodoPatch.description TodoPatch.completed app no_field];
    try reflexivity;
    match goal with
    | |- context [update_todo_returning ?sets _ _ _] =>
        match goal with
        | |- context [patched ?p existing] =>
            rewrite (update_todo_returning_run (seen SELECT "todos" c) sets
                       (patched p) todo_id user_id existing
                       (fun r => eq_refl) Hfind)
        end
    end; reflexivity.
Qed.

(** C8. On a todo of the caller, [update_todo] answers with the row in
    which exactly the fields present in the patch are replaced, and the
    table changes in the same way and nowhere else.  With no field in the
    patch the answer is the existing row, and the connection has received
    the SELECT that looked the row up and no statement that writes. *)
Theorem C8_update_changes_present_fields :
  forall (c : conn) (todo_id user_id : Z) (patch : TodoPatch.t)
         (existing : Todo.row),
    find (where_id_and_user todo_id user_id) (todos c) = Some existing ->
    fst (crud_todos.update_todo todo_id patch user_id c)
      = inr (response (patched patch existing))
    /\ todos (snd (crud_todos.update_todo todo_id patch user_id c))
      = update_where todo_id user_id (patched patch) (todos c)
    /\ (no_field patch = true ->
          crud_todos.update_todo todo_id patch user_id c
            = (inr (response existing), seen SELECT "todos" c)
          /\ filter is_write
               (statements (snd (crud_todos.update_todo todo_id patch user_id c)))
             = filter is_write (statements c)).
Proof.
  intros c todo_id user_id patch existing Hfind.
  rewrite (update_todo_run c todo_id user_id patch existing Hfind).
  destruct (no_field patch) eqn:E.
  - rewrite (patched_no_field patch existing E). simpl.
    split; [reflexivity|split].
    + unfold update_where. rewrite <- (map_id (todos c)) at 1.
      apply map_ext. intros r.
      rewrite (patched_no_field patch r E).
      destruct (where_id_and_user todo_id user_id r); reflexivity.
    + intros _. split; [reflexivity|].
      rewrite filter_app. simpl. apply app_nil_r.
  - simpl. split; [reflexivity|split; [reflexivity|discriminate]].
Qed.

Lemma C8_witness :
  fst (crud_todos.update_todo 7 (TodoPatch.mk (Some "water the plants") None None) 2 c0)
    = inr (response (Todo.mk 7 "water the plants" None false 200 (Some 2)))
  /\ crud_todos.update_todo 7 (TodoPatch.mk None None None) 2 c0
    = (inr (response bobs_todo), seen SELECT "todos" c0).
Proof.
  split.
  - exact (proj1 (C8_update_changes_present_fields c0 7 2
                    (TodoPatch.mk (Some "water the plants") None None)
                    bobs_todo eq_refl)).
  - exact (proj1 (proj2 (proj2 (C8_update_changes_present_fields c0 7 2
                                  (TodoPatch.mk None None None)
                                  bobs_todo eq_refl)) eq_refl)).
Defined.

Lemma toggle_run (c : conn) (todo_id : Z) (current_user : UserResponse.t)
      (existing : Todo.row) :
  find (where_id_and_user todo_id (UserResponse.id current_user)) (todos c)
    = Some existing ->
  routes_todos.toggle_todo_completion todo_id current_user c =
  crud_todos.update_todo todo_id
    (completed_patch (negb (Todo.completed existing)))
    (UserResponse.id current_user) (seen SELECT "todos" c).
Proof.
  intros Hfind.
  unfold routes_todos.toggle_todo_completion, crud_todos.get_todo, bind.
  rewrite get_todo_or_raise_run, Hfind. reflexivity.
Qed.

Lemma patched_completed (b : bool) (r : Todo.row) :
  patched (completed_patch b) r = with_completed b r.
Proof. reflexivity. Qed.

Lemma find_some_where (i u : Z) (l : list Todo.row) (r : Todo.row) :
  find (where_id_and_user i u) l = Some r ->
  In r l /\ Todo.id r = i /\ user_id_eq u r = true.
Proof.
  intros H. apply find_some in H. destruct H as [Hin Hp].
  unfold where_id_and_user in Hp. apply andb_true_iff in Hp.
  destruct Hp as [Hid Hu]. apply Z.eqb_eq in Hid. auto.
Qed.

(** Under the primary key, the row found is the only row of that id. *)
Lemma pkey_unique (l : list Todo.row) (r x : Todo.row) :
  NoDup (map Todo.id l) -> In r l -> In x l -> Todo.id x = Todo.id r -> x = r.
Proof.
  induction l as [|y l IH]; intros Hnd Hr Hx Hid; [contradiction|].
  simpl in Hnd. inversion Hnd as [|? ? Hnotin Hnd']; subst.
  destruct Hr as [->|Hr], Hx as [->|Hx].
  - reflexivity.
  - exfalso. apply Hnotin. rewrite <- Hid. apply in_map, Hx.
  - exfalso. apply Hnotin. rewrite Hid. apply in_map, Hr.
  - apply IH; assumption.
Qed.

Lemma with_completed_twice (b : bool) (r : Todo.row) :
  with_completed (Todo.completed r) (with_completed b r) = r.
Proof. destruct r; reflexivity. Qed.

Lemma toggle_twice_table (i u : Z) (l : list Todo.row) (existing : Todo.row) :
  NoDup (map Todo.id l) ->
  find (where_id_and_user i u) l = Some existing ->
  update_where i u (with_completed (Todo.completed existing))
    (update_where i u (with_completed (negb (Todo.completed existing))) l) = l.
Proof.
  intros Hnd Hfind. apply find_some_where in Hfind.
  destruct Hfind as (Hin & Hid & _).
  unfold update_where. rewrite map_map.
  rewrite <- (map_id l) at 2. apply map_ext_in. intros r Hr.
  destruct (where_id_and_user i u r) eqn:E.
  - change (where_id_and_user i u (with_completed (negb (Todo.completed existing)) r))
      with (where_id_and_user i u r).
    rewrite E.
    assert (r = existing) as ->.
    { apply (pkey_unique l); try assumption.
      unfold where_id_and_user in E. apply andb_true_iff in E.
      destruct E as [E _]. apply Z.eqb_eq in E. congruence. }
    apply with_completed_twice.
  - rewrite E. reflexivity.
Qed.

(** C5. On a todo of the caller, [toggle_todo_completion] reads the row
    and then runs [update_todo] with the patch whose only field is
    [completed], set to the negation of the value read; the answer and
    the stored row carry the flipped value, so a todo that was not
    completed comes back completed.  A second toggle answers with the
    original row, and under the primary key of [todos] the table is back
    to what it was. *)
Theorem C5_toggle_flips_completed :
  forall (c : conn) (todo_id : Z) (current_user : UserResponse.t)
         (existing : Todo.row),
    let user_id := UserResponse.id current_user in
    let once := routes_todos.toggle_todo_completion todo_id current_user c in
    let twice :=
      routes_todos.toggle_todo_completion todo_id current_user (snd once) in
    find (where_id_and_user todo_id user_id) (todos c) = Some existing ->
    once = crud_todos.update_todo todo_id
             (completed_patch (negb (Todo.completed existing))) user_id
             (seen SELECT "todos" c)
    /\ fst once
       = inr (response (with_completed (negb (Todo.completed existing)) existing))
    /\ todos (snd once)
       = update_where todo_id user_id
           (with_completed (negb (Todo.completed existing))) (todos c)
    /\ (Todo.completed existing = false ->
        exists t, fst once = inr t /\ TodoResponse.completed t = true)
    /\ fst twice = inr (response existing)
    /\ (todos_pkey c -> todos (snd twice) = todos c).
Proof.
  intros c todo_id current_user existing user_id once twice Hfind.
  assert (Honce : once
                  = (inr (response (with_completed (negb (Todo.completed existing)) existing)),
                     with_todos
                       (update_where todo_id user_id
                          (with_completed (negb (Todo.completed existing))) (todos c))
                       (seen UPDATE "todos" (seen SELECT "todos" (seen SELECT "todos" c))))).
  { unfold once. rewrite (toggle_run c todo_id current_user existing Hfind).
    rewrite (update_todo_run (seen SELECT "todos" c) todo_id
               (UserResponse.id current_user) _ existing Hfind).
    reflexivity. }
  assert (Hfind' : find (where_id_and_user todo_id user_id) (todos (snd once))
                   = Some (with_completed (negb (Todo.completed existing)) existing)).
  { rewrite Honce. simpl. unfold update_where.
    rewrite (find_update (where_id_and_user todo_id user_id)), Hfind;
      [reflexivity|intros r; reflexivity]. }
  assert (Htwice : twice
                   = (inr (response existing),
                      with_todos
                        (update_where todo_id user_id
                           (with_completed (Todo.completed existing)) (todos (snd once)))
                        (seen UPDATE "todos" (seen SELECT "todos" (seen SELECT "todos" (snd once)))))).
  { unfold twice. rewrite (toggle_run (snd once) todo_id current_user _ Hfind').
    rewrite (update_todo_run (seen SELECT "todos" (snd once)) todo_id
               (UserResponse.id current_user) _ _ Hfind').
    change (Todo.completed (with_completed (negb (Todo.completed existing)) existing))
      with (negb (Todo.completed existing)).
    rewrite negb_involutive.
    change (no_field (completed_patch (Todo.completed existing))) with false.
    cbv iota. rewrite patched_completed, with_completed_twice.
    reflexivity. }
  split; [apply (toggle_run c todo_id current_user existing Hfind)|].
  split; [rewrite Honce; reflexivity|].
  split; [rewrite Honce; reflexivity|].
  split.
  { intros Hc. rewrite Honce. eexists. split; [reflexivity|].
    simpl. rewrite Hc. reflexivity. }
  split; [rewrite Htwice; reflexivity|].
  intros Hpk. rewrite Htwice. simpl todos at 1.
  rewrite Honce. simpl todos at 1.
  apply toggle_twice_table; assumption.
Qed.

Lemma C5_witness :
  fst (routes_todos.toggle_todo_completion 7 bob_response c0)
    = inr (response (with_completed true bobs_todo))
  /\ fst (routes_todos.toggle_todo_completion 7 bob_response
            (snd (routes_todos.toggle_todo_completion 7 bob_response c0)))
    = inr (response bobs_todo).
Proof.
  pose proof (C5_toggle_flips_completed c0 7 bob_response bobs_todo eq_refl)
    as (_ & H1 & _ & _ & H2 & _).
  split; [exact H1|exact H2].
Defined.

Lemma update_todo_after (c : conn) (todo_id user_id : Z) (patch : TodoPatch.t)
      (existing : Todo.row) :
  find (where_id_and_user todo_id user_id) (todos c) = Some existing ->
  fst (crud_todos.update_todo todo_id patch user_id c)
    = inr (response (patched patch existing))
  /\ find (where_id_and_user todo_id user_id)
          (todos (snd (crud_todos.update_todo todo_id patch user_id c)))
     = Some (patched patch existing).
Proof.
  intros Hfind.
  rewrite (update_todo_run c todo_id user_id patch existing Hfind).
  destruct (no_field patch) eqn:E; simpl.
  - rewrite (patched_no_field patch existing E). split; [reflexivity|exact Hfind].
  - split; [reflexivity|]. unfold update_where.
    rewrite (find_update (where_id_and_user todo_id user_id)), Hfind;
      [reflexivity|intros r; reflexivity].
Qed.

Lemma whitespace_description_is_absent (title : option string) (d : string)
      (cpl : option bool) (patch : TodoPatch.t) :
  pystr.all_space d = true ->
  TodoPatch.new title (Some d) cpl = inr patch ->
  TodoPatch.description patch = None /\ TodoPatch.completed patch = cpl.
Proof.
  intros Hd H. apply collect2_inr in H. destruct H as (x & y & _ & Hy & ->).
  simpl. split; [|reflexivity].
  rewrite TodoPatch_field_description in Hy.
  apply field_description_keeps in Hy. subst y. simpl.
  rewrite (all_space_strip d Hd). reflexivity.
Qed.

(** C10. On a todo of the caller whose description is present, a PATCH
    whose description is only whitespace validates to a patch without a
    description (and is accepted when nothing else is sent and it is at
    most 1000 characters long), and [update_todo] then answers with, and
    keeps stored, the old description.  Whatever the patch, the
    description in the answer and in the stored row is present. *)
Theorem C10_patch_never_clears_description :
  forall (c : conn) (todo_id user_id : Z) (existing : Todo.row) (old : string),
    find (where_id_and_user todo_id user_id) (todos c) = Some existing ->
    Todo.description existing = Some old ->
    (forall (title : option string) (d : string) (cpl : option bool)
            (patch : TodoPatch.t),
        pystr.all_space d = true ->
        TodoPatch.new title (Some d) cpl = inr patch ->
        TodoPatch.description patch = None
        /\ exists row,
            fst (crud_todos.update_todo todo_id patch user_id c) = inr (response row)
            /\ find (where_id_and_user todo_id user_id)
                    (todos (snd (crud_todos.update_todo todo_id patch user_id c)))
               = Some row
            /\ Todo.description row = Some old)
    /\ (forall (d : string) (cpl : option bool),
          pystr.all_space d = true -> pystr.len d <= 1000 ->
          TodoPatch.new None (Some d) cpl = inr (TodoPatch.mk None None cpl))
    /\ (forall patch : TodoPatch.t,
          exists row,
            fst (crud_todos.update_todo todo_id patch user_id c) = inr (response row)
            /\ find (where_id_and_user todo_id user_id)
                    (todos (snd (crud_todos.update_todo todo_id patch user_id c)))
               = Some row
            /\ Todo.description row <> None).
Proof.
  intros c todo_id user_id existing old Hfind Hold. split; [|split].
  - intros title d cpl patch Hd Hnew.
    destruct (whitespace_description_is_absent title d cpl patch Hd Hnew) as [Hp _].
    split; [exact Hp|].
    destruct (update_todo_after c todo_id user_id patch existing Hfind) as [A B].
    exists (patched patch existing). repeat split; try assumption.
    simpl. rewrite Hp. exact Hold.
  - intros d cpl Hd Hlen. unfold TodoPatch.new. simpl.
    unfold Field, and_then, TodoPatch.validate_description.
    destruct (Z.ltb_spec 1000 (pystr.len d)) as [L|L]; [lia|].
    rewrite (all_space_strip d Hd). reflexivity.
  - intros patch.
    destruct (update_todo_after c todo_id user_id patch existing Hfind) as [A B].
    exists (patched patch existing). repeat split; try assumption.
    simpl. destruct (TodoPatch.description patch); [discriminate|].
    rewrite Hold. discriminate.
Qed.

Lemma C10_witness :
  exists row,
    fst (crud_todos.update_todo 8 (TodoPatch.mk None None None) 2 c1) = inr (response row)
    /\ find (where_id_and_user 8 2)
            (todos (snd (crud_todos.update_todo 8 (TodoPatch.mk None None None) 2 c1)))
       = Some row
    /\ Todo.description row = Some "two litres".
Proof.
  exact (proj2 (proj1 (C10_patch_never_clears_description c1 8 2 bobs_errand
                          "two litres" eq_refl eq_refl)
                  None "   " None (TodoPatch.mk None None None) eq_refl eq_refl)).
Defined.

(** ** Listing: C2 *)

Lemma where_user_and_row_matches (user_id : Z) (completed : option bool)
      (search : option string) (r : Todo.row) :
  where_user_and user_id
    (match search with
     | Some search =>
         (match completed with
          | Some completed => [completed_eq completed]
          | None => []
          end ++ [title_or_description_ilike ("%" ++ search ++ "%")])%list
     | None =>
         match completed with
         | Some completed => [completed_eq completed]
         | None => []
         end
     end) r
  = row_matches user_id completed search r.
Proof.
  unfold where_user_and, row_matches.
  destruct completed, search; simpl; rewrite ?andb_true_r, ?andb_assoc; reflexivity.
Qed.

Lemma or_0_id (x : Z) : crud_todos.or_0 x = x.
Proof. unfold crud_todos.or_0. destruct (Z.eqb_spec x 0); congruence. Qed.

Lemma each_response (rows : list Todo.row) (c : conn) :
  crud_todos.TodoResponse_each rows c = (inr (map response rows), c).
Proof.
  induction rows as [|r rows IH]; [reflexivity|].
  simpl. unfold bind at 1. simpl. unfold bind at 1. rewrite IH. reflexivity.
Qed.

Lemma list_todos_run (c : conn) (user_id : Z) (completed : option bool)
      (search : option string) (page page_size : Z) :
  1 <= page -> 1 <= page_size ->
  let matching := filter (row_matches user_id completed search) (todos c) in
  let total_count := Z.of_nat (List.length matching) in
  crud_todos.list_todos user_id completed search page page_size c =
  (inr (TodosWithPagination.mk
          (map response (page_of page page_size (order_by_created_at_desc matching)))
          total_count page page_size
          ((total_count + page_size - 1) / page_size)),
   seen SELECT "todos" (seen SELECT "todos" c)).
Proof.
  intros Hpage Hsize matching total_count.
  unfold crud_todos.list_todos, try_except.
  unfold bind at 1. unfold fetchval_count. run.
  rewrite !or_0_id. unfold crud_todos.floordiv.
  destruct (Z.eqb_spec page_size 0) as [E|_]; [lia|].
  unfold fetch_page. run.
  destruct (Z.ltb_spec page_size 0) as [L|_]; [lia|].
  destruct (Z.ltb_spec ((page - 1) * page_size) 0) as [L|_]; [nia|].
  rewrite each_response.
  assert (E : forall conditions,
             (forall r, where_user_and user_id conditions r
                        = row_matches user_id completed search r) ->
             filter (where_user_and user_id conditions) (todos c) = matching).
  { intros conditions H. apply filter_ext, H. }
  cbn [todos]. erewrite E; [reflexivity|].
  intros r. apply where_user_and_row_matches.
Qed.

Lemma insert_desc_length (r : Todo.row) (l : list Todo.row) :
  List.length (insert_desc r l) = S (List.length l).
Proof.
  induction l as [|x l IH]; simpl; [reflexivity|].
  destruct (Todo.created_at x <=? Todo.created_at r); simpl; [reflexivity|].
  rewrite IH. reflexivity.
Qed.

Lemma order_by_length (l : list Todo.row) :
  List.length (order_by_created_at_desc l) = List.length l.
Proof.
  induction l as [|x l IH]; simpl; [reflexivity|].
  rewrite insert_desc_length, IH. reflexivity.
Qed.

Lemma insert_desc_In (r x : Todo.row) (l : list Todo.row) :
  In x (insert_desc r l) <-> x = r \/ In x l.
Proof.
  induction l as [|y l IH]; simpl.
  - intuition congruence.
  - destruct (Todo.created_at y <=? Todo.created_at r); simpl.
    + intuition congruence.
    + rewrite IH. intuition congruence.
Qed.

(** Ordering neither adds nor loses a row. *)
Lemma order_by_In (x : Todo.row) (l : list Todo.row) :
  In x (order_by_created_at_desc l) <-> In x l.
Proof.
  induction l as [|y l IH]; simpl; [reflexivity|].
  rewrite insert_desc_In, IH. intuition congruence.
Qed.

Lemma page_of_length (page page_size : Z) (l : list Todo.row) :
  1 <= page -> 1 <= page_size ->
  Z.of_nat (List.length (page_of page page_size l))
  = Z.min page_size (Z.max 0 (Z.of_nat (List.length l) - (page - 1) * page_size)).
Proof.
  intros Hp Hs. unfold page_of.
  rewrite length_firstn, length_skipn. nia.
Qed.

Lemma ceil_div_spec (a b : Z) : 0 <= a -> 1 <= b -> is_ceil_div ((a + b - 1) / b) a b.
Proof.
  intros Ha Hb. unfold is_ceil_div.
  pose proof (Z.div_mod (a + b - 1) b ltac:(lia)) as E.
  pose proof (Z.mod_pos_bound (a + b - 1) b ltac:(lia)) as B.
  nia.
Qed.



(** ** Users: C3, C4 *)

Lemma get_user_by_username_run (c : conn) (username : string) :
  crud_users.get_user_by_username username c
  = (inr (active_user c username), seen SELECT "users" c).
Proof. reflexivity. Qed.

Lemma authenticate_user_run (pwd_context : security.CryptContext) (c : conn)
      (username password : string) :
  crud_users.authenticate_user pwd_context username password c =
  (inr match active_user c username with
       | Some r =>
           if security.verify pwd_context password (User.hashed_password r)
           then Some (UserResponse.mk (User.id r) (User.username r)
                        (User.email r) (User.is_active r) (User.created_at r))
           else None
       | None => None
       end, seen SELECT "users" c).
Proof.
  unfold crud_users.authenticate_user, bind.
  rewrite get_user_by_username_run.
  destruct (active_user c username) as [r|]; [|reflexivity].
  unfold security.verify_password.
  destruct (security.verify pwd_context password (User.hashed_password r));
    reflexivity.
Qed.

(** C3. [authenticate_user] returns [None], after the same single SELECT,
    both when no active user has the username and when the user exists
    and the password does not verify; [login_user] then raises the same
    401 with the same detail in both cases. *)
Theorem C3_authenticate_no_distinction :
  forall (pwd_context : security.CryptContext) (c : conn) (utcnow : Z)
         (username password : string),
    active_user c username = None
    \/ (exists r, active_user c username = Some r
                  /\ security.verify pwd_context password (User.hashed_password r)
                     = false) ->
    crud_users.authenticate_user pwd_context username password c
      = (inr None, seen SELECT "users" c)
    /\ routes_auth.login_user pwd_context utcnow (UserLogin.mk username password) c
      = (inl (HTTPException 401 "Incorrect username or password"),
         seen SELECT "users" c).
Proof.
  intros pwd_context c utcnow username password H.
  assert (A : crud_users.authenticate_user pwd_context username password c
              = (inr None, seen SELECT "users" c)).
  { rewrite authenticate_user_run.
    destruct H as [H|(r & H & Hv)]; rewrite H; [reflexivity|].
    rewrite Hv. reflexivity. }
  split; [exact A|].
  unfold routes_auth.login_user, bind. simpl UserLogin.username.
  simpl UserLogin.password. rewrite A. reflexivity.
Qed.

Lemma C3_witness :
  routes_auth.login_user toy_context 1000 (UserLogin.mk "nobody" "pw-a") c0
  = routes_auth.login_user toy_context 1000 (UserLogin.mk "alice" "wrong") c0.
Proof.
  rewrite (proj2 (C3_authenticate_no_distinction toy_context c0 1000
                    "nobody" "pw-a" (or_introl eq_refl))).
  rewrite (proj2 (C3_authenticate_no_distinction toy_context c0 1000
                    "alice" "wrong"
                    (or_intror (ex_intro _ alice (conj eq_refl eq_refl))))).
  reflexivity.
Defined.

Lemma create_user_run (pwd_context : security.CryptContext) (c : conn)
      (user : UserCreate.t) (r : User.row) :
  first_collision c user = Some r ->
  crud_users.create_user pwd_context user c =
  (inl (if String.eqb (User.username r) (UserCreate.username user)
        then UserAlreadyExistsError "username" (UserCreate.username user)
        else UserAlreadyExistsError "email" (UserCreate.email user)),
   seen SELECT "users" c).
Proof.
  intros H. unfold crud_users.create_user, try_except, bind,
              fetchrow_user_by_username_or_email.
  run. unfold first_collision in H. rewrite H. simpl.
  destruct (String.eqb (User.username r) (UserCreate.username user)); reflexivity.
Qed.

Lemma taken_first_collision (c : conn) (user : UserCreate.t) :
  username_taken c user \/ email_taken c user ->
  exists r, first_collision c user = Some r.
Proof.
  intros H. unfold first_collision.
  destruct (find _ (users c)) as [r|] eqn:E; [eexists; reflexivity|].
  exfalso.
  destruct H as [(r & Hin & Hr)|(r & Hin & Hr)];
    pose proof (find_none _ _ E r Hin) as F; simpl in F; rewrite Hr in F;
    rewrite String.eqb_refl in F; [discriminate|].
  rewrite orb_true_r in F. discriminate.
Qed.

Lemma first_collision_collides (c : conn) (user : UserCreate.t) (r : User.row) :
  first_collision c user = Some r ->
  In r (users c)
  /\ (User.username r = UserCreate.username user
      \/ User.email r = UserCreate.email user).
Proof.
  intros H. apply find_some in H. destruct H as [Hin Hp].
  split; [exact Hin|]. apply orb_true_iff in Hp.
  destruct Hp as [Hp|Hp]; apply String.eqb_eq in Hp; auto.
Qed.




(** ** Tokens: C6 *)

Lemma get_update_same (d : security.dict) (k : string) (v : security.value) :
  security.get (security.update d k v) k = Some v.
Proof.
  induction d as [|[k' v'] d IH]; simpl.
  - rewrite String.eqb_refl. reflexivity.
  - destruct (String.eqb k' k) eqn:E; simpl; rewrite E; [reflexivity|exact IH].
Qed.

Lemma get_update_other (d : security.dict) (k k' : string) (v : security.value) :
  k <> k' -> security.get (security.update d k v) k' = security.get d k'.
Proof.
  intros Hk. induction d as [|[k0 v0] d IH]; simpl.
  - destruct (String.eqb_spec k k'); [contradiction|reflexivity].
  - destruct (String.eqb_spec k0 k) as [E|E]; simpl.
    + subst k0. destruct (String.eqb_spec k k'); [contradiction|reflexivity].
    + destruct (String.eqb k0 k'); [reflexivity|exact IH].
Qed.

Lemma create_access_token_expiry (utcnow : Z) (data : security.dict)
      (expires_delta : option Z) :
  expiry (security.create_access_token utcnow data expires_delta)
  = Some (if security.truthy_delta expires_delta
          then utcnow + match expires_delta with Some d => d | None => 0 end
          else utcnow + 900).
Proof.
  unfold security.create_access_token, security.jwt_encode, expiry.
  rewrite get_update_same.
  destruct (security.truthy_delta expires_delta); reflexivity.
Qed.

Lemma create_access_token_subject (utcnow : Z) (data : security.dict)
      (expires_delta : option Z) :
  subject (security.create_access_token utcnow data expires_delta)
  = security.get data "sub".
Proof.
  unfold security.create_access_token, security.jwt_encode, subject.
  apply get_update_other. discriminate.
Qed.

Lemma verify_token_expired (now : Z) (tok : security.token) (e : Z) :
  expiry tok = Some e -> e < now ->
  security.verify_token now tok = inl security.unauthorized.
Proof.
  intros He Hlt. destruct tok as [text|claims key alg]; [discriminate|].
  unfold security.verify_token, security.jwt_decode. simpl in He.
  destruct (negb (String.eqb key security.SECRET_KEY)); [reflexivity|].
  destruct (negb (existsb (String.eqb alg) [security.ALGORITHM])); [reflexivity|].
  destruct (security.get claims "exp") as [[s|t]|]; try discriminate.
  injection He as ->.
  destruct (Z.ltb_spec e now); [reflexivity|lia].
Qed.

Lemma verify_token_signed (now e : Z) (claims : security.dict)
      (s : security.value) :
  security.get claims "exp" = Some (security.Instant e) -> now <= e ->
  security.get claims "sub" = Some s ->
  security.verify_token now
    (security.signed claims security.SECRET_KEY security.ALGORITHM)
  = inr claims.
Proof.
  intros He Hle Hs. unfold security.verify_token, security.jwt_decode.
  change (negb (String.eqb security.SECRET_KEY security.SECRET_KEY)) with false.
  change (negb (existsb (String.eqb security.ALGORITHM) [security.ALGORITHM]))
    with false.
  cbv iota. rewrite He.
  destruct (Z.ltb_spec e now); [lia|]. rewrite Hs. reflexivity.
Qed.

Lemma verify_token_fresh (utcnow now : Z) (data : security.dict)
      (expires_delta : option Z) (e : Z) (s : security.value) :
  expiry (security.create_access_token utcnow data expires_delta) = Some e ->
  now <= e -> security.get data "sub" = Some s ->
  exists payload,
    security.verify_token now
      (security.create_access_token utcnow data expires_delta) = inr payload
    /\ security.get payload "sub" = Some s.
Proof.
  intros He Hle Hs.
  pose proof (create_access_token_subject utcnow data expires_delta) as Hsub.
  rewrite Hs in Hsub.
  destruct (security.create_access_token utcnow data expires_delta)
    as [text|claims key alg] eqn:Htok; [discriminate|].
  assert (key = security.SECRET_KEY /\ alg = security.ALGORITHM) as [-> ->].
  { unfold security.create_access_token, security.jwt_encode in Htok.
    injection Htok as _ <- <-. split; reflexivity. }
  simpl in He, Hsub. exists claims. split; [|exact Hsub].
  destruct (security.get claims "exp") as [[x|t]|] eqn:Hexp; try discriminate.
  injection He as ->.
  apply (verify_token_signed now e claims s Hexp Hle Hsub).
Qed.

Lemma login_user_success (pwd_context : security.CryptContext) (c : conn)
      (utcnow : Z) (username password : string) (r : User.row) :
  active_user c username = Some r ->
  security.verify pwd_context password (User.hashed_password r) = true ->
  routes_auth.login_user pwd_context utcnow (UserLogin.mk username password) c
  = (inr (routes_auth.mkToken
            (security.create_access_token utcnow
               [("sub", security.Str (User.username r))] (Some 1800))
            "bearer"),
     seen SELECT "users" c).
Proof.
  intros Hr Hv. unfold routes_auth.login_user, bind.
  simpl UserLogin.username. simpl UserLogin.password.
  rewrite authenticate_user_run, Hr, Hv. reflexivity.
Qed.




(** ** Statistics: C9 *)

Lemma filter_completed_split (l : list Todo.row) :
  (List.length (filter (fun r => Bool.eqb (Todo.completed r) true) l)
   + List.length (filter (fun r => Bool.eqb (Todo.completed r) false) l)
   = List.length l)%nat.
Proof.
  induction l as [|r l IH]; simpl; [reflexivity|].
  destruct (Todo.completed r); simpl; lia.
Qed.

Lemma get_todo_stats_run (c : conn) (current_user : UserResponse.t) :
  let mine := filter (user_id_eq (UserResponse.id current_user)) (todos c) in
  let total := Z.of_nat (List.length mine) in
  let completed :=
    Z.of_nat (List.length (filter (fun r => Bool.eqb (Todo.completed r) true) mine)) in
  let pending :=
    Z.of_nat (List.length (filter (fun r => Bool.eqb (Todo.completed r) false) mine)) in
  routes_todos.get_todo_stats current_user c =
  (inr (TodoStats.mk total completed pending
          (pyfloat.round (if 0 <? total then percentage completed total
                          else pyfloat.of_int 0) 2)),
   seen SELECT "todos" c).
Proof.
  intros mine total completed pending.
  unfold routes_todos.get_todo_stats, fetchrow_stats. run.
  rewrite !or_0_id. fold mine. fold total. fold completed.
  destruct (Z.ltb_spec 0 total) as [L|L].
  - unfold pyfloat.truediv.
    destruct (Z.eqb_spec total 0) as [E|_]; [lia|]. reflexivity.
  - reflexivity.
Qed.

Lemma rounds_well_upto_spec (bound : nat) :
  rounds_well_upto bound = true ->
  forall t k : nat,
    (1 <= t <= bound)%nat -> (k <= t)%nat ->
    rounds_well (Z.of_nat k) (Z.of_nat t) = true.
Proof.
  intros H t k Ht Hk. unfold rounds_well_upto in H.
  rewrite forallb_forall in H.
  specialize (H t ltac:(apply in_seq; lia)).
  rewrite forallb_forall in H. apply H, in_seq. lia.
Qed.

Lemma rounds_well_100 : rounds_well_upto 100 = true.
Proof. vm_compute. reflexivity. Qed.

Lemma rounds_well_small (completed total : Z) :
  0 < total <= 100 -> 0 <= completed <= total ->
  rounds_well completed total = true.
Proof.
  intros Ht Hc.
  replace total with (Z.of_nat (Z.to_nat total)) by lia.
  replace completed with (Z.of_nat (Z.to_nat completed)) by lia.
  apply (rounds_well_upto_spec 100 rounds_well_100); lia.
Qed.

Lemma filter_is_completed (l : list Todo.row) :
  filter (fun r => Bool.eqb (Todo.completed r) true) l = filter Todo.completed l.
Proof. apply filter_ext. intros r. destruct (Todo.completed r); reflexivity. Qed.

Lemma filter_is_pending (l : list Todo.row) :
  filter (fun r => Bool.eqb (Todo.completed r) false) l
  = filter (fun r => negb (Todo.completed r)) l.
Proof. apply filter_ext. intros r. destruct (Todo.completed r); reflexivity. Qed.

(** C9. [get_todo_stats] never raises: it answers, after one SELECT, with
    the number of the caller's todos, the number of those that are
    completed and the number of those that are not, which add up to the
    total.  With at least one todo the completion rate is the float
    [completed / total * 100] rounded by [round(_, 2)]; up to 100 todos
    that is the double of a two-decimal value nearest to the exact
    percentage.  With no todo the rate is 0 and nothing is divided. *)
Theorem C9_stats_counts_and_rate :
  forall (c : conn) (current_user : UserResponse.t),
    let mine := filter (user_id_eq (UserResponse.id current_user)) (todos c) in
    let total := Z.of_nat (List.length mine) in
    let completed := Z.of_nat (List.length (filter Todo.completed mine)) in
    let pending :=
      Z.of_nat (List.length (filter (fun r => negb (Todo.completed r)) mine)) in
    exists stats,
      routes_todos.get_todo_stats current_user c
        = (inr stats, seen SELECT "todos" c)
      /\ TodoStats.total_todos stats = total
      /\ TodoStats.completed_todos stats = completed
      /\ TodoStats.pending_todos stats = pending
      /\ completed + pending = total
      /\ (0 < total ->
          TodoStats.completion_rate stats
          = pyfloat.round (percentage completed total) 2)
      /\ (0 < total <= 100 ->
          exists n,
            TodoStats.completion_rate stats
              = PrimFloat.div (pyfloat.of_int n) (pyfloat.of_int 100)
            /\ 2 * Z.abs (n * total - 10000 * completed) <= total)
      /\ (total = 0 -> TodoStats.completion_rate stats = 0%float).
Proof.
  intros c current_user mine total completed pending.
  rewrite get_todo_stats_run. fold mine.
  rewrite filter_is_completed, filter_is_pending.
  fold total. fold completed. fold pending.
  assert (Hsum : completed + pending = total).
  { unfold completed, pending, total.
    pose proof (filter_completed_split mine) as H.
    rewrite filter_is_completed, filter_is_pending in H. lia. }
  eexists. split; [reflexivity|]. simpl.
  repeat apply conj; try reflexivity.
  - exact Hsum.
  - intros Ht. destruct (Z.ltb_spec 0 total); [reflexivity|lia].
  - intros Ht. destruct (Z.ltb_spec 0 total); [|lia].
    assert (Hc : 0 <= completed <= total) by (unfold completed, pending in *; lia).
    pose proof (rounds_well_small completed total Ht Hc) as Hw.
    unfold rounds_well in Hw. unfold pyfloat.round.
    destruct (pyfloat.scaled (percentage completed total) 2) as [n|];
      [|discriminate].
    exists n. split; [reflexivity|].
    unfold nearest_hundredths in Hw. apply Z.leb_le in Hw. exact Hw.
  - intros Ht. destruct (Z.ltb_spec 0 total); [lia|]. reflexivity.
Qed.

(** One todo in three is completed: the rate is the double written
    [33.33]. *)
Lemma C9_witness :
  exists stats,
    fst (routes_todos.get_todo_stats bob_response c3) = inr stats
    /\ TodoStats.total_todos stats = 3
    /\ TodoStats.completed_todos stats = 1
    /\ TodoStats.pending_todos stats = 2
    /\ TodoStats.completion_rate stats = 0x1.0aa3d70a3d70ap+5%float.
Proof.
  destruct (C9_stats_counts_and_rate c3 bob_response)
    as (stats & Hrun & Ht & Hc & Hp & _ & Hrate & _ & _).
  exists stats. rewrite Hrun.
  split; [reflexivity|]. split; [exact Ht|]. split; [exact Hc|].
  split; [exact Hp|]. rewrite Hrate; [|reflexivity].
  vm_compute. reflexivity.
Defined.

Lemma stats_of_nobody :
  exists stats,
    fst (routes_todos.get_todo_stats (UserResponse.mk 9 "zed" "z@example.org" true 0) c3)
      = inr stats
    /\ TodoStats.total_todos stats = 0
    /\ TodoStats.completion_rate stats = 0%float.
Proof. eexists. split; [reflexivity|]. split; reflexivity. Qed.

(** ** Concrete runs *)

Example strip_example : pystr.strip "  buy milk " = "buy milk".
Proof. reflexivity. Qed.

Example ilike_substring : ilike "Buy Milk" "%milk%" = true.
Proof. reflexivity. Qed.

Example ilike_wildcard_in_search : ilike "abc" "%a_c%" = true.
Proof. reflexivity. Qed.

Example ilike_no_match : ilike "Buy Milk" "%bread%" = false.
Proof. reflexivity. Qed.

(** The search filter looks at the title and at a description that is
    present. *)
Example list_todos_search :
  exists result,
    fst (crud_todos.list_todos 2 None (Some "LITRES") 1 10 c1) = inr result
    /\ map TodoResponse.id (TodosWithPagination.todos result) = [8]
    /\ TodosWithPagination.total_count result = 1
    /\ TodosWithPagination.total_pages result = 1.
Proof. eexists. repeat split. Qed.

(** A page size of zero divides by zero, which surfaces as a
    [DatabaseError]; the route refuses it before the call. *)
Example list_todos_page_size_zero :
  fst (crud_todos.list_todos 2 None None 1 0 c25)
  = inl (DatabaseError "Failed to list todos: " ZeroDivisionError).
Proof. reflexivity. Qed.

Example get_todos_page_size_zero :
  fst (routes_todos.get_todos None None None (Some 0) bob_response c25)
  = inl (RequestValidationError [("page_size", greater_than_equal 1)]).
Proof. reflexivity. Qed.

Example delete_own_todo :
  crud_todos.delete_todo 7 2 c0
  = (inr (crud_todos.deleted_successfully 7),
     with_todos [] (seen DELETE "todos" (seen SELECT "todos" c0))).
Proof. reflexivity. Qed.

Example replace_own_todo :
  fst (crud_todos.replace_todo 7 (TodoPut.mk "repot plants" None true) 2 c0)
  = inr (response (Todo.mk 7 "repot plants" None true 200 (Some 2))).
Proof. reflexivity. Qed.

Example register_then_login :
  exists u c' tok,
    routes_auth.register_user toy_context
      (UserCreate.mk "carol" "carol@example.org" "pw-c") c0 = (inr u, c')
    /\ fst (routes_auth.login_user toy_context 1000
              (UserLogin.mk "carol" "pw-c") c')
       = inr (routes_auth.mkToken tok "bearer")
    /\ expiry tok = Some 2800.
Proof. do 3 eexists. repeat split. Qed.

(** * Further properties *)

(** ** Writes on todos *)

Lemma update_todo_cases (c : conn) (todo_id user_id : Z) (patch : TodoPatch.t) :
  crud_todos.update_todo todo_id patch user_id c =
  match find (where_id_and_user todo_id user_id) (todos c) with
  | None => (inl (TodoNotFoundError todo_id), seen SELECT "todos" c)
  | Some existing =>
      if no_field patch then (inr (response existing), seen SELECT "todos" c)
      else
        (inr (response (patched patch existing)),
         with_todos (update_where todo_id user_id (patched patch) (todos c))
                    (seen UPDATE "todos" (seen SELECT "todos" c)))
  end.
Proof.
  destruct (find _ (todos c)) as [existing|] eqn:E.
  - apply update_todo_run, E.
  - apply update_todo_not_found. exact (proj1 (find_none_iff _ _) E).
Qed.

Lemma replace_todo_cases (c : conn) (todo_id user_id : Z) (data : TodoPut.t) :
  crud_todos.replace_todo todo_id data user_id c =
  match find (where_id_and_user todo_id user_id) (todos c) with
  | None => (inl (TodoNotFoundError todo_id), seen SELECT "todos" c)
  | Some existing =>
      (inr (response (replaced data existing)),
       with_todos (update_where todo_id user_id (replaced data) (todos c))
                  (seen UPDATE "todos" (seen SELECT "todos" c)))
  end.
Proof.
  destruct (find _ (todos c)) as [existing|] eqn:E.
  - unfold crud_todos.replace_todo, try_except. unfold bind at 1.
    rewrite get_todo_or_raise_run, E. unfold bind.
    rewrite (update_todo_returning_run (seen SELECT "todos" c)
               [set_title (TodoPut.title data);
                set_description (TodoPut.description data);
                set_completed (TodoPut.completed data)]
               (replaced data) todo_id user_id existing (fun r => eq_refl) E).
    reflexivity.
  - apply replace_todo_not_found. exact (proj1 (find_none_iff _ _) E).
Qed.

Lemma filter_length_find {A : Type} (p : A -> bool) (l : list A) (x : A) :
  find p l = Some x -> (0 < List.length (filter p l))%nat.
Proof.
  induction l as [|a l IH]; simpl; [discriminate|].
  destruct (p a); simpl; [lia|exact IH].
Qed.

Lemma delete_todo_cases (c : conn) (todo_id user_id : Z) :
  crud_todos.delete_todo todo_id user_id c =
  match find (where_id_and_user todo_id user_id) (todos c) with
  | None => (inl (TodoNotFoundError todo_id), seen SELECT "todos" c)
  | Some _ =>
      (inr (crud_todos.deleted_successfully todo_id),
       with_todos (filter (fun r => negb (where_id_and_user todo_id user_id r))
                          (todos c))
                  (seen DELETE "todos" (seen SELECT "todos" c)))
  end.
Proof.
  destruct (find _ (todos c)) as [existing|] eqn:E.
  - unfold crud_todos.delete_todo, try_except. unfold bind at 1.
    rewrite get_todo_or_raise_run, E. unfold execute_delete_todo. run.
    pose proof (filter_length_find _ _ _ E) as L.
    destruct (Z.eqb_spec
                (Z.of_nat (List.length
                             (filter (where_id_and_user todo_id user_id) (todos c)))) 0);
      [lia|reflexivity].
  - apply delete_todo_not_found. exact (proj1 (find_none_iff _ _) E).
Qed.

Lemma create_todo_run (c : conn) (todo : TodoCreate.t) (user_id : Z) :
  crud_todos.create_todo todo user_id c =
  let r := Todo.mk (todos_id_seq c) (TodoCreate.title todo)
                   (TodoCreate.description todo) false (clock c) (Some user_id) in
  (inr (response r),
   mkconn (todos c ++ [r]) (users c) (todos_id_seq c + 1) (users_id_seq c)
          (clock c) (statements c ++ [(INSERT, "todos")])).
Proof. reflexivity. Qed.

Lemma toggle_cases (c : conn) (todo_id : Z) (current_user : UserResponse.t) :
  routes_todos.toggle_todo_completion todo_id current_user c =
  match find (where_id_and_user todo_id (UserResponse.id current_user)) (todos c) with
  | None => (inl (TodoNotFoundError todo_id), seen SELECT "todos" c)
  | Some existing =>
      (inr (response (with_completed (negb (Todo.completed existing)) existing)),
       with_todos
         (update_where todo_id (UserResponse.id current_user)
            (with_completed (negb (Todo.completed existing))) (todos c))
         (seen UPDATE "todos" (seen SELECT "todos" (seen SELECT "todos" c))))
  end.
Proof.
  destruct (find _ (todos c)) as [existing|] eqn:E.
  - rewrite (toggle_run c todo_id current_user existing E).
    rewrite (update_todo_run (seen SELECT "todos" c) todo_id
               (UserResponse.id current_user) _ existing E).
    reflexivity.
  - unfold routes_todos.toggle_todo_completion. unfold bind.
    rewrite (get_todo_not_found c todo_id (UserResponse.id current_user));
      [reflexivity|exact (proj1 (find_none_iff _ _) E)].
Qed.

Lemma find_app_none {A : Type} (p : A -> bool) (l l' : list A) :
  find p l = None -> find p (l ++ l') = find p l'.
Proof.
  induction l as [|a l IH]; simpl; [reflexivity|].
  destruct (p a); [discriminate|exact IH].
Qed.

Lemma wf_fresh_id (c : conn) (user_id : Z) :
  todos_wf c ->
  find (where_id_and_user (todos_id_seq c) user_id) (todos c) = None.
Proof.
  intros [_ Hlt]. apply find_none_iff. intros r Hr.
  rewrite Forall_forall in Hlt. specialize (Hlt r Hr).
  unfold where_id_and_user.
  destruct (Z.eqb_spec (Todo.id r) (todos_id_seq c)); [lia|reflexivity].
Qed.

Lemma find_fresh_row (c : conn) (u : Z) (r : Todo.row) :
  todos_wf c -> Todo.id r = todos_id_seq c ->
  find (where_id_and_user (todos_id_seq c) u) (todos c ++ [r])
  = if user_id_eq u r then Some r else None.
Proof.
  intros Hwf Hid. rewrite (find_app_none _ _ _ (wf_fresh_id c u Hwf)).
  unfold find, where_id_and_user. rewrite Hid, Z.eqb_refl.
  destruct (user_id_eq u r); reflexivity.
Qed.



Lemma update_where_ids (i u : Z) (f : Todo.row -> Todo.row) (l : list Todo.row) :
  (forall r, Todo.id (f r) = Todo.id r) ->
  map Todo.id (update_where i u f l) = map Todo.id l.
Proof.
  intros Hf. unfold update_where. rewrite map_map. apply map_ext.
  intros r. destruct (where_id_and_user i u r); [apply Hf|reflexivity].
Qed.

Lemma wf_update_where (c c' : conn) (i u : Z) (f : Todo.row -> Todo.row) :
  (forall r, Todo.id (f r) = Todo.id r) ->
  todos c' = update_where i u f (todos c) ->
  todos_id_seq c' = todos_id_seq c ->
  todos_wf c -> todos_wf c'.
Proof.
  intros Hf Ht Hs [Hnd Hlt]. unfold todos_wf. rewrite Ht, Hs. split.
  - rewrite (update_where_ids i u f _ Hf). exact Hnd.
  - unfold update_where. rewrite Forall_map.
    eapply Forall_impl; [|exact Hlt]. intros r Hr. simpl.
    destruct (where_id_and_user i u r); [rewrite Hf|]; exact Hr.
Qed.

Lemma NoDup_map_filter {A B : Type} (g : A -> B) (p : A -> bool) (l : list A) :
  NoDup (map g l) -> NoDup (map g (filter p l)).
Proof.
  induction l as [|a l IH]; simpl; intros H; [constructor|].
  inversion H as [|? ? Hnotin Hnd]; subst.
  destruct (p a); simpl; [|apply IH, Hnd].
  constructor; [|apply IH, Hnd].
  intros Hin. apply Hnotin. apply in_map_iff in Hin.
  destruct Hin as (x & Hx & Hin). apply filter_In in Hin.
  apply in_map_iff. exists x. tauto.
Qed.

(** X2. Every write of the todo repository keeps the key of [todos]: if
    the ids are unique and below the id sequence before [create_todo],
    [update_todo], [replace_todo], [delete_todo] or
    [toggle_todo_completion], they are so afterwards, whatever the
    arguments and whether or not the call succeeds. *)
Theorem writes_keep_todos_wf :
  forall c : conn,
    todos_wf c ->
    (forall todo user_id,
        todos_wf (snd (crud_todos.create_todo todo user_id c)))
    /\ (forall todo_id patch user_id,
          todos_wf (snd (crud_todos.update_todo todo_id patch user_id c)))
    /\ (forall todo_id data user_id,
          todos_wf (snd (crud_todos.replace_todo todo_id data user_id c)))
    /\ (forall todo_id user_id,
          todos_wf (snd (crud_todos.delete_todo todo_id user_id c)))
    /\ (forall todo_id current_user,
          todos_wf (snd (routes_todos.toggle_todo_completion todo_id current_user c))).
Proof.
  intros c Hwf. repeat apply conj.
  - intros todo user_id. rewrite create_todo_run. cbv zeta. simpl snd.
    destruct Hwf as [Hnd Hlt]. split; simpl.
    + rewrite map_app. simpl.
      apply NoDup_app; [exact Hnd|repeat constructor; intros []|].
      intros x Hx [<-|[]]. apply in_map_iff in Hx.
      destruct Hx as (r & Hr & Hin).
      rewrite Forall_forall in Hlt. specialize (Hlt r Hin). lia.
    + apply Forall_app. split.
      * eapply Forall_impl; [|exact Hlt]. simpl. intros; lia.
      * repeat constructor. simpl. lia.
  - intros todo_id patch user_id. rewrite update_todo_cases.
    destruct (find _ (todos c)); [destruct (no_field patch)|]; simpl snd;
      try exact Hwf.
    eapply wf_update_where; [|reflexivity|reflexivity|exact Hwf]; reflexivity.
  - intros todo_id data user_id. rewrite replace_todo_cases.
    destruct (find _ (todos c)); simpl snd; try exact Hwf.
    eapply wf_update_where; [|reflexivity|reflexivity|exact Hwf]; reflexivity.
  - intros todo_id user_id. rewrite delete_todo_cases.
    destruct (find _ (todos c)); simpl snd; try exact Hwf.
    destruct Hwf as [Hnd Hlt]. split; simpl.
    + apply NoDup_map_filter, Hnd.
    + rewrite Forall_forall in *. intros x Hx. apply filter_In in Hx.
      apply Hlt, Hx.
  - intros todo_id current_user. rewrite toggle_cases.
    destruct (find _ (todos c)); simpl snd; try exact Hwf.
    eapply wf_update_where; [|reflexivity|reflexivity|exact Hwf]; reflexivity.
Qed.

Lemma writes_keep_todos_wf_witness :
  todos_wf (snd (crud_todos.create_todo (TodoCreate.mk "call mum" None) 1 c1))
  /\ todos_wf (snd (crud_todos.delete_todo 7 2 c1)).
Proof.
  assert (Hwf : todos_wf c1).
  { split; simpl; repeat constructor; simpl; try lia; intuition discriminate. }
  split.
  - apply (proj1 (writes_keep_todos_wf c1 Hwf)).
  - apply (proj1 (proj2 (proj2 (proj2 (writes_keep_todos_wf c1 Hwf))))).
Defined.

Lemma find_filter_negb {A : Type} (p : A -> bool) (l : list A) :
  find p (filter (fun x => negb (p x)) l) = None.
Proof.
  apply find_none_iff. intros x Hx. apply filter_In in Hx.
  destruct Hx as [_ Hx]. destruct (p x); [discriminate|reflexivity].
Qed.

(** X3. [delete_todo] on a todo of the caller answers with the
    confirmation and physically removes the rows of that id and owner, and
    no other row; afterwards [get_todo] and a second [delete_todo] for the
    same id raise [TodoNotFoundError]. *)
Theorem delete_then_not_found :
  forall (c : conn) (todo_id user_id : Z) (existing : Todo.row),
    find (where_id_and_user todo_id user_id) (todos c) = Some existing ->
    let c' := snd (crud_todos.delete_todo todo_id user_id c) in
    fst (crud_todos.delete_todo todo_id user_id c)
      = inr (crud_todos.deleted_successfully todo_id)
    /\ todos c'
       = filter (fun r => negb (where_id_and_user todo_id user_id r)) (todos c)
    /\ (forall r, In r (todos c') <->
                  In r (todos c) /\ where_id_and_user todo_id user_id r = false)
    /\ fst (crud_todos.get_todo todo_id user_id c')
       = inl (TodoNotFoundError todo_id)
    /\ fst (crud_todos.delete_todo todo_id user_id c')
       = inl (TodoNotFoundError todo_id).
Proof.
  intros c todo_id user_id existing Hfind c'. unfold c'.
  rewrite delete_todo_cases, Hfind. simpl fst. simpl snd. cbn [with_todos todos].
  split; [reflexivity|]. split; [reflexivity|]. split; [|split].
  - intros r. rewrite filter_In.
    destruct (where_id_and_user todo_id user_id r); simpl; intuition congruence.
  - unfold crud_todos.get_todo, bind. rewrite get_todo_or_raise_run.
    unfold with_todos. cbn [todos]. rewrite find_filter_negb. reflexivity.
  - rewrite delete_todo_cases. unfold with_todos at 1. cbn [todos].
    rewrite find_filter_negb. reflexivity.
Qed.

Lemma delete_then_not_found_witness :
  todos (snd (crud_todos.delete_todo 7 2 c1)) = [bobs_errand]
  /\ fst (crud_todos.get_todo 7 2 (snd (crud_todos.delete_todo 7 2 c1)))
     = inl (TodoNotFoundError 7).
Proof.
  destruct (delete_then_not_found c1 7 2 bobs_todo eq_refl)
    as (_ & H1 & _ & H2 & _).
  split; [rewrite H1; reflexivity|exact H2].
Defined.

(** X4. [replace_todo] on a todo of the caller overwrites title,
    description and completed with the body's values and keeps id,
    creation time and owner; rows of another id or owner are untouched.  A
    body that is accepted with only a title therefore clears the
    description and resets completed to false, whatever was stored. *)
Theorem replace_overwrites_all_fields :
  forall (c : conn) (todo_id user_id : Z) (data : TodoPut.t)
         (existing : Todo.row),
    find (where_id_and_user todo_id user_id) (todos c) = Some existing ->
    fst (crud_todos.replace_todo todo_id data user_id c)
      = inr (TodoResponse.mk (Todo.id existing) (TodoPut.title data)
               (TodoPut.description data) (TodoPut.completed data)
               (Todo.created_at existing) (Todo.user_id existing))
    /\ todos (snd (crud_todos.replace_todo todo_id data user_id c))
       = update_where todo_id user_id (replaced data) (todos c)
    /\ (forall t, TodoPut.new t None None = inr data ->
          exists resp,
            fst (crud_todos.replace_todo todo_id data user_id c) = inr resp
            /\ TodoResponse.description resp = None
            /\ TodoResponse.completed resp = false).
Proof.
  intros c todo_id user_id data existing Hfind.
  rewrite replace_todo_cases, Hfind. simpl fst. simpl snd.
  split; [reflexivity|]. split; [reflexivity|].
  intros t Hnew. apply collect2_inr in Hnew.
  destruct Hnew as (x & y & _ & Hy & ->). simpl in Hy. injection Hy as <-.
  eexists. split; [reflexivity|]. split; reflexivity.
Qed.

Lemma replace_overwrites_all_fields_witness :
  fst (crud_todos.replace_todo 8 (TodoPut.mk "buy bread" None false) 2 c1)
  = inr (TodoResponse.mk 8 "buy bread" None false 210 (Some 2)).
Proof.
  exact (proj1 (replace_overwrites_all_fields c1 8 2
                  (TodoPut.mk "buy bread" None false) bobs_errand eq_refl)).
Defined.

Lemma others_update_where (i u : Z) (f : Todo.row -> Todo.row)
      (l : list Todo.row) :
  (forall r, user_id_eq u (f r) = user_id_eq u r) ->
  others u (update_where i u f l) = others u l.
Proof.
  intros Hf. unfold others, update_where.
  induction l as [|r l IH]; simpl; [reflexivity|].
  destruct (where_id_and_user i u r) eqn:E.
  - rewrite Hf. unfold where_id_and_user in E. apply andb_true_iff in E.
    destruct E as [_ E]. rewrite E. simpl. exact IH.
  - destruct (user_id_eq u r); simpl; rewrite IH; reflexivity.
Qed.

Lemma others_delete (i u : Z) (l : list Todo.row) :
  others u (filter (fun r => negb (where_id_and_user i u r)) l) = others u l.
Proof.
  unfold others. induction l as [|r l IH]; simpl; [reflexivity|].
  destruct (where_id_and_user i u r) eqn:E; simpl.
  - unfold where_id_and_user in E. apply andb_true_iff in E.
    destruct E as [_ E]. rewrite E. simpl. exact IH.
  - destruct (user_id_eq u r); simpl; rewrite IH; reflexivity.
Qed.

(** X5. No write made on behalf of a user touches a row of anybody else:
    after [create_todo], [update_todo], [replace_todo], [delete_todo] or
    [toggle_todo_completion] for [user_id], the rows not owned by
    [user_id] are exactly what they were, in the same order, for every
    argument and outcome. *)
Theorem writes_leave_other_users_rows :
  forall (c : conn) (user_id : Z),
    (forall todo,
        others user_id (todos (snd (crud_todos.create_todo todo user_id c)))
        = others user_id (todos c))
    /\ (forall todo_id patch,
          others user_id (todos (snd (crud_todos.update_todo todo_id patch user_id c)))
          = others user_id (todos c))
    /\ (forall todo_id data,
          others user_id (todos (snd (crud_todos.replace_todo todo_id data user_id c)))
          = others user_id (todos c))
    /\ (forall todo_id,
          others user_id (todos (snd (crud_todos.delete_todo todo_id user_id c)))
          = others user_id (todos c))
    /\ (forall todo_id current_user,
          UserResponse.id current_user = user_id ->
          others user_id
            (todos (snd (routes_todos.toggle_todo_completion todo_id current_user c)))
          = others user_id (todos c)).
Proof.
  intros c user_id. repeat apply conj.
  - intros todo. rewrite create_todo_run. cbv zeta. cbn [snd todos].
    unfold others. rewrite filter_app. simpl.
    unfold user_id_eq at 2. simpl. rewrite Z.eqb_refl. simpl. apply app_nil_r.
  - intros todo_id patch. rewrite update_todo_cases.
    destruct (find _ (todos c)); [destruct (no_field patch)|];
      cbn [snd seen with_todos todos]; try reflexivity.
    apply others_update_where. reflexivity.
  - intros todo_id data. rewrite replace_todo_cases.
    destruct (find _ (todos c)); cbn [snd seen with_todos todos]; try reflexivity.
    apply others_update_where. reflexivity.
  - intros todo_id. rewrite delete_todo_cases.
    destruct (find _ (todos c)); cbn [snd seen with_todos todos]; try reflexivity.
    apply others_delete.
  - intros todo_id current_user <-. rewrite toggle_cases.
    destruct (find _ (todos c)); cbn [snd seen with_todos todos]; try reflexivity.
    apply others_update_where. reflexivity.
Qed.

Lemma writes_leave_other_users_rows_witness :
  others 1 (todos (snd (routes_todos.toggle_todo_completion 4
                          (UserResponse.mk 1 "alice" "alice@example.org" true 100) c3)))
  = others 1 (todos c3).
Proof.
  exact (proj2 (proj2 (proj2 (proj2 (writes_leave_other_users_rows c3 1))))
           4 (UserResponse.mk 1 "alice" "alice@example.org" true 100) eq_refl).
Defined.

(** ** Reads on todos *)

Lemma list_todos_cases (c : conn) (user_id : Z) (completed : option bool)
      (search : option string) (page page_size : Z) :
  let matching := filter (row_matches user_id completed search) (todos c) in
  let total_count := Z.of_nat (List.length matching) in
  crud_todos.list_todos user_id completed search page page_size c =
  if page_size =? 0 then
    (inl (DatabaseError "Failed to list todos: " ZeroDivisionError),
     seen SELECT "todos" c)
  else if page_size <? 0 then
    (inl (DatabaseError "Failed to list todos: "
            (PostgresError "LIMIT must not be negative")),
     seen SELECT "todos" (seen SELECT "todos" c))
  else if (page - 1) * page_size <? 0 then
    (inl (DatabaseError "Failed to list todos: "
            (PostgresError "OFFSET must not be negative")),
     seen SELECT "todos" (seen SELECT "todos" c))
  else
    (inr (TodosWithPagination.mk
            (map response (page_of page page_size (order_by_created_at_desc matching)))
            total_count page page_size
            ((total_count + page_size - 1) / page_size)),
     seen SELECT "todos" (seen SELECT "todos" c)).
Proof.
  intros matching total_count.
  unfold crud_todos.list_todos, try_except.
  unfold bind at 1. unfold fetchval_count. run.
  rewrite !or_0_id. unfold crud_todos.floordiv.
  destruct (page_size =? 0); [reflexivity|].
  unfold fetch_page. run.
  destruct (page_size <? 0); [reflexivity|].
  destruct ((page - 1) * page_size <? 0); [reflexivity|].
  rewrite each_response.
  assert (E : forall conditions,
             (forall r, where_user_and user_id conditions r
                        = row_matches user_id completed search r) ->
             filter (where_user_and user_id conditions) (todos c) = matching).
  { intros conditions H. apply filter_ext, H. }
  cbn [todos]. erewrite E; [reflexivity|].
  intros r. apply where_user_and_row_matches.
Qed.

Lemma writes_seen_select (c : conn) (table : string) :
  writes (seen SELECT table c) = writes c.
Proof. unfold writes, seen. simpl. rewrite filter_app. simpl. apply app_nil_r. Qed.

(** X6. Reading never writes: [get_todo_or_raise] (scoped or not),
    [get_todo], [list_todos] and [get_todo_stats] leave both tables, the
    sequences and the clock as they were and send no INSERT, UPDATE or
    DELETE, for every argument and also when they raise. *)
Theorem reads_change_nothing :
  forall c : conn,
    (forall todo_id user_id,
        let c' := snd (crud_todos.get_todo_or_raise todo_id user_id c) in
        tables c' = tables c /\ writes c' = writes c)
    /\ (forall todo_id user_id,
          let c' := snd (crud_todos.get_todo todo_id user_id c) in
          tables c' = tables c /\ writes c' = writes c)
    /\ (forall user_id completed search page page_size,
          let c' := snd (crud_todos.list_todos user_id completed search
                           page page_size c) in
          tables c' = tables c /\ writes c' = writes c)
    /\ (forall current_user,
          let c' := snd (routes_todos.get_todo_stats current_user c) in
          tables c' = tables c /\ writes c' = writes c).
Proof.
  intros c. repeat apply conj.
  - intros todo_id [user_id|] c'; unfold c'.
    + rewrite get_todo_or_raise_run. simpl snd.
      split; [reflexivity|apply writes_seen_select].
    + unfold crud_todos.get_todo_or_raise, fetchrow_todo_by_id. run.
      destruct (find _ (todos c)); simpl;
        (split; [reflexivity|apply (writes_seen_select c "todos")]).
  - intros todo_id user_id c'. unfold c', crud_todos.get_todo, bind.
    rewrite get_todo_or_raise_run.
    destruct (find _ (todos c)); simpl;
      (split; [reflexivity|apply (writes_seen_select c "todos")]).
  - intros user_id completed search page page_size c'. unfold c'.
    rewrite list_todos_cases.
    destruct (page_size =? 0); [|destruct (page_size <? 0);
      [|destruct ((page - 1) * page_size <? 0)]]; simpl snd;
      (split; [reflexivity|rewrite ?writes_seen_select; reflexivity]).
  - intros current_user c'. unfold c'. rewrite get_todo_stats_run. simpl snd.
    split; [reflexivity|apply writes_seen_select].
Qed.

Lemma row_matches_owner (user_id : Z) (completed : option bool)
      (search : option string) (r : Todo.row) :
  row_matches user_id completed search r = true ->
  Todo.user_id r = Some user_id.
Proof.
  unfold row_matches. intros H.
  apply andb_true_iff in H. destruct H as [H _].
  apply andb_true_iff in H. destruct H as [H _].
  unfold user_id_eq in H. destruct (Todo.user_id r) as [v|]; [|discriminate].
  apply Z.eqb_eq in H. congruence.
Qed.

Lemma in_page_of (page page_size : Z) (l : list Todo.row) (r : Todo.row) :
  In r (page_of page page_size l) -> In r l.
Proof.
  unfold page_of. intros H.
  rewrite <- (firstn_skipn (Z.to_nat ((page - 1) * page_size)) l).
  apply in_or_app. right.
  rewrite <- (firstn_skipn (Z.to_nat page_size)
                (skipn (Z.to_nat ((page - 1) * page_size)) l)).
  apply in_or_app. left. exact H.
Qed.

(** X7. Whatever [list_todos] returns belongs to the caller and passes the
    filters that were given: every item is the response of a stored row
    owned by [user_id], with the requested [completed] value when that
    filter is present, for every page and page size. *)
Theorem list_returns_only_matching_rows :
  forall (c : conn) (user_id : Z) (completed : option bool)
         (search : option string) (page page_size : Z)
         (result : TodosWithPagination.t) (item : TodoResponse.t),
    fst (crud_todos.list_todos user_id completed search page page_size c)
      = inr result ->
    In item (TodosWithPagination.todos result) ->
    TodoResponse.user_id item = Some user_id
    /\ (forall b, completed = Some b -> TodoResponse.completed item = b)
    /\ exists r, In r (todos c) /\ item = response r
                 /\ row_matches user_id completed search r = true.
Proof.
  intros c user_id completed search page page_size result item Hres Hin.
  rewrite list_todos_cases in Hres.
  destruct (page_size =? 0); [discriminate|].
  destruct (page_size <? 0); [discriminate|].
  destruct ((page - 1) * page_size <? 0); [discriminate|].
  simpl in Hres. injection Hres as <-. simpl in Hin.
  apply in_map_iff in Hin. destruct Hin as (r & <- & Hin).
  apply in_page_of, order_by_In, filter_In in Hin. destruct Hin as [Hin Hm].
  split; [apply (row_matches_owner user_id completed search r Hm)|].
  split; [|exists r; auto].
  intros b ->. unfold row_matches in Hm.
  apply andb_true_iff in Hm. destruct Hm as [Hm _].
  apply andb_true_iff in Hm. destruct Hm as [_ Hm].
  simpl. destruct (Todo.completed r), b; simpl in Hm; congruence.
Qed.

Lemma list_returns_only_matching_rows_witness :
  TodoResponse.user_id (TodoResponse.mk 3 "c" None false 12 (Some 2)) = Some 2
  /\ TodoResponse.completed (TodoResponse.mk 3 "c" None false 12 (Some 2)) = false.
Proof.
  destruct (list_returns_only_matching_rows c3 2 (Some false) None 1 10
              (TodosWithPagination.mk
                 [TodoResponse.mk 3 "c" None false 12 (Some 2);
                  TodoResponse.mk 2 "b" None false 11 (Some 2)] 2 1 10 1)
              (TodoResponse.mk 3 "c" None false 12 (Some 2))
              eq_refl (or_introl eq_refl)) as (H1 & H2 & _).
  split; [exact H1|exact (H2 false eq_refl)].
Defined.

Lemma insert_desc_sorted (r : Todo.row) (l : list Todo.row) :
  StronglySorted (fun a b => Todo.created_at b <= Todo.created_at a) l ->
  StronglySorted (fun a b => Todo.created_at b <= Todo.created_at a)
                 (insert_desc r l).
Proof.
  induction l as [|x l IH]; intros Hs; simpl.
  - constructor; constructor.
  - apply StronglySorted_inv in Hs. destruct Hs as [Hl Hx].
    destruct (Z.leb_spec (Todo.created_at x) (Todo.created_at r)) as [L|L].
    + constructor; [constructor; assumption|].
      constructor; [exact L|].
      eapply Forall_impl; [|exact Hx]. simpl. intros; lia.
    + constructor; [apply IH, Hl|].
      rewrite Forall_forall in *. intros y Hy.
      apply insert_desc_In in Hy. destruct Hy as [->|Hy]; [lia|apply Hx, Hy].
Qed.

Lemma order_by_sorted (l : list Todo.row) :
  StronglySorted (fun a b => Todo.created_at b <= Todo.created_at a)
                 (order_by_created_at_desc l).
Proof.
  induction l as [|x l IH]; simpl; [constructor|].
  apply insert_desc_sorted, IH.
Qed.

Lemma sorted_skipn {A : Type} (R : A -> A -> Prop) (n : nat) (l : list A) :
  StronglySorted R l -> StronglySorted R (skipn n l).
Proof.
  revert l. induction n as [|n IH]; intros l Hs; [exact Hs|].
  destruct l as [|a l]; [constructor|].
  apply StronglySorted_inv in Hs. apply IH, Hs.
Qed.

Lemma sorted_firstn {A : Type} (R : A -> A -> Prop) (n : nat) (l : list A) :
  StronglySorted R l -> StronglySorted R (firstn n l).
Proof.
  revert l. induction n as [|n IH]; intros l Hs; [constructor|].
  destruct l as [|a l]; [constructor|].
  apply StronglySorted_inv in Hs. destruct Hs as [Hl Ha].
  simpl. constructor; [apply IH, Hl|].
  rewrite Forall_forall in *. intros x Hx. apply Ha.
  rewrite <- (firstn_skipn n l). apply in_or_app. left. exact Hx.
Qed.

Lemma sorted_map {A B : Type} (f : A -> B) (R : B -> B -> Prop) (l : list A) :
  StronglySorted (fun a b => R (f a) (f b)) l -> StronglySorted R (map f l).
Proof.
  induction 1 as [|a l Hl IH Ha]; simpl; constructor; [exact IH|].
  rewrite Forall_map. exact Ha.
Qed.

(** X8. The items of every page [list_todos] returns are ordered by
    creation time, newest first. *)
Theorem list_is_newest_first :
  forall (c : conn) (user_id : Z) (completed : option bool)
         (search : option string) (page page_size : Z)
         (result : TodosWithPagination.t),
    fst (crud_todos.list_todos user_id completed search page page_size c)
      = inr result ->
    newest_first (TodosWithPagination.todos result).
Proof.
  intros c user_id completed search page page_size result Hres.
  rewrite list_todos_cases in Hres.
  destruct (page_size =? 0); [discriminate|].
  destruct (page_size <? 0); [discriminate|].
  destruct ((page - 1) * page_size <? 0); [discriminate|].
  simpl in Hres. injection Hres as <-. simpl.
  unfold newest_first, page_of.
  apply (sorted_map response
           (fun a b => TodoResponse.created_at b <= TodoResponse.created_at a)).
  apply sorted_firstn, sorted_skipn, order_by_sorted.
Qed.

Lemma list_is_newest_first_witness :
  newest_first
    [TodoResponse.mk 3 "c" None false 12 (Some 2);
     TodoResponse.mk 2 "b" None false 11 (Some 2)].
Proof.
  exact (list_is_newest_first c3 2 (Some false) None 1 10
           (TodosWithPagination.mk
              [TodoResponse.mk 3 "c" None false 12 (Some 2);
               TodoResponse.mk 2 "b" None false 11 (Some 2)] 2 1 10 1)
           eq_refl).
Defined.





Lemma firstn_plus {A : Type} (a b : nat) (l : list A) :
  firstn (a + b) l = (firstn a l ++ firstn b (skipn a l))%list.
Proof.
  revert l. induction a as [|a IH]; intros l; [reflexivity|].
  destruct l as [|x l]; simpl.
  - rewrite firstn_nil. reflexivity.
  - rewrite IH. reflexivity.
Qed.

Lemma pages_concat {A : Type} (size n : nat) (l : list A) :
  List.concat (map (fun p => firstn size (skipn (p * size) l)) (seq 0 n))
  = firstn (n * size) l.
Proof.
  induction n as [|n IH]; [reflexivity|].
  rewrite seq_S, map_app, concat_app, IH. simpl.
  rewrite app_nil_r. rewrite (Nat.add_comm size (n * size)).
  symmetry. apply firstn_plus.
Qed.

Lemma page_items_ok (c : conn) (user_id : Z) (completed : option bool)
      (search : option string) (page_size page : Z) :
  1 <= page -> 1 <= page_size ->
  page_items c user_id completed search page_size page
  = map response
      (page_of page page_size
         (order_by_created_at_desc
            (filter (row_matches user_id completed search) (todos c)))).
Proof.
  intros Hp Hs. unfold page_items.
  rewrite (list_todos_run c user_id completed search page page_size Hp Hs).
  reflexivity.
Qed.



Lemma update_where_twice (i u : Z) (f : Todo.row -> Todo.row) (l : list Todo.row) :
  (forall r, where_id_and_user i u (f r) = where_id_and_user i u r) ->
  (forall r, f (f r) = f r) ->
  update_where i u f (update_where i u f l) = update_where i u f l.
Proof.
  intros Hw Hf. unfold update_where. rewrite map_map. apply map_ext.
  intros r. destruct (where_id_and_user i u r) eqn:E.
  - rewrite Hw, E. apply Hf.
  - rewrite E. reflexivity.
Qed.

Lemma update_todo_todos (c : conn) (todo_id user_id : Z) (patch : TodoPatch.t) :
  todos (snd (crud_todos.update_todo todo_id patch user_id c))
  = update_where todo_id user_id (patched patch) (todos c).
Proof.
  rewrite update_todo_cases.
  destruct (find _ (todos c)) as [existing|] eqn:E.
  - destruct (no_field patch) eqn:N; [|reflexivity].
    simpl. unfold update_where. rewrite <- (map_id (todos c)) at 1.
    apply map_ext. intros r. rewrite (patched_no_field patch r N).
    destruct (where_id_and_user todo_id user_id r); reflexivity.
  - simpl. unfold update_where. rewrite <- (map_id (todos c)) at 1.
    apply map_ext_in. intros r Hr.
    rewrite (proj1 (find_none_iff _ _) E r Hr). reflexivity.
Qed.

Lemma replace_todo_todos (c : conn) (todo_id user_id : Z) (data : TodoPut.t) :
  todos (snd (crud_todos.replace_todo todo_id data user_id c))
  = update_where todo_id user_id (replaced data) (todos c).
Proof.
  rewrite replace_todo_cases.
  destruct (find _ (todos c)) as [existing|] eqn:E; [reflexivity|].
  simpl. unfold update_where. rewrite <- (map_id (todos c)) at 1.
  apply map_ext_in. intros r Hr.
  rewrite (proj1 (find_none_iff _ _) E r Hr). reflexivity.
Qed.

Lemma patched_twice (patch : TodoPatch.t) (r : Todo.row) :
  patched patch (patched patch r) = patched patch r.
Proof. destruct patch as [[t|] [d|] [b|]]; reflexivity. Qed.

(** X12. PATCH and PUT are idempotent: sending the same patch, or the
    same replacement, a second time answers with the same todo as the
    first time and leaves the table as the first call left it; an id the
    caller does not own is not found both times. *)
Theorem update_and_replace_idempotent :
  forall (c : conn) (todo_id user_id : Z) (patch : TodoPatch.t)
         (data : TodoPut.t),
    (let once := crud_todos.update_todo todo_id patch user_id c in
     let twice := crud_todos.update_todo todo_id patch user_id (snd once) in
     fst twice = fst once /\ todos (snd twice) = todos (snd once))
    /\ (let once := crud_todos.replace_todo todo_id data user_id c in
        let twice := crud_todos.replace_todo todo_id data user_id (snd once) in
        fst twice = fst once /\ todos (snd twice) = todos (snd once)).
Proof.
  intros c todo_id user_id patch data. split.
  - cbv zeta. split.
    + rewrite (update_todo_cases (snd _)), update_todo_todos.
      rewrite (update_todo_cases c).
      unfold update_where at 1.
      rewrite (find_update (where_id_and_user todo_id user_id) (patched patch))
        by reflexivity.
      destruct (find _ (todos c)) as [existing|]; [|reflexivity].
      simpl option_map. cbv iota.
      destruct (no_field patch) eqn:N; simpl fst.
      * rewrite (patched_no_field patch existing N). reflexivity.
      * rewrite patched_twice. reflexivity.
    + rewrite !update_todo_todos. apply update_where_twice.
      * reflexivity.
      * apply patched_twice.
  - cbv zeta. split.
    + rewrite (replace_todo_cases (snd _)), replace_todo_todos.
      rewrite (replace_todo_cases c).
      unfold update_where at 1.
      rewrite (find_update (where_id_and_user todo_id user_id) (replaced data))
        by reflexivity.
      destruct (find _ (todos c)) as [existing|]; reflexivity.
    + rewrite !replace_todo_todos. apply update_where_twice; reflexivity.
Qed.

(** ** Validation, in full *)

Section ValidationMore.
Import pystr.

Lemma not_true_false (b : bool) : b <> true -> b = false.
Proof. destruct b; congruence. Qed.

Lemma field_title_accepts (v : string) :
  ~ bad_title v -> TodoCreate.field_title v = inr (strip v).
Proof.
  intros H. unfold bad_title in H.
  assert (Hs : strip v <> "") by tauto.
  assert (Hlt : contains "<" v = false) by (apply not_true_false; tauto).
  assert (Hgt : contains ">" v = false) by (apply not_true_false; tauto).
  assert (Hlen : len v <= 200) by lia.
  unfold TodoCreate.field_title, Field, and_then, TodoCreate.validate_title.
  destruct (Z.ltb_spec (len v) 1) as [L|L].
  { exfalso. apply Hs. destruct v; [reflexivity|]. unfold len in L. simpl in L. lia. }
  destruct (Z.ltb_spec 200 (len v)) as [L'|L']; [lia|].
  destruct (negb (truthy v) || isspace v) eqn:E.
  { exfalso. apply Hs. apply all_space_strip.
    unfold isspace in E. destruct v; [reflexivity|]. simpl in E. exact E. }
  rewrite contains_strip, (contains_strip ">"%char) by reflexivity.
  rewrite Hlt, Hgt. reflexivity.
Qed.

Lemma field_description_accepts (v : option string) :
  (forall s, v = Some s -> ~ bad_description s) ->
  TodoCreate.field_description v = inr (stored_description v).
Proof.
  destruct v as [s|]; [|reflexivity]. intros H.
  specialize (H s eq_refl). unfold bad_description in H.
  assert (H1 : contains "<script" (lower s) = false) by (apply not_true_false; tauto).
  assert (H2 : contains "</script>" (lower s) = false) by (apply not_true_false; tauto).
  assert (Hlen : len s <= 1000) by lia.
  unfold TodoCreate.field_description, Field, and_then,
    TodoCreate.validate_description, stored_description.
  destruct (Z.ltb_spec 1000 (len s)) as [L|L]; [lia|].
  destruct (truthy (strip s)); simpl; [|reflexivity].
  rewrite <- strip_lower.
  rewrite contains_strip, (contains_strip "<"%char "/script>") by reflexivity.
  rewrite H1, H2. reflexivity.
Qed.

(** X13. The validation rules are exact: a create or replace body is
    accepted if and only if its title is none of empty or all whitespace,
    containing [<] or [>], longer than 200 characters, and its
    description, when present, neither contains a script tag nor exceeds
    1000 characters; the accepted value then carries the trimmed title and
    the normalised description. *)
Theorem validation_accepts_exactly :
  forall (t : string) (d : option string) (cpl : option bool),
    let good :=
      ~ bad_title t /\ (forall s, d = Some s -> ~ bad_description s) in
    ((exists todo, TodoCreate.new t d = inr todo) <-> good)
    /\ ((exists data, TodoPut.new t d cpl = inr data) <-> good)
    /\ ((exists patch, TodoPatch.new (Some t) d cpl = inr patch) <-> good)
    /\ (good ->
        TodoCreate.new t d = inr (TodoCreate.mk (strip t) (stored_description d))
        /\ TodoPut.new t d cpl
           = inr (TodoPut.mk (strip t) (stored_description d)
                    (match cpl with Some b => b | None => false end))
        /\ TodoPatch.new (Some t) d cpl
           = inr (TodoPatch.mk (Some (strip t)) (stored_description d) cpl)).
Proof.
  intros t d cpl good.
  assert (Hgood : good ->
            TodoCreate.new t d = inr (TodoCreate.mk (strip t) (stored_description d))
            /\ TodoPut.new t d cpl
               = inr (TodoPut.mk (strip t) (stored_description d)
                        (match cpl with Some b => b | None => false end))
            /\ TodoPatch.new (Some t) d cpl
               = inr (TodoPatch.mk (Some (strip t)) (stored_description d) cpl)).
  { intros [Ht Hd].
    unfold TodoCreate.new, TodoPut.new, TodoPatch.new.
    rewrite TodoPut_field_title, TodoPut_field_description,
      TodoPatch_field_title, TodoPatch_field_description.
    rewrite (field_title_accepts t Ht), (field_description_accepts d Hd).
    repeat split. }
  assert (Hbad : ~ good ->
            (forall todo, TodoCreate.new t d <> inr todo)
            /\ (forall data, TodoPut.new t d cpl <> inr data)
            /\ (forall patch, TodoPatch.new (Some t) d cpl <> inr patch)).
  { intros Hn.
    assert (E : (exists e, TodoCreate.field_title t = inl e)
                \/ (exists e, TodoCreate.field_description d = inl e)).
    { destruct (TodoCreate.field_title t) as [e|w] eqn:Et; [left; eauto|].
      destruct (TodoCreate.field_description d) as [e|o] eqn:Ed; [right; eauto|].
      exfalso. apply Hn. split.
      - intros Hb. apply field_title_refuses in Hb. destruct Hb as [e He].
        congruence.
      - intros s -> Hb. apply field_description_refuses in Hb.
        destruct Hb as [e He]. congruence. }
    unfold TodoCreate.new, TodoPut.new, TodoPatch.new.
    rewrite TodoPut_field_title, TodoPut_field_description,
      TodoPatch_field_title, TodoPatch_field_description.
    destruct E as [[e He]|[e He]]; rewrite He;
      repeat split; intros x Hx;
      destruct (TodoCreate.field_title t); destruct (TodoCreate.field_description d);
      simpl in Hx; discriminate. }
  assert (Hdec : good \/ ~ good).
  { destruct (TodoCreate.new t d) as [e|todo] eqn:E.
    - right. intros Hg. destruct (Hgood Hg) as [H _]. congruence.
    - left. apply collect2_inr in E. destruct E as (x & y & Hx & Hy & _). split.
      + intros Hb. apply field_title_refuses in Hb. destruct Hb as [e He].
        congruence.
      + intros s -> Hb. apply field_description_refuses in Hb.
        destruct Hb as [e He]. congruence. }
  repeat apply conj; try exact Hgood.
  - intros [todo H]. destruct Hdec as [Hg|Hn]; [exact Hg|].
    exfalso. apply (proj1 (Hbad Hn) todo H).
  - intros Hg. eexists. apply (Hgood Hg).
  - intros [data H]. destruct Hdec as [Hg|Hn]; [exact Hg|].
    exfalso. apply (proj1 (proj2 (Hbad Hn)) data H).
  - intros Hg. eexists. apply (Hgood Hg).
  - intros [patch H]. destruct Hdec as [Hg|Hn]; [exact Hg|].
    exfalso. apply (proj2 (proj2 (Hbad Hn)) patch H).
  - intros Hg. eexists. apply (Hgood Hg).
Qed.

Lemma validation_accepts_exactly_witness :
  TodoCreate.new "  buy milk " (Some " ") = inr (TodoCreate.mk "buy milk" None).
Proof.
  apply (proj2 (proj2 (proj2
           (validation_accepts_exactly "  buy milk " (Some " ") None)))).
  split.
  - unfold bad_title. vm_compute. intuition discriminate.
  - intros s [= <-]. unfold bad_description. vm_compute. intuition discriminate.
Defined.

Lemma rstrip_twice (s : string) : rstrip (rstrip s) = rstrip s.
Proof.
  induction s as [|c r IH]; [reflexivity|]. simpl.
  destruct (is_space c && negb (truthy (rstrip r))) eqn:E; [reflexivity|].
  simpl. rewrite IH, E. reflexivity.
Qed.

Lemma lstrip_rstrip_lstrip (s : string) :
  lstrip (rstrip (lstrip s)) = rstrip (lstrip s).
Proof.
  induction s as [|c r IH]; [reflexivity|]. simpl lstrip at 2 3.
  destruct (is_space c) eqn:E; [exact IH|].
  simpl rstrip. rewrite E. simpl. rewrite E. reflexivity.
Qed.

Lemma strip_twice (s : string) : strip (strip s) = strip s.
Proof.
  unfold strip. rewrite lstrip_rstrip_lstrip. apply rstrip_twice.
Qed.

Lemma lstrip_length (s : string) : (String.length (lstrip s) <= String.length s)%nat.
Proof.
  induction s as [|c r IH]; simpl; [lia|].
  destruct (is_space c); simpl; lia.
Qed.

Lemma rstrip_length (s : string) : (String.length (rstrip s) <= String.length s)%nat.
Proof.
  induction s as [|c r IH]; simpl; [lia|].
  destruct (is_space c && negb (truthy (rstrip r))); simpl; lia.
Qed.

Lemma strip_len (s : string) : len (strip s) <= len s.
Proof.
  unfold len, strip.
  pose proof (rstrip_length (lstrip s)). pose proof (lstrip_length s). lia.
Qed.

(** What an accepted title looks like. *)
Lemma accepted_title_normal (v w : string) :
  TodoCreate.field_title v = inr w ->
  w <> "" /\ strip w = w /\ len w <= 200
  /\ contains "<" w = false /\ contains ">" w = false.
Proof.
  intros H. pose proof (field_title_keeps v w H) as ->.
  unfold TodoCreate.field_title, Field, and_then, TodoCreate.validate_title in H.
  destruct (len v <? 1); [discriminate|].
  destruct (Z.ltb_spec 200 (len v)) as [L|L]; [discriminate|].
  destruct (negb (truthy v) || isspace v) eqn:E; [discriminate|].
  destruct (contains "<" (strip v) || contains ">" (strip v)) eqn:C; [discriminate|].
  apply orb_false_iff in C. destruct C as [C1 C2].
  repeat split; try assumption.
  - intros Hs. apply strip_empty in Hs. unfold isspace in E.
    rewrite Hs in E. destruct v; discriminate.
  - apply strip_twice.
  - pose proof (strip_len v). lia.
Qed.

(** What an accepted description looks like. *)
Lemma accepted_description_normal (v : option string) (w : string) :
  TodoCreate.field_description v = inr (Some w) ->
  w <> "" /\ strip w = w /\ len w <= 1000
  /\ contains "<script" (lower w) = false
  /\ contains "</script>" (lower w) = false.
Proof.
  destruct v as [s|]; [|discriminate]. simpl.
  unfold Field, and_then, TodoCreate.validate_description.
  destruct (Z.ltb_spec 1000 (len s)) as [L|L]; [discriminate|].
  destruct (truthy (strip s)) eqn:T; simpl; [|discriminate].
  destruct (contains "<script" (lower (strip s))
            || contains "</script>" (lower (strip s))) eqn:C; [discriminate|].
  apply orb_false_iff in C. destruct C as [C1 C2].
  intros H. injection H as <-.
  repeat split; try assumption.
  - intros Hs. rewrite Hs in T. discriminate.
  - apply strip_twice.
  - pose proof (strip_len s). lia.
Qed.



(** X15. Validation is idempotent: the title and description of an
    accepted body are accepted again and come back unchanged, as a create
    body and as a replace body, so a todo that was read can be written
    back as it is. *)
Theorem validation_is_idempotent :
  forall (t : string) (d : option string) (todo : TodoCreate.t) (b : bool),
    TodoCreate.new t d = inr todo ->
    TodoCreate.new (TodoCreate.title todo) (TodoCreate.description todo)
      = inr todo
    /\ TodoPut.new (TodoCreate.title todo) (TodoCreate.description todo) (Some b)
       = inr (TodoPut.mk (TodoCreate.title todo) (TodoCreate.description todo) b).
Proof.
  intros t d todo b H. apply collect2_inr in H.
  destruct H as (x & y & Hx & Hy & ->). simpl.
  destruct (accepted_title_normal t x Hx) as (Hne & Hst & Hlen & Hlt & Hgt).
  assert (Gt : ~ bad_title x).
  { unfold bad_title. rewrite Hst, Hlt, Hgt. intuition (try discriminate; lia). }
  assert (Gd : forall s, y = Some s -> ~ bad_description s).
  { intros s ->. destruct (accepted_description_normal d s Hy)
      as (_ & _ & Hl & H1 & H2).
    unfold bad_description. rewrite H1, H2. intuition (try discriminate; lia). }
  unfold TodoCreate.new, TodoPut.new.
  rewrite TodoPut_field_title, TodoPut_field_description.
  rewrite (field_title_accepts x Gt), (field_description_accepts y Gd), Hst.
  assert (Sd : stored_description y = y).
  { destruct y as [s|]; [|reflexivity]. simpl.
    destruct (accepted_description_normal d s Hy) as (Hn & Hs & _).
    rewrite Hs. destruct s; [congruence|reflexivity]. }
  rewrite Sd. split; reflexivity.
Qed.

Lemma validation_is_idempotent_witness :
  TodoCreate.new "buy milk" None = inr (TodoCreate.mk "buy milk" None).
Proof.
  exact (proj1 (validation_is_idempotent "  buy milk " (Some " ")
                  (TodoCreate.mk "buy milk" None) false eq_refl)).
Defined.

End ValidationMore.

(** ** Users *)

Lemma first_collision_none (c : conn) (user : UserCreate.t) :
  first_collision c user = None <->
  ~ username_taken c user /\ ~ email_taken c user.
Proof.
  split.
  - intros H. split; intros Ht.
    + destruct (taken_first_collision c user (or_introl Ht)) as [r Hr]. congruence.
    + destruct (taken_first_collision c user (or_intror Ht)) as [r Hr]. congruence.
  - intros [Hu He]. destruct (first_collision c user) as [r|] eqn:E; [|reflexivity].
    exfalso. destruct (first_collision_collides c user r E) as [Hin [H|H]].
    + apply Hu. exists r. auto.
    + apply He. exists r. auto.
Qed.

Lemma create_user_fresh_run (pwd_context : security.CryptContext) (c : conn)
      (user : UserCreate.t) :
  first_collision c user = None ->
  crud_users.create_user pwd_context user c =
  (inr (user_response (new_user_row pwd_context c user)),
   mkconn (todos c) (users c ++ [new_user_row pwd_context c user])
          (todos_id_seq c) (users_id_seq c + 1) (clock c)
          ((statements c ++ [(SELECT, "users")]) ++ [(INSERT, "users")])).
Proof.
  intros H. unfold crud_users.create_user, try_except, bind,
              fetchrow_user_by_username_or_email.
  run. unfold first_collision in H. rewrite H. reflexivity.
Qed.

(** X16. [create_user] succeeds exactly when neither the username nor
    the email is taken.  It then appends one row to [users], carrying the
    requested username and email, the hash of the password as computed by
    the password context, the active flag, and the id and creation time
    that the answer reports; the rows already there and the todos are
    untouched. *)
Theorem create_user_inserts_hashed :
  forall (pwd_context : security.CryptContext) (c : conn) (user : UserCreate.t),
    ((exists resp, fst (crud_users.create_user pwd_context user c) = inr resp)
     <-> ~ username_taken c user /\ ~ email_taken c user)
    /\ (forall resp,
          fst (crud_users.create_user pwd_context user c) = inr resp ->
          let c' := snd (crud_users.create_user pwd_context user c) in
          users c'
          = (users c
               ++ [User.mk (UserResponse.id resp) (UserCreate.username user)
                     (UserCreate.email user)
                     (security.hash pwd_context (UserCreate.password user))
                     true (UserResponse.created_at resp)])%list
          /\ UserResponse.username resp = UserCreate.username user
          /\ UserResponse.email resp = UserCreate.email user
          /\ UserResponse.is_active resp = true
          /\ todos c' = todos c).
Proof.
  intros pwd_context c user.
  destruct (first_collision c user) as [r|] eqn:E.
  - rewrite (create_user_run pwd_context c user r E). split.
    + split.
      * intros [resp H]. simpl in H.
        destruct (String.eqb (User.username r) (UserCreate.username user));
          discriminate.
      * intros H. apply first_collision_none in H. congruence.
    + intros resp H. simpl in H.
      destruct (String.eqb (User.username r) (UserCreate.username user));
        discriminate.
  - rewrite (create_user_fresh_run pwd_context c user E). split.
    + split; [intros _; apply first_collision_none, E|].
      intros _. eexists. reflexivity.
    + intros resp H. simpl in H. injection H as <-. simpl.
      repeat split.
Qed.

Lemma create_user_inserts_hashed_witness :
  users (snd (crud_users.create_user toy_context
                (UserCreate.mk "carol" "carol@example.org" "pw-c") c0))
  = [alice; bob; User.mk 3 "carol" "carol@example.org" "h(pw-c)" true 300].
Proof.
  exact (proj1 (proj2 (create_user_inserts_hashed toy_context c0
                         (UserCreate.mk "carol" "carol@example.org" "pw-c"))
                  (UserResponse.mk 3 "carol" "carol@example.org" true 300)
                  eq_refl)).
Defined.

Lemma NoDup_snoc {A : Type} (l : list A) (x : A) :
  NoDup l -> ~ In x l -> NoDup (l ++ [x]).
Proof.
  intros Hl Hx. apply NoDup_app; [exact Hl|repeat constructor; intros []|].
  intros y Hy [<-|[]]. contradiction.
Qed.

(** X17. [create_user] keeps usernames and emails unique: if no two rows
    of [users] share a username or an email before the call, none do
    afterwards, whether the call inserts or refuses. *)
Theorem create_user_keeps_unique :
  forall (pwd_context : security.CryptContext) (c : conn) (user : UserCreate.t),
    users_unique c ->
    users_unique (snd (crud_users.create_user pwd_context user c)).
Proof.
  intros pwd_context c user [Hu He].
  destruct (first_collision c user) as [r|] eqn:E.
  - rewrite (create_user_run pwd_context c user r E). simpl. split; assumption.
  - rewrite (create_user_fresh_run pwd_context c user E). simpl.
    apply first_collision_none in E. destruct E as [Eu Ee].
    unfold users_unique. simpl. rewrite !map_app. simpl. split.
    + apply NoDup_snoc; [exact Hu|]. intros Hin. apply Eu.
      apply in_map_iff in Hin. destruct Hin as (r & Hr & Hin). exists r. auto.
    + apply NoDup_snoc; [exact He|]. intros Hin. apply Ee.
      apply in_map_iff in Hin. destruct Hin as (r & Hr & Hin). exists r. auto.
Qed.

Lemma create_user_keeps_unique_witness :
  users_unique (snd (crud_users.create_user toy_context
                       (UserCreate.mk "carol" "carol@example.org" "pw-c") c0)).
Proof.
  apply create_user_keeps_unique.
  split; simpl; repeat constructor; simpl; intuition discriminate.
Defined.

Lemma active_user_after_create (pwd_context : security.CryptContext) (c : conn)
      (user : UserCreate.t) :
  first_collision c user = None ->
  active_user (snd (crud_users.create_user pwd_context user c))
              (UserCreate.username user)
  = Some (new_user_row pwd_context c user).
Proof.
  intros E. rewrite (create_user_fresh_run pwd_context c user E).
  unfold active_user. cbn [snd users].
  rewrite find_app_none.
  - simpl. rewrite String.eqb_refl. reflexivity.
  - apply find_none_iff. intros r Hr.
    apply first_collision_none in E. destruct E as [Eu _].
    destruct (String.eqb_spec (User.username r) (UserCreate.username user)) as [H|H];
      [|reflexivity].
    exfalso. apply Eu. exists r. auto.
Qed.

(** X18. Register, then log in: when the password context verifies a
    password against its own hash, a user who has just registered with a
    free username and email can log in with the same username and
    password, and gets a bearer token whose subject is that username and
    which expires 30 minutes after the login. *)
Theorem register_then_login_succeeds :
  forall (pwd_context : security.CryptContext) (c : conn) (utcnow : Z)
         (user : UserCreate.t),
    security.verify pwd_context (UserCreate.password user)
      (security.hash pwd_context (UserCreate.password user)) = true ->
    ~ username_taken c user -> ~ email_taken c user ->
    let c' := snd (routes_auth.register_user pwd_context user c) in
    exists tok,
      fst (routes_auth.login_user pwd_context utcnow
             (UserLogin.mk (UserCreate.username user) (UserCreate.password user))
             c')
        = inr (routes_auth.mkToken tok "bearer")
      /\ subject tok = Some (security.Str (UserCreate.username user))
      /\ expiry tok = Some (utcnow + 30 * 60).
Proof.
  intros pwd_context c utcnow user Hv Hu He c'.
  assert (E : first_collision c user = None) by (apply first_collision_none; auto).
  assert (Hc' : c' = snd (crud_users.create_user pwd_context user c)).
  { unfold c', routes_auth.register_user, try_except.
    rewrite (create_user_fresh_run pwd_context c user E). reflexivity. }
  rewrite Hc'.
  rewrite (login_user_success pwd_context _ utcnow (UserCreate.username user)
             (UserCreate.password user) (new_user_row pwd_context c user)
             (active_user_after_create pwd_context c user E) Hv).
  eexists. split; [reflexivity|]. split; reflexivity.
Qed.

Lemma register_then_login_succeeds_witness :
  exists tok,
    fst (routes_auth.login_user toy_context 1000 (UserLogin.mk "carol" "pw-c")
           (snd (routes_auth.register_user toy_context
                   (UserCreate.mk "carol" "carol@example.org" "pw-c") c0)))
      = inr (routes_auth.mkToken tok "bearer")
    /\ subject tok = Some (security.Str "carol")
    /\ expiry tok = Some 2800.
Proof.
  apply (register_then_login_succeeds toy_context c0 1000
           (UserCreate.mk "carol" "carol@example.org" "pw-c") eq_refl).
  - intros (r & [<-|[<-|[]]] & H); discriminate.
  - intros (r & [<-|[<-|[]]] & H); discriminate.
Defined.

(** ** Tokens and the resolution of the caller *)

Lemma verify_token_ok (now : Z) (tok : security.token) (payload : security.dict) :
  security.verify_token now tok = inr payload ->
  tok = security.signed payload security.SECRET_KEY security.ALGORITHM
  /\ (exists s, security.get payload "sub" = Some s)
  /\ (forall v, security.get payload "exp" = Some v ->
                exists e, v = security.Instant e /\ now <= e).
Proof.
  unfold security.verify_token, security.jwt_decode.
  destruct tok as [text|claims key alg]; [discriminate|].
  destruct (String.eqb_spec key security.SECRET_KEY) as [->|Hk];
    cbn [negb is_JWTError]; [|discriminate].
  destruct (String.eqb_spec alg security.ALGORITHM) as [->|Ha].
  - change (existsb (String.eqb security.ALGORITHM) [security.ALGORITHM])
      with true.
    cbn [negb].
    destruct (security.get claims "exp") as [[s|e]|] eqn:Ex;
      cbn [is_JWTError]; try discriminate.
    + destruct (Z.ltb_spec e now) as [L|L];
        cbn [is_JWTError]; [discriminate|].
      destruct (security.get claims "sub") as [s|] eqn:Es; [|discriminate].
      intros H. injection H as <-. rewrite Es, Ex.
      split; [reflexivity|]. split; [eauto|].
      intros v Hv. injection Hv as <-. eauto.
    + destruct (security.get claims "sub") as [s|] eqn:Es; [|discriminate].
      intros H. injection H as <-. rewrite Es, Ex.
      split; [reflexivity|]. split; [eauto|]. intros v Hv. discriminate.
  - assert (E : existsb (String.eqb alg) [security.ALGORITHM] = false).
    { simpl. rewrite orb_false_r. apply String.eqb_neq, Ha. }
    rewrite E. cbn [negb is_JWTError]. discriminate.
Qed.

Lemma verify_token_error (now : Z) (tok : security.token) (e : exn) :
  security.verify_token now tok = inl e -> e = security.unauthorized.
Proof.
  unfold security.verify_token, security.jwt_decode.
  destruct tok as [text|claims key alg]; simpl.
  - intros H. injection H as <-. reflexivity.
  - destruct (negb (String.eqb key security.SECRET_KEY)); simpl;
      [intros H; injection H as <-; reflexivity|].
    destruct (negb (String.eqb alg security.ALGORITHM || false)); simpl;
      [intros H; injection H as <-; reflexivity|].
    destruct (security.get claims "exp") as [[s|x]|]; simpl;
      try (intros H; injection H as <-; reflexivity).
    + destruct (x <? now); simpl; [intros H; injection H as <-; reflexivity|].
      destruct (security.get claims "sub"); [discriminate|].
      intros H; injection H as <-; reflexivity.
    + destruct (security.get claims "sub"); [discriminate|].
      intros H; injection H as <-; reflexivity.
Qed.





Lemma active_user_is_active (c : conn) (username : string) (r : User.row) :
  active_user c username = Some r ->
  In r (users c) /\ User.username r = username /\ User.is_active r = true.
Proof.
  intros H. apply find_some in H. destruct H as [Hin H].
  apply andb_true_iff in H. destruct H as [Hn Ha].
  apply String.eqb_eq in Hn. split; [exact Hin|]. split; [exact Hn|].
  destruct (User.is_active r); [reflexivity|discriminate].
Qed.

Lemma get_current_user_run (now : Z) (tok : security.token) (c : conn)
      (payload : security.dict) (username : string) :
  security.verify_token now tok = inr payload ->
  security.get payload "sub" = Some (security.Str username) ->
  core_auth.get_current_user now tok c =
  (match active_user c username with
   | Some r => inr (user_response r)
   | None => inl (HTTPException 401 "User not found")
   end, seen SELECT "users" c).
Proof.
  intros Hv Hs. unfold core_auth.get_current_user. rewrite Hv, Hs.
  unfold bind. rewrite get_user_by_username_run.
  destruct (active_user c username); reflexivity.
Qed.

(** X21. Log in, then call: the token that [login_user] returns resolves,
    through [get_current_user] and [get_active_user], to the user who
    logged in, at every clock reading up to 30 minutes after the login and
    on every connection whose [users] are those of the login. *)
Theorem login_then_resolve :
  forall (pwd_context : security.CryptContext) (c c' : conn) (utcnow now : Z)
         (username password : string) (r : User.row),
    active_user c username = Some r ->
    security.verify pwd_context password (User.hashed_password r) = true ->
    users c' = users c ->
    now <= utcnow + 30 * 60 ->
    exists tok,
      fst (routes_auth.login_user pwd_context utcnow
             (UserLogin.mk username password) c)
        = inr (routes_auth.mkToken tok "bearer")
      /\ core_auth.Depends_get_active_user now tok c'
         = (inr (user_response r), seen SELECT "users" c').
Proof.
  intros pwd_context c c' utcnow now username password r Hr Hv Hu Hnow.
  rewrite (login_user_success pwd_context c utcnow username password r Hr Hv).
  eexists. split; [reflexivity|].
  destruct (active_user_is_active c username r Hr) as (_ & Hname & Hact).
  set (data := [("sub", security.Str (User.username r))]).
  assert (He : expiry (security.create_access_token utcnow data (Some 1800))
               = Some (utcnow + 1800)) by reflexivity.
  destruct (verify_token_fresh utcnow now data (Some 1800) (utcnow + 1800)
              (security.Str (User.username r)) He ltac:(lia) eq_refl)
    as (payload & Hp & Hsub).
  unfold core_auth.Depends_get_active_user, bind.
  rewrite (get_current_user_run now _ c' payload (User.username r) Hp Hsub).
  unfold active_user. rewrite Hu, Hname. fold (active_user c username).
  rewrite Hr. unfold core_auth.get_active_user. simpl. rewrite Hact. reflexivity.
Qed.

Lemma login_then_resolve_witness :
  exists tok,
    fst (routes_auth.login_user toy_context 1000 (UserLogin.mk "alice" "pw-a") c0)
      = inr (routes_auth.mkToken tok "bearer")
    /\ fst (core_auth.Depends_get_active_user 2800 tok c3)
       = inr (UserResponse.mk 1 "alice" "alice@example.org" true 100).
Proof.
  destruct (login_then_resolve toy_context c0 c3 1000 2800 "alice" "pw-a" alice
              eq_refl eq_refl eq_refl ltac:(lia)) as (tok & H1 & H2).
  exists tok. split; [exact H1|]. rewrite H2. reflexivity.
Defined.

(** X22. A user without an active row is locked out everywhere: if every
    row with the username is inactive (or there is none),
    [authenticate_user] returns [None], [login_user] raises the 401 of a
    failed login whatever the password, and a token that is still valid
    for that username is refused by [get_current_user] with
    401 "User not found". *)
Theorem inactive_user_is_locked_out :
  forall (pwd_context : security.CryptContext) (c : conn) (utcnow now : Z)
         (username password : string),
    (forall r, In r (users c) -> User.username r = username ->
               User.is_active r = false) ->
    fst (crud_users.authenticate_user pwd_context username password c) = inr None
    /\ fst (routes_auth.login_user pwd_context utcnow
              (UserLogin.mk username password) c)
       = inl (HTTPException 401 "Incorrect username or password")
    /\ (forall tok payload,
          security.verify_token now tok = inr payload ->
          security.get payload "sub" = Some (security.Str username) ->
          fst (core_auth.get_current_user now tok c)
          = inl (HTTPException 401 "User not found")).
Proof.
  intros pwd_context c utcnow now username password H.
  assert (E : active_user c username = None).
  { apply find_none_iff. intros r Hr.
    destruct (String.eqb_spec (User.username r) username) as [Hn|Hn];
      [|reflexivity].
    rewrite (H r Hr Hn). reflexivity. }
  split; [|split].
  - rewrite authenticate_user_run, E. reflexivity.
  - unfold routes_auth.login_user, bind. simpl UserLogin.username.
    simpl UserLogin.password. rewrite authenticate_user_run, E. reflexivity.
  - intros tok payload Hv Hs.
    rewrite (get_current_user_run now tok c payload username Hv Hs), E.
    reflexivity.
Qed.

Lemma inactive_user_is_locked_out_witness :
  fst (routes_auth.login_user toy_context 1000 (UserLogin.mk "dave" "pw-d")
         (mkconn [] [User.mk 4 "dave" "dave@example.org" "h(pw-d)" false 50]
                 1 5 300 []))
  = inl (HTTPException 401 "Incorrect username or password").
Proof.
  apply (inactive_user_is_locked_out toy_context
           (mkconn [] [User.mk 4 "dave" "dave@example.org" "h(pw-d)" false 50]
                   1 5 300 [])
           1000 1000 "dave" "pw-d").
  intros r [<-|[]] _. reflexivity.
Defined.

(** X23. The inactive-account gate never fires: every user that
    [get_current_user] returns is the response of an active row of
    [users], so [get_active_user] passes it on and the dependency chain
    behaves exactly like [get_current_user]; in particular it never raises
    400 "Inactive user". *)
Theorem resolved_users_are_active :
  forall (now : Z) (tok : security.token) (c : conn),
    (forall u,
        fst (core_auth.get_current_user now tok c) = inr u ->
        UserResponse.is_active u = true
        /\ exists r, In r (users c) /\ u = user_response r)
    /\ core_auth.Depends_get_active_user now tok c
       = core_auth.get_current_user now tok c
    /\ fst (core_auth.Depends_get_active_user now tok c)
       <> inl (HTTPException 400 "Inactive user").
Proof.
  intros now tok c.
  assert (A : forall u,
             fst (core_auth.get_current_user now tok c) = inr u ->
             UserResponse.is_active u = true
             /\ exists r, In r (users c) /\ u = user_response r).
  { intros u. unfold core_auth.get_current_user.
    destruct (security.verify_token now tok) as [e|payload]; [discriminate|].
    destruct (security.get payload "sub") as [[username|t]|]; try discriminate.
    unfold bind. rewrite get_user_by_username_run.
    destruct (active_user c username) as [r|] eqn:E; [|discriminate].
    simpl. intros H. injection H as <-.
    destruct (active_user_is_active c username r E) as (Hin & _ & Hact).
    simpl. split; [exact Hact|]. exists r. auto. }
  assert (B : core_auth.Depends_get_active_user now tok c
              = core_auth.get_current_user now tok c).
  { unfold core_auth.Depends_get_active_user, bind.
    destruct (core_auth.get_current_user now tok c) as [[e|u] c'] eqn:E;
      [reflexivity|].
    destruct (A u eq_refl) as [Hact _].
    unfold core_auth.get_active_user. rewrite Hact. reflexivity. }
  split; [exact A|]. split; [exact B|].
  rewrite B. unfold core_auth.get_current_user.
  destruct (security.verify_token now tok) as [e|payload] eqn:V.
  - apply verify_token_error in V. subst e. discriminate.
  - destruct (security.get payload "sub") as [[username|t]|]; try discriminate.
    unfold bind. rewrite get_user_by_username_run.
    destruct (active_user c username); discriminate.
Qed.

Lemma get_user_by_id_run (c : conn) (user_id : Z) :
  crud_users.get_user_by_id user_id c =
  (inr (option_map user_response
          (find (fun r => (User.id r =? user_id)
                          && Bool.eqb (User.is_active r) true) (users c))),
   seen SELECT "users" c).
Proof.
  unfold crud_users.get_user_by_id, try_except, fetchrow_active_user_by_id. run.
  destruct (find _ (users c)); reflexivity.
Qed.



(** ** Retry *)

Section RetryFacts.
Variables World A : Type.
Variable sleep : float -> World -> World.
Variable func : World -> (exn + A) * World.
Variables (retries : Z) (delay : float).

Lemma attempts_success (k : nat) :
  forall (n : nat) (attempt : Z) (w wk w' : World) (a : A),
    after_failures sleep func delay k w = Some wk ->
    func wk = (inr a, w') ->
    (k < n)%nat -> attempt + Z.of_nat k <= retries ->
    retry.attempts World A sleep func retries delay n attempt w
    = (inr (Some a), w').
Proof.
  induction k as [|k IH]; intros n attempt w wk w' a Hk Hf Hn Ha.
  - simpl in Hk. injection Hk as <-.
    destruct n as [|n]; [lia|]. simpl. rewrite Hf. reflexivity.
  - simpl in Hk. destruct n as [|n]; [lia|]. simpl.
    destruct (func w) as [[e|x] w1]; [|discriminate].
    destruct (Z.ltb_spec attempt retries) as [L|L]; [|lia].
    apply (IH n (attempt + 1) _ wk w' a Hk Hf); lia.
Qed.

Lemma attempts_exhausted (k : nat) :
  forall (n : nat) (attempt : Z) (w wk w' : World) (e : exn),
    after_failures sleep func delay k w = Some wk ->
    func wk = (inl e, w') ->
    (k < n)%nat -> attempt + Z.of_nat k = retries ->
    retry.attempts World A sleep func retries delay n attempt w = (inl e, w').
Proof.
  induction k as [|k IH]; intros n attempt w wk w' e Hk Hf Hn Ha.
  - simpl in Hk. injection Hk as <-.
    destruct n as [|n]; [lia|]. simpl. rewrite Hf.
    destruct (Z.ltb_spec attempt retries) as [L|L]; [lia|reflexivity].
  - simpl in Hk. destruct n as [|n]; [lia|]. simpl.
    destruct (func w) as [[e1|x] w1]; [|discriminate].
    destruct (Z.ltb_spec attempt retries) as [L|L]; [|lia].
    apply (IH n (attempt + 1) _ wk w' e Hk Hf); lia.
Qed.

Lemma attempts_not_none (n : nat) :
  forall (attempt : Z) (w w' : World),
    (1 <= n)%nat -> attempt + Z.of_nat n = retries + 1 ->
    retry.attempts World A sleep func retries delay n attempt w <> (inr None, w').
Proof.
  induction n as [|n IH]; intros attempt w w' Hn Ha; [lia|]. simpl.
  destruct (func w) as [[e|x] w1]; [|discriminate].
  destruct (Z.ltb_spec attempt retries) as [L|L]; [|discriminate].
  apply IH; lia.
Qed.

(** X25. [with_retry] returns the result of the first call of [func] that
    does not raise, provided it is among the first [retries] calls; it has
    then slept once after each failed call before it and calls [func] no
    more.  If the first [retries] calls all raise, it raises the exception
    of the last of them, without sleeping after it. *)
Theorem with_retry_first_success_or_last_error :
  forall (k : nat) (w wk w' : World),
    after_failures sleep func delay k w = Some wk ->
    (forall a, func wk = (inr a, w') -> Z.of_nat k < retries ->
               retry.with_retry World A sleep func retries delay w
               = (inr (Some a), w'))
    /\ (forall e, func wk = (inl e, w') -> Z.of_nat k + 1 = retries ->
                  retry.with_retry World A sleep func retries delay w
                  = (inl e, w')).
Proof.
  intros k w wk w' Hk. split.
  - intros a Hf Hlt. unfold retry.with_retry.
    apply (attempts_success k _ 1 w wk w' a Hk Hf); lia.
  - intros e Hf Heq. unfold retry.with_retry.
    apply (attempts_exhausted k _ 1 w wk w' e Hk Hf); lia.
Qed.

End RetryFacts.

Lemma with_retry_first_success_or_last_error_witness :
  retry.with_retry (nat * nat) Z count_sleep flaky 3 1%float (0%nat, 0%nat)
    = (inr (Some 42), (3%nat, 2%nat))
  /\ retry.with_retry (nat * nat) Z count_sleep flaky 2 1%float (0%nat, 0%nat)
     = (inl (PostgresError "connection refused"), (2%nat, 1%nat)).
Proof.
  split.
  - apply (proj1 (with_retry_first_success_or_last_error (nat * nat) Z count_sleep
                    flaky 3 1%float 2 (0%nat, 0%nat) (2%nat, 2%nat) (3%nat, 2%nat)
                    eq_refl) 42 eq_refl).
    lia.
  - apply (proj2 (with_retry_first_success_or_last_error (nat * nat) Z count_sleep
                    flaky 2 1%float 1 (0%nat, 0%nat) (1%nat, 1%nat) (2%nat, 1%nat)
                    eq_refl) _ eq_refl).
    lia.
Defined.


(** ** Migrations *)

Lemma name_in_app (name : string) (l l' : list string) :
  migrate.name_in name (l ++ l') = migrate.name_in name l || migrate.name_in name l'.
Proof. unfold migrate.name_in. apply existsb_app. Qed.

Lemma name_in_In (name : string) (l : list string) :
  migrate.name_in name l = true <-> In name l.
Proof.
  unfold migrate.name_in. rewrite existsb_exists. split.
  - intros (x & Hx & E). apply String.eqb_eq in E. subst. exact Hx.
  - intros H. exists name. split; [exact H|apply String.eqb_refl].
Qed.

Lemma insert_sorted_In (f x : string * string) (l : list (string * string)) :
  In x (migrate.insert_sorted f l) <-> x = f \/ In x l.
Proof.
  induction l as [|g l IH]; simpl.
  - intuition congruence.
  - destruct (String.leb (fst f) (fst g)); simpl.
    + intuition congruence.
    + rewrite IH. intuition congruence.
Qed.

Lemma sorted_In (x : string * string) (l : list (string * string)) :
  In x (migrate.sorted l) <-> In x l.
Proof.
  induction l as [|g l IH]; simpl; [reflexivity|].
  rewrite insert_sorted_In, IH. intuition congruence.
Qed.

Lemma insert_sorted_NoDup (f : string * string) (l : list (string * string)) :
  ~ In (fst f) (map fst l) -> NoDup (map fst l) ->
  NoDup (map fst (migrate.insert_sorted f l)).
Proof.
  induction l as [|g l IH]; intros Hf Hl; simpl.
  - constructor; [intros []|constructor].
  - destruct (String.leb (fst f) (fst g)); simpl.
    + constructor; assumption.
    + inversion Hl as [|? ? Hg Hl']; subst. simpl in Hf.
      constructor.
      * intros Hin. apply in_map_iff in Hin. destruct Hin as (x & Hx & Hin).
        apply insert_sorted_In in Hin. destruct Hin as [->|Hin].
        -- apply Hf. left. symmetry. exact Hx.
        -- apply Hg. rewrite <- Hx. apply in_map, Hin.
      * apply IH; [|exact Hl']. intros Hin. apply Hf. right. exact Hin.
Qed.

Lemma sorted_NoDup (l : list (string * string)) :
  NoDup (map fst l) -> NoDup (map fst (migrate.sorted l)).
Proof.
  induction l as [|g l IH]; intros Hl; simpl; [constructor|].
  inversion Hl as [|? ? Hg Hl']; subst.
  apply insert_sorted_NoDup; [|apply IH, Hl'].
  intros Hin. apply Hg. apply in_map_iff in Hin.
  destruct Hin as (x & Hx & Hin). apply (proj1 (sorted_In _ _)) in Hin.
  rewrite <- Hx. apply in_map, Hin.
Qed.

Section MigrateFacts.
Variable D : Type.
Variable execute : string -> D -> exn + D.


Lemma run_each_spec (files : list (string * string)) :
  forall (rows : list string) (d : D) (dir : list (string * string)),
    NoDup (map fst files) ->
    (forall f, In f files -> migrate.name_in (fst f) rows = false) ->
    migrate.run_each D execute files (migrate.mkworld (Some rows) d dir) =
    let '(names, d', failure) := apply_scripts execute files d in
    (match failure with None => inr tt | Some e => inl e end,
     migrate.mkworld (Some (rows ++ names)%list) d' dir).
Proof.
  induction files as [|f files IH]; intros rows d dir Hnd Hnew.
  - simpl. rewrite app_nil_r. reflexivity.
  - simpl. unfold migrate.bind at 1. unfold migrate.run_migration.
    unfold migrate.bind at 1. simpl.
    destruct (execute (snd f) d) as [e|d1] eqn:E.
    + rewrite app_nil_r. reflexivity.
    + unfold migrate.insert_migration. simpl.
      rewrite (Hnew f (or_introl eq_refl)).
      inversion Hnd as [|? ? Hnotin Hnd']; subst.
      rewrite (IH (rows ++ [fst f])%list d1 dir Hnd').
      * destruct (apply_scripts execute files d1) as [[names d2] failure].
        rewrite <- app_assoc. reflexivity.
      * intros g Hg. rewrite name_in_app, (Hnew g (or_intror Hg)). simpl.
        rewrite orb_false_r.
        destruct (String.eqb_spec (fst g) (fst f)) as [H|H]; [|reflexivity].
        exfalso. apply Hnotin. rewrite <- H. apply in_map, Hg.
Qed.

Lemma pending_NoDup (w : migrate.world D) :
  NoDup (map fst (migrate.migrations_dir w)) ->
  NoDup (map fst (pending_of w)).
Proof.
  intros H. unfold pending_of, migrate.glob_sql.
  apply NoDup_map_filter, sorted_NoDup, NoDup_map_filter, H.
Qed.

Lemma migrate_spec (w : migrate.world D) :
  NoDup (map fst (migrate.migrations_dir w)) ->
  migrate.migrate D execute w =
  let '(names, d', failure) := apply_scripts execute (pending_of w) (migrate.data w) in
  (match failure with None => inr tt | Some e => inl e end,
   migrate.mkworld (Some (executed_of w ++ names)%list) d' (migrate.migrations_dir w)).
Proof.
  intros Hnd.
  pose proof (pending_NoDup w Hnd) as Hp.
  assert (Hnew : forall f, In f (pending_of w) ->
                           migrate.name_in (fst f) (executed_of w) = false).
  { intros f Hf. unfold pending_of in Hf. apply filter_In in Hf.
    destruct Hf as [_ Hf]. destruct (migrate.name_in (fst f) (executed_of w));
      [discriminate|reflexivity]. }
  pose proof (run_each_spec (pending_of w) (executed_of w) (migrate.data w)
                (migrate.migrations_dir w) Hp Hnew) as R.
  unfold migrate.migrate, migrate.bind, migrate.create_migrations_table,
    migrate.get_pending_migrations, migrate.bind, migrate.get_executed_migrations.
  unfold pending_of, executed_of, migrate.glob_sql in *.
  destruct w as [[rows|] d dir];
    cbn [migrate.migrations migrate.data migrate.migrations_dir fst snd] in *;
    match goal with
    | |- context [match ?l with [] => _ | _ :: _ => _ end] =>
        destruct l eqn:P; [simpl; rewrite ?app_nil_r; reflexivity|exact R]
    end.
Qed.

End MigrateFacts.

Lemma leb_trans (a b c : string) :
  String.leb a b = true -> String.leb b c = true -> String.leb a c = true.
Proof.
  revert b c. induction a as [|x a IH]; intros b c Hab Hbc.
  - destruct c; reflexivity.
  - destruct b as [|y b]; [discriminate|].
    destruct c as [|z c]; [discriminate|].
    unfold String.leb in *. simpl in *. unfold Ascii.compare in *.
    destruct (N.compare_spec (N_of_ascii x) (N_of_ascii y)) as [E1|L1|G1];
      destruct (N.compare_spec (N_of_ascii y) (N_of_ascii z)) as [E2|L2|G2];
      destruct (N.compare_spec (N_of_ascii x) (N_of_ascii z)) as [E3|L3|G3];
      try reflexivity; try discriminate; try lia.
    apply (IH b c Hab Hbc).
Qed.

Section MigrateProperties.
Variable D : Type.
Variable execute : string -> D -> exn + D.

Lemma insert_sorted_sorted (f : string * string) (l : list (string * string)) :
  StronglySorted (fun a b => String.leb (fst a) (fst b) = true) l ->
  StronglySorted (fun a b => String.leb (fst a) (fst b) = true)
                 (migrate.insert_sorted f l).
Proof.
  induction l as [|g l IH]; intros Hs; simpl.
  - constructor; constructor.
  - apply StronglySorted_inv in Hs. destruct Hs as [Hl Hg].
    destruct (String.leb (fst f) (fst g)) eqn:E.
    + constructor; [constructor; assumption|].
      constructor; [exact E|].
      eapply Forall_impl; [|exact Hg]. simpl. intros a Ha.
      apply (leb_trans _ _ _ E Ha).
    + constructor; [apply IH, Hl|].
      rewrite Forall_forall in *. intros y Hy.
      apply insert_sorted_In in Hy. destruct Hy as [->|Hy]; [|apply Hg, Hy].
      destruct (String.leb_total (fst f) (fst g)) as [H|H]; [congruence|exact H].
Qed.

Lemma sorted_sorted (l : list (string * string)) :
  StronglySorted (fun a b => String.leb (fst a) (fst b) = true)
                 (migrate.sorted l).
Proof.
  induction l as [|g l IH]; simpl; [constructor|].
  apply insert_sorted_sorted, IH.
Qed.

Lemma sorted_filter {A : Type} (R : A -> A -> Prop) (p : A -> bool) (l : list A) :
  StronglySorted R l -> StronglySorted R (filter p l).
Proof.
  induction 1 as [|a l Hl IH Ha]; simpl; [constructor|].
  destruct (p a); [|exact IH]. constructor; [exact IH|].
  rewrite Forall_forall in *. intros x Hx. apply filter_In in Hx. apply Ha, Hx.
Qed.

Lemma apply_scripts_names (files : list (string * string)) :
  forall (d d' : D) (names : list string) (failure : option exn),
    apply_scripts execute files d = (names, d', failure) ->
    names = map fst (firstn (List.length names) files)
    /\ (failure = None -> names = map fst files)
    /\ (forall e, failure = Some e ->
          exists f rest,
            skipn (List.length names) files = f :: rest
            /\ execute (snd f) d' = inl e).
Proof.
  induction files as [|f files IH]; intros d d' names failure H; simpl in H.
  - injection H as <- <- <-. repeat split; try reflexivity. discriminate.
  - destruct (execute (snd f) d) as [e|d1] eqn:E.
    + injection H as <- <- <-. repeat split; try discriminate.
      intros e' H'. injection H' as <-. exists f, files. split; [reflexivity|exact E].
    + destruct (apply_scripts execute files d1) as [[names1 d2] failure1] eqn:R.
      injection H as <- <- <-.
      destruct (IH d1 d2 names1 failure1 R) as (H1 & H2 & H3).
      simpl. split; [f_equal; exact H1|]. split.
      * intros Hn. f_equal. apply H2, Hn.
      * intros e He. apply (H3 e He).
Qed.

Lemma filter_all_true {A : Type} (p : A -> bool) (l : list A) :
  (forall x, p x = true) -> filter p l = l.
Proof.
  intros H. induction l as [|a l IH]; simpl; [reflexivity|].
  rewrite H, IH. reflexivity.
Qed.

Lemma filter_applied (files : list (string * string)) :
  forall k : nat,
    NoDup (map fst files) ->
    filter (fun f => negb (migrate.name_in (fst f) (map fst (firstn k files)))) files
    = skipn k files.
Proof.
  induction files as [|f files IH]; intros k Hnd.
  - destruct k; reflexivity.
  - destruct k as [|k].
    + apply filter_all_true. reflexivity.
    + inversion Hnd as [|? ? Hnotin Hnd']; subst.
      simpl. rewrite String.eqb_refl. simpl.
      rewrite <- (IH k Hnd'). apply filter_ext_in. intros g Hg.
      destruct (String.eqb_spec (fst g) (fst f)) as [H|H]; [|reflexivity].
      exfalso. apply Hnotin. rewrite <- H. apply in_map, Hg.
Qed.

Lemma pending_after (w : migrate.world D) (names : list string) (d' : D) :
  pending_of (migrate.mkworld (Some (executed_of w ++ names)%list) d'
                              (migrate.migrations_dir w))
  = filter (fun f => negb (migrate.name_in (fst f) names)) (pending_of w).
Proof.
  unfold pending_of, executed_of, migrate.glob_sql.
  cbn [migrate.migrations migrate.migrations_dir].
  induction (migrate.sorted
               (filter (fun f => migrate.endswith (fst f) ".sql")
                       (migrate.migrations_dir w))) as [|f l IH];
    [reflexivity|].
  simpl. rewrite name_in_app.
  destruct (migrate.name_in (fst f)
              match migrate.migrations w with Some rows => rows | None => [] end);
    simpl; [exact IH|].
  destruct (migrate.name_in (fst f) names); simpl; rewrite IH; reflexivity.
Qed.

Lemma get_pending_run (rows : list string) (d : D) (dir : list (string * string)) :
  migrate.get_pending_migrations D (migrate.mkworld (Some rows) d dir)
  = (inr (pending_of (migrate.mkworld (Some rows) d dir)),
     migrate.mkworld (Some rows) d dir).
Proof. reflexivity. Qed.

(** X27. [migrate] runs the scripts that are pending, and only those:
    the [.sql] files of the migrations directory whose names are not
    recorded in [migrations], in the order of their names.  When every
    script succeeds it records each of them, after the names already
    recorded, and returns; the table is created first if it is missing. *)
Theorem migrate_runs_pending_in_order :
  forall w : migrate.world D,
    NoDup (map fst (migrate.migrations_dir w)) ->
    (forall f, In f (pending_of w) <->
               In f (migrate.migrations_dir w)
               /\ migrate.endswith (fst f) ".sql" = true
               /\ ~ In (fst f) (executed_of w))
    /\ StronglySorted (fun a b => String.leb (fst a) (fst b) = true)
                      (pending_of w)
    /\ (forall names d',
          apply_scripts execute (pending_of w) (migrate.data w)
            = (names, d', None) ->
          names = map fst (pending_of w)
          /\ migrate.migrate D execute w
             = (inr tt,
                migrate.mkworld
                  (Some (executed_of w ++ map fst (pending_of w))%list) d'
                  (migrate.migrations_dir w))).
Proof.
  intros w Hnd. split; [|split].
  - intros f. unfold pending_of, migrate.glob_sql.
    rewrite filter_In, sorted_In, filter_In.
    rewrite <- name_in_In.
    destruct (migrate.name_in (fst f) (executed_of w)); simpl;
      intuition congruence.
  - unfold pending_of, migrate.glob_sql. apply sorted_filter, sorted_sorted.
  - intros names d' H.
    destruct (apply_scripts_names _ _ _ _ _ H) as (_ & Hall & _).
    specialize (Hall eq_refl). split; [exact Hall|].
    rewrite (migrate_spec D execute w Hnd), H, Hall. reflexivity.
Qed.

(** X28. A failing script stops [migrate]: the exception of the script is
    raised, the scripts before it stay applied and recorded, the failing
    script and those after it are not recorded.  What is pending afterwards
    is the failing script followed by the later ones, so the next run
    resumes there. *)
Theorem migrate_stops_at_first_failure :
  forall (w : migrate.world D) (names : list string) (d' : D) (e : exn),
    NoDup (map fst (migrate.migrations_dir w)) ->
    apply_scripts execute (pending_of w) (migrate.data w)
      = (names, d', Some e) ->
    let w' := migrate.mkworld (Some (executed_of w ++ names)%list) d'
                              (migrate.migrations_dir w) in
    migrate.migrate D execute w = (inl e, w')
    /\ names = map fst (firstn (List.length names) (pending_of w))
    /\ pending_of w' = skipn (List.length names) (pending_of w)
    /\ exists f rest,
        pending_of w' = f :: rest /\ execute (snd f) d' = inl e.
Proof.
  intros w names d' e Hnd H w'.
  destruct (apply_scripts_names _ _ _ _ _ H) as (Hnames & _ & Hfail).
  destruct (Hfail e eq_refl) as (f & rest & Hskip & Hf).
  assert (Hp : pending_of w' = skipn (List.length names) (pending_of w)).
  { unfold w'. rewrite pending_after.
    pose proof (filter_applied (pending_of w) (List.length names)
                  (pending_NoDup D w Hnd)) as F.
    rewrite <- Hnames in F. exact F. }
  split; [|split; [exact Hnames|split; [exact Hp|]]].
  - rewrite (migrate_spec D execute w Hnd), H. reflexivity.
  - exists f, rest. split; [rewrite Hp; exact Hskip|exact Hf].
Qed.

(** X29. [migrate] is idempotent: after a run in which every script
    succeeded nothing is pending, and a second run executes no script,
    records nothing and leaves the database and the [migrations] table as
    they are. *)
Theorem migrate_twice_changes_nothing :
  forall (w w' : migrate.world D),
    NoDup (map fst (migrate.migrations_dir w)) ->
    migrate.migrate D execute w = (inr tt, w') ->
    pending_of w' = []
    /\ fst (migrate.get_pending_migrations D w') = inr []
    /\ migrate.migrate D execute w' = (inr tt, w').
Proof.
  intros w w' Hnd H.
  rewrite (migrate_spec D execute w Hnd) in H.
  destruct (apply_scripts execute (pending_of w) (migrate.data w))
    as [[names d'] failure] eqn:R.
  destruct failure as [e|]; [discriminate|].
  injection H as <-.
  destruct (apply_scripts_names _ _ _ _ _ R) as (_ & Hall & _).
  specialize (Hall eq_refl).
  assert (Hp : pending_of
                 (migrate.mkworld (Some (executed_of w ++ names)%list) d'
                                  (migrate.migrations_dir w)) = []).
  { rewrite pending_after, Hall.
    pose proof (filter_applied (pending_of w) (List.length (pending_of w))
                  (pending_NoDup D w Hnd)) as F.
    rewrite firstn_all, skipn_all in F. exact F. }
  split; [exact Hp|]. split.
  - rewrite get_pending_run, Hp. reflexivity.
  - rewrite migrate_spec by exact Hnd. rewrite Hp. simpl.
    rewrite app_nil_r. reflexivity.
Qed.
End MigrateProperties.

Lemma migrate_runs_pending_in_order_witness :
  migrate.migrate (list string) run_script
    (migrate.mkworld None [] (firstn 3 sample_dir))
  = (inr tt,
     migrate.mkworld (Some ["001_users.sql"; "002_todos.sql"])
                     ["create users"; "create todos"] (firstn 3 sample_dir)).
Proof.
  assert (Hnd : NoDup (map fst (firstn 3 sample_dir))).
  { simpl. repeat constructor; simpl; intuition discriminate. }
  exact (proj2 (proj2 (proj2 (migrate_runs_pending_in_order (list string)
                                run_script
                                (migrate.mkworld None [] (firstn 3 sample_dir))
                                Hnd))
                  ["001_users.sql"; "002_todos.sql"]
                  ["create users"; "create todos"] eq_refl)).
Defined.

Lemma migrate_stops_at_first_failure_witness :
  migrate.migrate (list string) run_script (migrate.mkworld None [] sample_dir)
  = (inl (PostgresError "syntax error"),
     migrate.mkworld (Some ["001_users.sql"; "002_todos.sql"])
                     ["create users"; "create todos"] sample_dir).
Proof.
  assert (Hnd : NoDup (map fst sample_dir)).
  { simpl. repeat constructor; simpl; intuition discriminate. }
  exact (proj1 (migrate_stops_at_first_failure (list string) run_script
                  (migrate.mkworld None [] sample_dir)
                  ["001_users.sql"; "002_todos.sql"]
                  ["create users"; "create todos"]
                  (PostgresError "syntax error") Hnd eq_refl)).
Defined.

Lemma migrate_twice_changes_nothing_witness :
  migrate.migrate (list string) run_script
    (migrate.mkworld (Some ["001_users.sql"; "002_todos.sql"])
                     ["create users"; "create todos"] (firstn 3 sample_dir))
  = (inr tt,
     migrate.mkworld (Some ["001_users.sql"; "002_todos.sql"])
                     ["create users"; "create todos"] (firstn 3 sample_dir)).
Proof.
  assert (Hnd : NoDup (map fst (firstn 3 sample_dir))).
  { simpl. repeat constructor; simpl; intuition discriminate. }
  exact (proj2 (proj2 (migrate_twice_changes_nothing (list string) run_script
                         (migrate.mkworld None [] (firstn 3 sample_dir)) _
                         Hnd eq_refl))).
Defined.
